(** * xch-limit-orders: order store, matching engine and execution
    controller of [src/content.js], embedded in Rocq.

    Conventions of the embedding.
    - A JavaScript number is an exact rational ([Q]); the comparisons
      [<=], [<], [>] of the script are [Qle_bool] and its negations.  The
      number inputs of the toolbar are [<input type="number">], whose
      value is either the empty string or a well-formed number, so a field
      is an [option Q] and [parseFloat] of a filled field is its number.
    - An order is a record; the optional properties that
      [markOrderExecuted] adds to the object are [option] fields.
    - [settings.orders] is a [list Order], in array order.
    - What the page and the browser supply (the sampled price, [Date.now],
      [generateOrderId], [getLatestVaultOrder], the outcome of each buy
      step) is an explicit argument of the function that reads it.
    - An [async] function is cut at its [await]s into the pieces that run
      without interruption; [apply] runs one piece per event, so a
      list of events is one interleaving of the activations alive. *)

From Stdlib Require Import List Bool Arith ZArith QArith Lqa Lia String.
From Stdlib Require Import Sorted Permutation.
Import ListNotations.

Local Open Scope Q_scope.

(** ** JavaScript numbers and arrays *)

Module JS.

(** [a <= b] on numbers. *)
Definition le (a b : Q) : bool := Qle_bool a b.
(** [a < b] on numbers. *)
Definition lt (a b : Q) : bool := negb (Qle_bool b a).
(** [a > b] on numbers. *)
Definition gt (a b : Q) : bool := lt b a.

Section Arrays.
Context {A : Type}.

(** [Array.prototype.findIndex], as the position of the first match. *)
Fixpoint findIndex (p : A -> bool) (l : list A) : option nat :=
  match l with
  | [] => None
  | x :: r => if p x then Some O else option_map S (findIndex p r)
  end.

(** [Array.prototype.splice(index, 1)]. *)
Fixpoint splice1 (index : nat) (l : list A) : list A :=
  match l, index with
  | [], _ => []
  | _ :: r, O => r
  | x :: r, S i => x :: splice1 i r
  end.

(** [Array.prototype.sort(compare)].  ECMAScript requires the sort to be
    stable, and for a comparator that is a consistent ordering the
    result of a stable sort is determined; it is computed here by
    insertion from the right: an element goes in front of the first
    element of the sorted rest that does not compare below it. *)
Fixpoint sort_insert (compare : A -> A -> Q) (x : A) (l : list A) : list A :=
  match l with
  | [] => [x]
  | y :: r =>
      if le (compare x y) 0 then x :: y :: r
      else y :: sort_insert compare x r
  end.

Definition sort (compare : A -> A -> Q) (l : list A) : list A :=
  fold_right (sort_insert compare) [] l.
End Arrays.

End JS.

(** ** Data model *)

Inductive Status := pending | executed.

Definition Status_eqb (a b : Status) : bool :=
  match a, b with
  | pending, pending | executed, executed => true
  | _, _ => false
  end.

(** An element of [settings.orders]. *)
Record Order := mkOrder {
  id : string;
  targetPrice : Q;
  amount : Q;
  status : Status;
  executedPrice : option Q;
  filledAt : option Z;
  vaultOrderId : option string;
  vaultOrderUrl : option string
}.

(** What [getLatestVaultOrder] returns when it finds a card. *)
Record VaultOrder := mkVaultOrder {
  orderId : string;
  detailsUrl : option string
}.

(** The [settings] object. *)
Record Settings := mkSettings {
  maxBudget : Q;
  refreshInterval : Z;
  orders : list Order
}.

Definition DEFAULT_SETTINGS : Settings :=
  {| maxBudget := 0; refreshInterval := 5%Z; orders := [] |}.

Definition with_orders (s : Settings) (l : list Order) : Settings :=
  {| maxBudget := maxBudget s; refreshInterval := refreshInterval s;
     orders := l |}.

(** ** Order management *)

(** [addOrder(targetPrice, amount)]: the object pushed on the array.  The
    identifier is the one [generateOrderId] produced. *)
Definition newOrder (newId : string) (target amt : Q) : Order :=
  {| id := newId; targetPrice := target; amount := amt; status := pending;
     executedPrice := None; filledAt := None;
     vaultOrderId := None; vaultOrderUrl := None |}.

Definition addOrder (newId : string) (target amt : Q) (s : Settings)
  : Settings * Order :=
  let order := newOrder newId target amt in
  (with_orders s (orders s ++ [order]), order).

(** [removeOrder(orderId)]. *)
Definition removeOrder (oid : string) (s : Settings) : Settings :=
  match JS.findIndex (fun o => String.eqb (id o) oid) (orders s) with
  | Some index => with_orders s (JS.splice1 index (orders s))
  | None => s
  end.

(** The assignments of [markOrderExecuted] to the order it found. *)
Definition fill (price : Q) (now : Z) (vault : option VaultOrder) (o : Order)
  : Order :=
  {| id := id o; targetPrice := targetPrice o; amount := amount o;
     status := executed;
     executedPrice := Some price;
     filledAt := Some now;
     vaultOrderId :=
       match vault with Some v => Some (orderId v) | None => vaultOrderId o end;
     vaultOrderUrl :=
       match vault with Some v => detailsUrl v | None => vaultOrderUrl o end |}.

(** The array after the object returned by [find(o => o.id === orderId)]
    has been updated in place. *)
Fixpoint fillFirst (oid : string) (price : Q) (now : Z)
    (vault : option VaultOrder) (l : list Order) : list Order :=
  match l with
  | [] => []
  | o :: r =>
      if String.eqb (id o) oid then fill price now vault o :: r
      else o :: fillFirst oid price now vault r
  end.

(** [markOrderExecuted(orderId, executedPrice)]. *)
Definition markOrderExecuted (oid : string) (price : Q) (now : Z)
    (vault : option VaultOrder) (s : Settings) : Settings :=
  with_orders s (fillFirst oid price now vault (orders s)).

Definition isPending (o : Order) : bool := Status_eqb (status o) pending.
Definition isExecuted (o : Order) : bool := Status_eqb (status o) executed.

Definition getPendingOrders (s : Settings) : list Order :=
  filter isPending (orders s).

Definition getExecutedOrders (s : Settings) : list Order :=
  filter isExecuted (orders s).

(** [list.reduce((sum, o) => sum + o.amount, 0)]. *)
Definition sumAmounts (l : list Order) : Q :=
  fold_left (fun sum o => sum + amount o) l 0.

Definition calculateTotalSpent (s : Settings) : Q :=
  sumAmounts (getExecutedOrders s).

(** ** Matching *)

Definition executableAt (currentPrice : Q) (o : Order) : bool :=
  isPending o && JS.le currentPrice (targetPrice o).

Definition byTargetPrice (a b : Order) : Q := targetPrice a - targetPrice b.

Definition findExecutableOrders (currentPrice : Q) (s : Settings)
  : list Order :=
  JS.sort byTargetPrice (filter (executableAt currentPrice) (orders s)).

(** The object [{ orders, totalAmount }] of [validateBatchExecution]. *)
Module Batch.
Record t := mk { orders : list Order; totalAmount : Q }.
End Batch.

(** One turn of the [for (const order of orders)] loop, on the pair
    [(selectedOrders, runningTotal)]. *)
Definition selectStep (remainingBudget : Q) (acc : list Order * Q)
    (order : Order) : list Order * Q :=
  let '(selectedOrders, runningTotal) := acc in
  if JS.le (runningTotal + amount order) remainingBudget
  then (selectedOrders ++ [order], runningTotal + amount order)
  else (selectedOrders, runningTotal).

Definition validateBatchExecution (candidates : list Order)
    (budget spent : Q) : Batch.t :=
  let remainingBudget := budget - spent in
  let batchTotal := sumAmounts candidates in
  if JS.le batchTotal remainingBudget
  then Batch.mk candidates batchTotal
  else
    let '(selectedOrders, runningTotal) :=
      fold_left (selectStep remainingBudget) candidates ([], 0) in
    Batch.mk selectedOrders runningTotal.

(** The greedy pass as the specification words it: candidates are taken in
    the given order, and one is accepted exactly when its amount added to
    the running total stays within the remaining budget.  [greedy] is the
    selection, [greedyTotal] the running total at the end. *)
Fixpoint greedy (remaining runningTotal : Q) (l : list Order) : list Order :=
  match l with
  | [] => []
  | o :: r =>
      if JS.le (runningTotal + amount o) remaining
      then o :: greedy remaining (runningTotal + amount o) r
      else greedy remaining runningTotal r
  end.

Fixpoint greedyTotal (remaining runningTotal : Q) (l : list Order) : Q :=
  match l with
  | [] => runningTotal
  | o :: r =>
      if JS.le (runningTotal + amount o) remaining
      then greedyTotal remaining (runningTotal + amount o) r
      else greedyTotal remaining runningTotal r
  end.

(** [l1] is [l2] with some elements left out. *)
Inductive Subseq {A : Type} : list A -> list A -> Prop :=
| Subseq_nil : Subseq [] []
| Subseq_keep x l1 l2 : Subseq l1 l2 -> Subseq (x :: l1) (x :: l2)
| Subseq_skip x l1 l2 : Subseq l1 l2 -> Subseq l1 (x :: l2).


(** ** The Add Order button *)

(** What the handler did: it logged a warning (kept here without the
    price it quotes) and returned, or it added an order. *)
Inductive AddResult :=
| AddRefused (warning : string)
| Added (order : Order).

(** [!settings.maxBudget || settings.maxBudget <= 0]. *)
Definition budgetNotConfigured (s : Settings) : bool :=
  JS.le (maxBudget s) 0.

(** The click handler of [xch-btn-add-order], up to and including its call
    of [addOrder].  [currentPrice] is what [getCurrentPrice()] returns;
    the two fields are the values of [xch-new-target] and
    [xch-new-amount]. *)
Definition addOrderClicked (newId : string) (currentPrice : option Q)
    (targetField amountField : option Q) (s : Settings)
  : Settings * AddResult :=
  if budgetNotConfigured s then
    (s, AddRefused "Max Budget not configured - cannot add orders")
  else
    match targetField, amountField with
    | Some targetPriceNum, Some amountNum =>
        if JS.le targetPriceNum 0 || JS.le amountNum 0 then
          (s, AddRefused "Target price and amount must be greater than 0")
        else if JS.lt amountNum 25 then
          (s, AddRefused "Minimum order amount is $25")
        else
          match currentPrice with
          | Some price =>
              if JS.gt targetPriceNum price then
                (s, AddRefused
                      "Target price must be equal to or lower than current price")
              else
                let '(s', order) := addOrder newId targetPriceNum amountNum s in
                (s', Added order)
          | None =>
              let '(s', order) := addOrder newId targetPriceNum amountNum s in
              (s', Added order)
          end
    | _, _ => (s, AddRefused "Please enter both target price and amount")
    end.

(** The remove buttons that [renderOrders] puts in the pending table: one
    per pending order, carrying its id. *)
Definition renderedRemoveButtons (s : Settings) : list string :=
  map id (getPendingOrders s).

(** ** Script state, storage and suspended activations *)

(** The [STATE] object. *)
Record State := mkState {
  buyProcessStarted : bool;
  currentStep : nat;
  totalSpent : Q;
  ordersExecuted : nat;
  isRunning : bool;
  currentOrderIndex : option (list string)
}.

Definition STATE_initial : State :=
  {| buyProcessStarted := false; currentStep := 0%nat; totalSpent := 0;
     ordersExecuted := 0%nat; isRunning := false; currentOrderIndex := None |}.

(** [stateToSave] of [persistState], stored under [runningState].  Its
    [timestamp] is written and never read; it is left out. *)
Module Persisted.
Record t := mk {
  isRunning : bool;
  buyProcessStarted : bool;
  currentStep : nat;
  totalSpent : Q;
  ordersExecuted : nat
}.
End Persisted.

(** How an [await executeStepN()] settles: the step returns [true] or an
    error is thrown (element missing, or the wait timed out). *)
Inductive StepResult :=
| StepOk
| StepThrows (message : string).

(** The [await] an activation of [executeBatchBuyProcess] is suspended
    at: in buy step 1, 2 or 3 (with the preceding [persistState] and
    5 s pause), in an [await markOrderExecuted(...)] with the orders still
    to mark, or in the [persistState] that follows the counters.
    [saving] tells whether [markOrderExecuted] found the order and is
    itself suspended in [saveSettings], with its render still to come. *)
Inductive Suspended :=
| AtStep1
| AtStep2
| AtStep3
| Marking (saving : bool) (rest : list Order)
| Finishing.

(** The locals of an activation of [executeBatchBuyProcess]. *)
Record Execution := mkExecution {
  batch : list Order;
  executionPrice : Q;
  combinedAmount : Q;
  suspended : Suspended
}.

(** The content script in its page, with the extension storage and the
    refresh alarm of the background worker.
    - [removeButtons]: the ids on the remove buttons now in the toolbar.
    - [checks]: calls of [checkPriceAndBuy] that are due (the call that
      ends [startMonitoring], the [setTimeout]s of [init]).
    - [ticks]: activations of [checkPriceAndBuy] suspended in
      [await persistCurrentPrice], each with its sampled price.
    - [executions]: activations of [executeBatchBuyProcess] that passed
      the two entry checks. *)
Record World := mkWorld {
  settings : Settings;
  STATE : State;
  removeButtons : list string;
  checks : nat;
  ticks : list Q;
  executions : list Execution;
  storedSettings : option Settings;
  runningState : option Persisted.t;
  alarm : option Z
}.

Definition setSettings (s : Settings) (w : World) : World :=
  mkWorld s (STATE w) (removeButtons w) (checks w) (ticks w) (executions w)
          (storedSettings w) (runningState w) (alarm w).

Definition setSTATE (st : State) (w : World) : World :=
  mkWorld (settings w) st (removeButtons w) (checks w) (ticks w)
          (executions w) (storedSettings w) (runningState w) (alarm w).

Definition setChecks (n : nat) (w : World) : World :=
  mkWorld (settings w) (STATE w) (removeButtons w) n (ticks w) (executions w)
          (storedSettings w) (runningState w) (alarm w).

Definition setTicks (l : list Q) (w : World) : World :=
  mkWorld (settings w) (STATE w) (removeButtons w) (checks w) l (executions w)
          (storedSettings w) (runningState w) (alarm w).

Definition setExecutions (l : list Execution) (w : World) : World :=
  mkWorld (settings w) (STATE w) (removeButtons w) (checks w) (ticks w) l
          (storedSettings w) (runningState w) (alarm w).

Definition setAlarm (a : option Z) (w : World) : World :=
  mkWorld (settings w) (STATE w) (removeButtons w) (checks w) (ticks w)
          (executions w) (storedSettings w) (runningState w) a.

(** Assignments to fields of [STATE]. *)
Definition setRunning (b : bool) (st : State) : State :=
  mkState (buyProcessStarted st) (currentStep st) (totalSpent st)
          (ordersExecuted st) b (currentOrderIndex st).

Definition setCurrentStep (n : nat) (st : State) : State :=
  mkState (buyProcessStarted st) n (totalSpent st) (ordersExecuted st)
          (isRunning st) (currentOrderIndex st).

Definition setBuyProcessStarted (b : bool) (st : State) : State :=
  mkState b (currentStep st) (totalSpent st) (ordersExecuted st)
          (isRunning st) (currentOrderIndex st).

Definition setCurrentOrderIndex (x : option (list string)) (st : State)
  : State :=
  mkState (buyProcessStarted st) (currentStep st) (totalSpent st)
          (ordersExecuted st) (isRunning st) x.

Definition setSpent (spent : Q) (count : nat) (st : State) : State :=
  mkState (buyProcessStarted st) (currentStep st) spent count
          (isRunning st) (currentOrderIndex st).

(** [persistState()]: the snapshot is taken and the write issued when the
    function is called. *)
Definition persistState (w : World) : World :=
  let st := STATE w in
  mkWorld (settings w) st (removeButtons w) (checks w) (ticks w)
          (executions w) (storedSettings w)
          (Some (Persisted.mk (isRunning st) (buyProcessStarted st)
                   (currentStep st) (totalSpent st) (ordersExecuted st)))
          (alarm w).

Definition saveSettings (w : World) : World :=
  mkWorld (settings w) (STATE w) (removeButtons w) (checks w) (ticks w)
          (executions w) (Some (settings w)) (runningState w) (alarm w).

Definition renderOrders (w : World) : World :=
  mkWorld (settings w) (STATE w) (renderedRemoveButtons (settings w))
          (checks w) (ticks w) (executions w) (storedSettings w)
          (runningState w) (alarm w).

(** [scheduleRefresh()]: the background worker replaces the alarm. *)
Definition scheduleRefresh (w : World) : World :=
  if isRunning (STATE w)
  then setAlarm (Some (refreshInterval (settings w))) w
  else w.

Definition cancelRefresh (w : World) : World := setAlarm None w.

Definition stopMonitoring (w : World) : World :=
  cancelRefresh (persistState (setSTATE (setRunning false (STATE w)) w)).

(** [startMonitoring()]; the [checkPriceAndBuy()] on its last line is
    recorded as a call that is due. *)
Definition startMonitoring (w : World) : World :=
  if isRunning (STATE w) then w
  else if budgetNotConfigured (settings w) then w
  else
    match getPendingOrders (settings w) with
    | [] => w
    | _ :: _ =>
        let w1 := persistState (setSTATE (setRunning true (STATE w)) w) in
        setChecks (S (checks w1)) w1
    end.

(** ** The execution controller *)

(** [executeBatchBuyProcess(orders, executionPrice)] from its first line to
    its first [await]: the two entry checks, then the flag, the step and
    the ids of the batch are set and persisted.  The result is the
    activation, when one starts. *)
Definition executeBatchBuyProcess_entry (batchOrders : list Order)
    (price : Q) (w : World) : World * option Execution :=
  if negb (isRunning (STATE w)) then (w, None)
  else if buyProcessStarted (STATE w) then (w, None)
  else
    let combined := sumAmounts batchOrders in
    let orderIds := map id batchOrders in
    let st :=
      setCurrentOrderIndex (Some orderIds)
        (setCurrentStep 1 (setBuyProcessStarted true (STATE w))) in
    (persistState (setSTATE st w),
     Some (mkExecution batchOrders price combined AtStep1)).

(** The [finally] block. *)
Definition finallyBlock (w : World) : World :=
  let st :=
    setCurrentOrderIndex None
      (setCurrentStep 0 (setBuyProcessStarted false (STATE w))) in
  scheduleRefresh (persistState (setSTATE st w)).

(** [markOrderExecuted(orderId, executedPrice)] up to its [await]: when
    [find] returns an order it is updated and the settings are saved;
    otherwise nothing happens.  The boolean tells which. *)
Definition markOrderExecuted_begin (oid : string) (price : Q) (now : Z)
    (vault : option VaultOrder) (w : World) : World * bool :=
  if existsb (fun o => String.eqb (id o) oid) (orders (settings w)) then
    (saveSettings
       (setSettings (markOrderExecuted oid price now vault (settings w)) w),
     true)
  else (w, false).

(** [markOrderExecuted] after its [await]: [renderOrders()]. *)
Definition markOrderExecuted_end (saving : bool) (w : World) : World :=
  if saving then renderOrders w else w.

(** The [for (const order of orders)] loop from the order it has reached
    to the next [await]: either [markOrderExecuted] is called for the
    next order, or the loop is over and the counters are raised and
    persisted. *)
Definition markLoop (e : Execution) (rest : list Order) (now : Z)
    (vault : option VaultOrder) (w : World) : World * option Execution :=
  match rest with
  | order :: rest' =>
      let '(w1, saving) :=
        markOrderExecuted_begin (id order) (executionPrice e) now vault w in
      (w1,
       Some (mkExecution (batch e) (executionPrice e) (combinedAmount e)
               (Marking saving rest')))
  | [] =>
      let st :=
        setSpent (totalSpent (STATE w) + combinedAmount e)
                 (ordersExecuted (STATE w) + List.length (batch e))%nat
                 (STATE w) in
      (persistState (setSTATE st w),
       Some (mkExecution (batch e) (executionPrice e) (combinedAmount e)
               Finishing))
  end.

(** The activation resumes because the buy step it awaits has settled. *)
Definition stepSettled (r : StepResult) (now : Z) (vault : option VaultOrder)
    (e : Execution) (w : World) : World * option Execution :=
  match suspended e, r with
  | AtStep1, StepOk =>
      (persistState (setSTATE (setCurrentStep 2 (STATE w)) w),
       Some (mkExecution (batch e) (executionPrice e) (combinedAmount e)
               AtStep2))
  | AtStep2, StepOk =>
      (persistState (setSTATE (setCurrentStep 3 (STATE w)) w),
       Some (mkExecution (batch e) (executionPrice e) (combinedAmount e)
               AtStep3))
  | AtStep3, StepOk => markLoop e (batch e) now vault w
  | AtStep1, StepThrows _
  | AtStep2, StepThrows _
  | AtStep3, StepThrows _ => (finallyBlock w, None)
  | Marking _ _, _ | Finishing, _ => (w, Some e)
  end.

(** The activation resumes from the [await] of the loop or from the one
    after the counters: [markOrderExecuted] ends and the loop goes on, or
    the [finally] block runs. *)
Definition writeSettled (now : Z) (vault : option VaultOrder)
    (e : Execution) (w : World) : World * option Execution :=
  match suspended e with
  | Marking saving rest =>
      markLoop e rest now vault (markOrderExecuted_end saving w)
  | Finishing => (finallyBlock w, None)
  | AtStep1 | AtStep2 | AtStep3 => (w, Some e)
  end.

(** The marking loop when nothing else runs in between. *)
Definition markEach (price : Q) (now : Order -> Z)
    (vault : Order -> option VaultOrder) (l : list Order) (w : World)
  : World :=
  fold_left
    (fun w order =>
       let '(w1, saving) :=
         markOrderExecuted_begin (id order) price (now order) (vault order)
           w in
       markOrderExecuted_end saving w1)
    l w.

(** [executeBatchBuyProcess(orders, executionPrice)] from top to bottom,
    when no other handler runs while it is suspended.  [r1], [r2], [r3]
    are the outcomes of the three buy steps; [now] and [vault] are what
    [Date.now()] and [getLatestVaultOrder()] return when an order is
    marked. *)
Definition executeBatchBuyProcess (r1 r2 r3 : StepResult) (now : Order -> Z)
    (vault : Order -> option VaultOrder) (batchOrders : list Order)
    (price : Q) (w : World) : World :=
  match executeBatchBuyProcess_entry batchOrders price w with
  | (w0, None) => w0
  | (w0, Some e) =>
      match r1 with
      | StepThrows _ => finallyBlock w0
      | StepOk =>
          let w1 := persistState (setSTATE (setCurrentStep 2 (STATE w0)) w0) in
          match r2 with
          | StepThrows _ => finallyBlock w1
          | StepOk =>
              let w2 :=
                persistState (setSTATE (setCurrentStep 3 (STATE w1)) w1) in
              match r3 with
              | StepThrows _ => finallyBlock w2
              | StepOk =>
                  let w3 := markEach price now vault batchOrders w2 in
                  let st :=
                    setSpent (totalSpent (STATE w3) + combinedAmount e)
                             (ordersExecuted (STATE w3) + List.length batchOrders)%nat
                             (STATE w3) in
                  finallyBlock (persistState (setSTATE st w3))
              end
          end
      end
  end.

(** ** The monitoring loop *)

(** [checkPriceAndBuy()] up to [await persistCurrentPrice(currentPrice)];
    [price] is what [getCurrentPrice()] returns. *)
Definition checkPriceAndBuy (price : option Q) (w : World) : World :=
  if negb (isRunning (STATE w)) then w
  else if buyProcessStarted (STATE w) then w
  else if budgetNotConfigured (settings w) then stopMonitoring w
  else
    match price with
    | None => scheduleRefresh w
    | Some currentPrice => setTicks (ticks w ++ [currentPrice]) w
    end.

(** [checkPriceAndBuy()] after that [await]. *)
Definition checkPriceAndBuy_resumed (currentPrice : Q) (w : World)
  : World * option Execution :=
  match getPendingOrders (settings w) with
  | [] => (scheduleRefresh w, None)
  | _ :: _ =>
      match findExecutableOrders currentPrice (settings w) with
      | [] => (scheduleRefresh w, None)
      | (_ :: _) as executableOrders =>
          let b :=
            validateBatchExecution executableOrders (maxBudget (settings w))
              (totalSpent (STATE w)) in
          match Batch.orders b with
          | [] => (stopMonitoring w, None)
          | _ :: _ =>
              executeBatchBuyProcess_entry (Batch.orders b) currentPrice w
          end
      end
  end.

(** ** Page load *)

Definition wasRunning (r : option Persisted.t) : bool :=
  match r with Some p => Persisted.isRunning p | None => false end.

Definition wasBuying (r : option Persisted.t) : bool :=
  match r with Some p => Persisted.buyProcessStarted p | None => false end.

(** [init()] in a freshly injected script: [STATE] and [settings] have
    their initial values, no activation exists; the storage and the alarm
    are what the previous page left. *)
Definition init (onVaultPage : bool) (stored : option Settings)
    (persisted : option Persisted.t) (al : option Z) : World :=
  let fresh :=
    mkWorld DEFAULT_SETTINGS STATE_initial [] 0 [] [] stored persisted al in
  if negb onVaultPage then renderOrders fresh
  else
    let loaded :=
      match stored with Some s => s | None => DEFAULT_SETTINGS end in
    let w1 := setSettings loaded fresh in
    let st1 :=
      setSpent (calculateTotalSpent loaded)
               (List.length (getExecutedOrders loaded)) (STATE w1) in
    let st2 := if wasRunning persisted then setRunning true st1 else st1 in
    let w2 := renderOrders (setSTATE st2 w1) in
    if wasRunning persisted && negb (wasBuying persisted) then
      let w3 := persistState w2 in setChecks (S (checks w3)) w3
    else if wasBuying persisted then
      let st3 := setCurrentStep 0 (setBuyProcessStarted false (STATE w2)) in
      let w3 := persistState (setSTATE st3 w2) in
      setChecks (S (checks w3)) w3
    else w2.

(** ** Events *)

(** What can happen next in the page. *)
Inductive Event :=
| ClickStart
| ClickStop
| ClickSave (budgetField : option Q) (intervalField : option Z)
| ClickAdd (newId : string) (currentPrice : option Q)
           (targetField amountField : option Q)
| ClickRemove (oid : string)
| CheckPrice (currentPrice : option Q)
| TickResumes (i : nat)
| StepSettles (i : nat) (r : StepResult) (now : Z)
              (vault : option VaultOrder)
| WriteSettles (i : nat) (now : Z) (vault : option VaultOrder)
| Reload (onVaultPage : bool)
| AlarmFires.

(** The list without its [i]-th element. *)
Fixpoint dropAt {A : Type} (i : nat) (l : list A) : list A :=
  match l, i with
  | [], _ => []
  | _ :: r, O => r
  | x :: r, S j => x :: dropAt j r
  end.

(** The list with its [i]-th element replaced by [x], or dropped. *)
Fixpoint putAt {A : Type} (i : nat) (x : option A) (l : list A) : list A :=
  match l, i with
  | [], _ => []
  | y :: r, O => match x with Some z => z :: r | None => r end
  | y :: r, S j => y :: putAt j x r
  end.

(** The click handler of [xch-btn-save]; the interval is
    [parseInt(value) || 5]. *)
Definition saveClicked (budgetField : option Q) (intervalField : option Z)
    (w : World) : World :=
  let budget :=
    match budgetField with
    | Some budgetValue => if JS.gt budgetValue 0 then budgetValue else 0
    | None => 0
    end in
  let interval :=
    match intervalField with
    | Some n => if Z.eqb n 0 then 5%Z else n
    | None => 5%Z
    end in
  let s := mkSettings budget interval (orders (settings w)) in
  scheduleRefresh (saveSettings (setSettings s w)).

(** The click handler of [xch-btn-add-order] to its end: a new order
    restarts the monitoring when it is running. *)
Definition addClicked (newId : string) (currentPrice : option Q)
    (targetField amountField : option Q) (w : World) : World :=
  match addOrderClicked newId currentPrice targetField amountField
          (settings w) with
  | (_, AddRefused _) => w
  | (s', Added _) =>
      let w1 := renderOrders (saveSettings (setSettings s' w)) in
      if isRunning (STATE w1) then startMonitoring (stopMonitoring w1)
      else w1
  end.

(** A click on the remove button that carries [oid], when the toolbar has
    one: [removeOrder(btn.dataset.id)] with its save and render. *)
Definition removeClicked (oid : string) (w : World) : World :=
  if existsb (String.eqb oid) (removeButtons w) then
    match JS.findIndex (fun o => String.eqb (id o) oid)
            (orders (settings w)) with
    | Some _ =>
        renderOrders
          (saveSettings (setSettings (removeOrder oid (settings w)) w))
    | None => w
    end
  else w.

(** The alarm handler of the background worker: no reload while the stored
    state says a buy is in progress. *)
Definition alarmFired (w : World) : World :=
  match alarm w with
  | None => w
  | Some _ =>
      if wasBuying (runningState w) then setAlarm None w
      else init true (storedSettings w) (runningState w) None
  end.

Definition apply (ev : Event) (w : World) : World :=
  match ev with
  | ClickStart => startMonitoring w
  | ClickStop => stopMonitoring w
  | ClickSave budgetField intervalField =>
      saveClicked budgetField intervalField w
  | ClickAdd newId currentPrice targetField amountField =>
      addClicked newId currentPrice targetField amountField w
  | ClickRemove oid => removeClicked oid w
  | CheckPrice currentPrice =>
      match checks w with
      | O => w
      | S n => checkPriceAndBuy currentPrice (setChecks n w)
      end
  | TickResumes i =>
      match nth_error (ticks w) i with
      | None => w
      | Some currentPrice =>
          match checkPriceAndBuy_resumed currentPrice
                  (setTicks (dropAt i (ticks w)) w) with
          | (w', None) => w'
          | (w', Some e) => setExecutions (executions w' ++ [e]) w'
          end
      end
  | StepSettles i r now vault =>
      match nth_error (executions w) i with
      | None => w
      | Some e =>
          let '(w', k) := stepSettled r now vault e w in
          setExecutions (putAt i k (executions w')) w'
      end
  | WriteSettles i now vault =>
      match nth_error (executions w) i with
      | None => w
      | Some e =>
          let '(w', k) := writeSettled now vault e w in
          setExecutions (putAt i k (executions w')) w'
      end
  | Reload onVaultPage =>
      init onVaultPage (storedSettings w) (runningState w) (alarm w)
  | AlarmFires => alarmFired w
  end.

(** The world after the events of [evs], in order. *)
Definition run (evs : list Event) (w : World) : World :=
  fold_left (fun w ev => apply ev w) evs w.

(** The page as first loaded on the vault, over some storage. *)
Definition boot (stored : option Settings) (persisted : option Persisted.t)
  : World :=
  init true stored persisted None.

(** The events of an execution that nothing interrupts and whose three
    steps succeed: the steps settle, the first order is marked as step 3
    settles, then every resumption ends a [markOrderExecuted] and calls
    the next, the last but one raises the counters and the last runs the
    [finally] block. *)
Definition successEvents (now : Order -> Z)
    (vault : Order -> option VaultOrder) (batchOrders : list Order)
  : list Event :=
  [StepSettles 0 StepOk 0%Z None; StepSettles 0 StepOk 0%Z None] ++
  match batchOrders with
  | [] => [StepSettles 0 StepOk 0%Z None; WriteSettles 0 0%Z None]
  | order :: rest =>
      StepSettles 0 StepOk (now order) (vault order)
      :: map (fun o => WriteSettles 0 (now o) (vault o)) rest
      ++ [WriteSettles 0 0%Z None; WriteSettles 0 0%Z None]
  end.

(** The events of an execution that nothing interrupts, with the outcomes
    [r1], [r2], [r3] of its steps: a step that throws is the last
    event. *)
Definition executionEvents (r1 r2 r3 : StepResult) (now : Order -> Z)
    (vault : Order -> option VaultOrder) (batchOrders : list Order)
  : list Event :=
  match r1, r2, r3 with
  | StepThrows _, _, _ => [StepSettles 0 r1 0%Z None]
  | StepOk, StepThrows _, _ =>
      [StepSettles 0 StepOk 0%Z None; StepSettles 0 r2 0%Z None]
  | StepOk, StepOk, StepThrows _ =>
      [StepSettles 0 StepOk 0%Z None; StepSettles 0 StepOk 0%Z None;
       StepSettles 0 r3 0%Z None]
  | StepOk, StepOk, StepOk => successEvents now vault batchOrders
  end.

(** ** What is observed of an execution *)

(** The value of [STATE.currentStep] while an activation is suspended:
    the step stays 3 until the [finally] block. *)
Definition stageOf (p : Suspended) : nat :=
  match p with
  | AtStep1 => 1
  | AtStep2 => 2
  | AtStep3 | Marking _ _ | Finishing => 3
  end.

(** The activations alive, with the flag and the step of [STATE]. *)
Definition inFlight (w : World) : list Execution * bool * nat :=
  (executions w, buyProcessStarted (STATE w), currentStep (STATE w)).

(** The flag and the step agree with the activations alive, of which
    there is at most one. *)
Definition coherent (v : list Execution * bool * nat) : Prop :=
  match v with
  | ([], flag, step) => flag = false /\ step = 0%nat
  | ([e], flag, step) => flag = true /\ step = stageOf (suspended e)
  | (_ :: _ :: _, _, _) => False
  end.

(** The orders an activation has still to mark. *)
Definition toMark (e : Execution) : list Order :=
  match suspended e with
  | AtStep1 | AtStep2 | AtStep3 => batch e
  | Marking _ rest => rest
  | Finishing => []
  end.

(** The id that [generateOrderId] returns to [addOrder] is carried by no
    order of the collection. *)
Definition freshId (ev : Event) (w : World) : Prop :=
  match ev with
  | ClickAdd newId _ _ _ => ~ In newId (map id (orders (settings w)))
  | _ => True
  end.

Fixpoint freshIds (evs : list Event) (w : World) : Prop :=
  match evs with
  | [] => True
  | ev :: rest => freshId ev w /\ freshIds rest (apply ev w)
  end.

(** The collection [s], its stored copy [st] and the orders [l] still to
    mark: ids are unique in the collection and in the copy, the copy is
    the collection once there are orders, and the orders to mark have
    distinct ids and are pending where the collection has them. *)
Definition ledgerOk (s : Settings) (st : option Settings) (l : list Order)
  : Prop :=
  NoDup (map id (orders s)) /\
  (forall s0, st = Some s0 -> NoDup (map id (orders s0))) /\
  (orders s = [] \/ st = Some s) /\
  NoDup (map id l) /\
  (forall o o', In o l -> In o' (orders s) -> id o' = id o ->
                status o' = pending).

(** What holds of the collection in every run with fresh ids: the flag
    agrees with the activations, ids are unique in the collection and in
    its stored copy, the stored copy is the collection once there are
    orders, and the orders an activation has still to mark have distinct
    ids and are pending where the collection has them. *)
Definition wellKept (w : World) : Prop :=
  coherent (inFlight w) /\
  ledgerOk (settings w) (storedSettings w) [] /\
  (forall e, In e (executions w) ->
     ledgerOk (settings w) (storedSettings w) (toMark e)).

(** What [wellKept] reads besides the flag and the step. *)
Definition kept (w : World)
  : Settings * option Settings * list Execution :=
  (settings w, storedSettings w, executions w).

(** The activations alive after a piece of the only one alive. *)
Definition alive (k : option Execution) : list Execution :=
  match k with Some e => [e] | None => [] end.

(** ** How an event changes the settings *)

(** What [loadSettings] finds: the stored settings, or the defaults. *)
Definition loadedSettings (stored : option Settings) : Settings :=
  match stored with Some s => s | None => DEFAULT_SETTINGS end.

(** The ways the settings and their stored copy differ after an event:
    not at all; the settings were saved with the same orders; an order
    that passed the checks of the Add Order handler was appended and
    saved; one order was taken out and the rest saved; an activation
    alive marked the first of the orders it had still to mark, at its
    price, and the settings were saved; the page was loaded on the
    vault.  (A load elsewhere starts from the default settings.) *)
Inductive Change (w w' : World) : Prop :=
| Change_none :
    settings w' = settings w -> storedSettings w' = storedSettings w ->
    Change w w'
| Change_saved :
    orders (settings w') = orders (settings w) ->
    storedSettings w' = Some (settings w') ->
    Change w w'
| Change_added newId target amt :
    25 <= amt -> 0 < target -> 0 < maxBudget (settings w) ->
    settings w' =
      with_orders (settings w)
        (orders (settings w) ++ [newOrder newId target amt]) ->
    storedSettings w' = Some (settings w') ->
    Change w w'
| Change_removed l1 x l2 :
    orders (settings w) = l1 ++ x :: l2 ->
    settings w' = with_orders (settings w) (l1 ++ l2) ->
    storedSettings w' = Some (settings w') ->
    Change w w'
| Change_marked e o rest now vault :
    In e (executions w) -> toMark e = o :: rest ->
    settings w' =
      markOrderExecuted (id o) (executionPrice e) now vault (settings w) ->
    storedSettings w' = Some (settings w') ->
    Change w w'
| Change_loaded :
    settings w' = loadedSettings (storedSettings w) ->
    storedSettings w' = storedSettings w ->
    Change w w'.

(** The page is the vault page at every load. *)
Definition onVault (evs : list Event) : Prop :=
  Forall (fun ev => ev <> Reload false) evs.

(** An order as the Add Order handler lets it in. *)
Definition admissible (o : Order) : Prop :=
  25 <= amount o /\ 0 < targetPrice o.

(** The flags stored under [runningState] are those of [STATE]. *)
Definition mirrored (w : World) : Prop :=
  wasRunning (runningState w) = isRunning (STATE w) /\
  wasBuying (runningState w) = buyProcessStarted (STATE w).

(** ** Spending *)

(** By how much the executed orders may exceed [STATE.totalSpent] while
    an activation is alive: the part of its combined amount that is not
    for orders still to mark, until the counter is raised. *)
Definition owed (e : Execution) : Q :=
  match suspended e with
  | Finishing => 0
  | AtStep1 | AtStep2 | AtStep3 | Marking _ _ =>
      combinedAmount e - sumAmounts (toMark e)
  end.

(** An order of the collection with the id of an order of [l] is that
    order. *)
Definition sameOrder (l : list Order) (s : Settings) : Prop :=
  forall o o', In o l -> In o' (orders s) -> id o' = id o -> o' = o.

(** An activation against the collection [s] and the counter [spent]. *)
Definition capFor (e : Execution) (s : Settings) (spent : Q) : Prop :=
  combinedAmount e = sumAmounts (batch e) /\
  Forall admissible (toMark e) /\
  sameOrder (toMark e) s /\
  calculateTotalSpent s <= spent + owed e.

(** The executed orders amount to no more than the counter, up to what
    the activation alive has marked ahead of it. *)
Definition capOk (w : World) : Prop :=
  match executions w with
  | [] => calculateTotalSpent (settings w) <= totalSpent (STATE w)
  | e :: _ => capFor e (settings w) (totalSpent (STATE w))
  end.

(** The id that [generateOrderId] returns to [addOrder] is carried by no
    order of the collection and by no order that an activation has still
    to mark. *)
Definition unusedId (ev : Event) (w : World) : Prop :=
  match ev with
  | ClickAdd newId _ _ _ =>
      ~ In newId (map id (orders (settings w))) /\
      forall e, In e (executions w) -> ~ In newId (map id (toMark e))
  | _ => True
  end.

Fixpoint unusedIds (evs : list Event) (w : World) : Prop :=
  match evs with
  | [] => True
  | ev :: rest => unusedId ev w /\ unusedIds rest (apply ev w)
  end.

(** ** A click on Stop during an execution *)

(** The events in which an activation of [executeBatchBuyProcess]
    resumes. *)
Definition resumesExecution (ev : Event) : bool :=
  match ev with
  | StepSettles _ _ _ _ | WriteSettles _ _ _ => true
  | _ => false
  end.

(** [w1] is [w2] but for a click on Stop: monitoring is off, no refresh
    is scheduled, and what is stored under [runningState], the calls
    that are due and the suspended price checks may differ. *)
Definition stoppedOf (w1 w2 : World) : Prop :=
  settings w1 = settings w2 /\
  STATE w1 = setRunning false (STATE w2) /\
  removeButtons w1 = removeButtons w2 /\
  executions w1 = executions w2 /\
  storedSettings w1 = storedSettings w2 /\
  alarm w1 = None.

(** ** The search for a single order *)

(** [findExecutableOrder(currentPrice)], the search of the single-order
    process: [find] returns the first match of the collection. *)
Definition findExecutableOrder (currentPrice : Q) (s : Settings)
  : option Order :=
  find (executableAt currentPrice) (orders s).

(** ** What the popup is told *)

(** The answer of [getState] in the background worker, without the
    price it reads from the session storage. *)
Module Popup.
Record t := mk {
  settings : Settings;
  isRunning : bool;
  totalSpent : Q;
  buyProcessStarted : bool;
  ordersExecuted : nat
}.
End Popup.

(** [getState()] of the background worker: everything comes from the
    storage, and the total is summed over the executed orders stored. *)
Definition getState (w : World) : Popup.t :=
  let stored :=
    match storedSettings w with
    | Some s => s
    | None => mkSettings 0 5%Z []
    end in
  let executedOrders := filter isExecuted (orders stored) in
  Popup.mk stored (wasRunning (runningState w)) (sumAmounts executedOrders)
    (wasBuying (runningState w)) (List.length executedOrders).

(** The answer of the content script to the [GET_STATUS] message. *)
Module Status.
Record t := mk {
  isRunning : bool;
  currentPrice : option Q;
  pendingOrders : nat;
  totalSpent : Q
}.
End Status.

(** The [GET_STATUS] case of the message listener; [price] is what
    [getCurrentPrice()] returns. *)
Definition getStatus (price : option Q) (w : World) : Status.t :=
  Status.mk (isRunning (STATE w)) price
    (List.length (getPendingOrders (settings w))) (totalSpent (STATE w)).

(** ** The storage abstraction *)

(** The [Storage] object over the extension storage, for calls of the
    storage API that succeed.  An area maps a key to the value stored,
    if any; a browser may have no session area, and the session keys
    then go to the local area under a prefix.  [V] is the type of the
    values; a missing value and [null] are both [None]. *)
Module Storage.
Section Values.
Variable V : Type.

Definition Area : Type := string -> option V.

Record t := mk {
  local : Area;
  session : option Area
}.

(** [{ [key]: value }] written over an area. *)
Definition write (a : Area) (key : string) (value : V) : Area :=
  fun k => if String.eqb k key then Some value else a k.

(** [result[key] ?? defaultValue]. *)
Definition orDefault (found defaultValue : option V) : option V :=
  match found with
  | Some v => Some v
  | None => defaultValue
  end.

Definition get (key : string) (defaultValue : option V) (st : t)
  : option V :=
  orDefault (local st key) defaultValue.

Definition set (key : string) (value : V) (st : t) : t :=
  mk (write (local st) key value) (session st).

Definition getSession (key : string) (defaultValue : option V) (st : t)
  : option V :=
  match session st with
  | Some a => orDefault (a key) defaultValue
  | None => get ("_session_" ++ key) defaultValue st
  end.

Definition setSession (key : string) (value : V) (st : t) : t :=
  match session st with
  | Some a => mk (local st) (Some (write a key value))
  | None => set ("_session_" ++ key) value st
  end.

(** The two writes of [persistState()]. *)
Definition persistState (stateToSave : V) (st : t) : t :=
  setSession "state" stateToSave (set "runningState" stateToSave st).

(** [getPersistedState()]; [None] stands for the empty object that is
    the default of the second read. *)
Definition getPersistedState (st : t) : option V :=
  match get "runningState" None st with
  | Some state => Some state
  | None => getSession "state" None st
  end.
End Values.

Arguments local {V} _.
Arguments session {V} _.
Arguments write {V} a key value.
Arguments orDefault {V} found defaultValue.
Arguments get {V} key defaultValue st.
Arguments set {V} key value st.
Arguments getSession {V} key defaultValue st.
Arguments setSession {V} key value st.
Arguments persistState {V} stateToSave st.
Arguments getPersistedState {V} st.
End Storage.

(** ** The log *)

Inductive LogType :=
| LogInfo
| LogWarn
| LogError.

Module LogEntry.
Record t := mk {
  message : string;
  type : LogType
}.
End LogEntry.

(** [logEntries], the entries shown in [xch-log-container] when the
    toolbar has one, and what is stored under [logs]. *)
Record Logs := mkLogs {
  logEntries : list LogEntry.t;
  logContainer : option (list LogEntry.t);
  storedLogs : option (list LogEntry.t)
}.

(** [log(message, type)], with the message as it is once the date and
    the time are put in front. *)
Definition log (fullMessage : string) (type : LogType) (ls : Logs) : Logs :=
  let entry := LogEntry.mk fullMessage type in
  mkLogs (logEntries ls ++ [entry])
    (option_map (fun shown => shown ++ [entry]) (logContainer ls))
    (storedLogs ls).

(** [Array.prototype.slice(-n)]. *)
Definition sliceLast {A : Type} (n : nat) (l : list A) : list A :=
  skipn (List.length l - n) l.

Definition persistLogs (ls : Logs) : Logs :=
  let entries :=
    if Nat.ltb 200 (List.length (logEntries ls))
    then sliceLast 200 (logEntries ls)
    else logEntries ls in
  mkLogs entries (logContainer ls) (Some entries).

Definition loadLogs (ls : Logs) : Logs :=
  let savedLogs :=
    match storedLogs ls with Some l => l | None => [] end in
  if Nat.ltb 0 (List.length savedLogs) then
    mkLogs savedLogs
      (option_map (fun shown => shown ++ savedLogs) (logContainer ls))
      (storedLogs ls)
  else ls.

(** [clearLogs()]; [clearedMessage] is the entry it logs at its end. *)
Definition clearLogs (clearedMessage : string) (ls : Logs) : Logs :=
  log clearedMessage LogInfo
    (mkLogs [] (option_map (fun _ => []) (logContainer ls)) (Some [])).

(** The text that [saveLogs()] puts in the file, line by line. *)
Definition saveLogs (ls : Logs) : list string :=
  map LogEntry.message (logEntries ls).

(** ** Fill prices *)

(** An executed order carries a fill price that is positive and at most
    its target. *)
Definition filledOk (o : Order) : Prop :=
  status o = executed ->
  exists p, executedPrice o = Some p /\ 0 < p /\ p <= targetPrice o.

(** The price of an activation is positive and at most the target of
    every order it has still to mark. *)
Definition priceOk (e : Execution) : Prop :=
  0 < executionPrice e /\
  forall o, In o (toMark e) -> executionPrice e <= targetPrice o.

Definition fillsOk (w : World) : Prop :=
  Forall filledOk (orders (settings w)) /\
  (forall s, storedSettings w = Some s -> Forall filledOk (orders s)) /\
  Forall (fun p => 0 < p) (ticks w) /\
  Forall priceOk (executions w).

(** [getCurrentPrice()] returns [null] or a price above 0. *)
Definition sampled (ev : Event) : Prop :=
  match ev with
  | CheckPrice (Some p) => 0 < p
  | _ => True
  end.

(** The cell of the Filled Price column that [renderOrders] makes for an
    executed order: the price shown, and the target put in brackets
    after it when the fill was below the target. *)
Definition priceDisplay (o : Order) : Q * option Q :=
  match executedPrice o with
  | Some filled =>
      if negb (Qeq_bool filled 0) && JS.lt filled (targetPrice o)
      then (filled, Some (targetPrice o))
      else (targetPrice o, None)
  | None => (targetPrice o, None)
  end.

(** [order.executedPrice || order.targetPrice]. *)
Definition priceForCalc (o : Order) : Q :=
  match executedPrice o with
  | Some filled => if Qeq_bool filled 0 then targetPrice o else filled
  | None => targetPrice o
  end.

(** ** What keeps the monitoring going *)

(** Something will call [checkPriceAndBuy] again or lead to it: a call
    that is due, a price check or an execution that is suspended, or the
    refresh alarm. *)
Definition pendingWork (w : World) : Prop :=
  checks w <> 0%nat \/ ticks w <> [] \/ executions w <> [] \/
  alarm w <> None.

(** While monitoring runs there is pending work, and while it does not
    no refresh is scheduled. *)
Definition lively (w : World) : Prop :=
  (isRunning (STATE w) = true -> pendingWork w) /\
  (isRunning (STATE w) = false -> alarm w = None).

(** ** Scenarios *)

(** The three orders of the README example, in the order they were added:
    targets $3.20, $3.10 and $3.00, $100 each. *)
Definition order320 : Order := newOrder "a" (320 # 100) 100.
Definition order310 : Order := newOrder "b" (310 # 100) 100.
Definition order300 : Order := newOrder "c" (300 # 100) 100.

Definition readmeSettings (budget : Q) : Settings :=
  mkSettings budget 5%Z [order320; order310; order300].




(** The page loaded over the README orders, after a click on Start. *)
Definition readmeMonitoring (budget : Q) : World :=
  run [ClickStart] (boot (Some (readmeSettings budget)) None).

(** The events of the drift: over the README orders with $300 to spend,
    monitoring runs, the price is sampled at $2.90 and the three orders
    are handed to an execution; while it waits for step 1, the remove
    button of the $3.20 order is clicked; the three steps then succeed,
    the loop marks the two orders that are left and finds nothing for
    the third, the counters are raised and the [finally] block runs. *)
Definition removalDuringPurchase : list Event :=
  [CheckPrice (Some (290 # 100)); TickResumes 0;
   ClickRemove "a";
   StepSettles 0 StepOk 0%Z None; StepSettles 0 StepOk 0%Z None;
   StepSettles 0 StepOk 7%Z None;
   WriteSettles 0 8%Z None; WriteSettles 0 9%Z None;
   WriteSettles 0 9%Z None; WriteSettles 0 9%Z None].

(** Case analysis on every test of the goal. *)
Ltac branches :=
  repeat match goal with
         | |- context [if ?c then _ else _] => destruct c
         | |- context [match ?x with _ => _ end] => destruct x
         end.

(** * Properties *)

(** ** Numbers, arrays *)

Lemma JS_le_spec a b : JS.le a b = true <-> a <= b.
Proof. apply Qle_bool_iff. Qed.

Lemma JS_le_false a b : JS.le a b = false <-> b < a.
Proof.
  unfold JS.le. split; intro H.
  - destruct (Qlt_le_dec b a) as [L | L]; [exact L |].
    apply Qle_bool_iff in L. congruence.
  - destruct (Qle_bool a b) eqn:E; [| reflexivity].
    apply Qle_bool_iff in E. lra.
Qed.

Lemma JS_lt_spec a b : JS.lt a b = true <-> a < b.
Proof. unfold JS.lt. rewrite negb_true_iff. apply JS_le_false. Qed.

Lemma JS_lt_false a b : JS.lt a b = false <-> b <= a.
Proof. unfold JS.lt. rewrite negb_false_iff. apply JS_le_spec. Qed.

Lemma JS_gt_spec a b : JS.gt a b = true <-> b < a.
Proof. unfold JS.gt. apply JS_lt_spec. Qed.

Lemma JS_gt_false a b : JS.gt a b = false <-> a <= b.
Proof. unfold JS.gt. apply JS_lt_false. Qed.

Lemma Status_eqb_eq a b : Status_eqb a b = true <-> a = b.
Proof. destruct a, b; simpl; split; congruence. Qed.

Lemma isPending_spec o : isPending o = true <-> status o = pending.
Proof. apply Status_eqb_eq. Qed.

Lemma isExecuted_spec o : isExecuted o = true <-> status o = executed.
Proof. apply Status_eqb_eq. Qed.

Lemma isExecuted_not_pending o : isExecuted o = negb (isPending o).
Proof. unfold isExecuted, isPending. destruct (status o); reflexivity. Qed.

Lemma executableAt_spec p o :
  executableAt p o = true <-> status o = pending /\ p <= targetPrice o.
Proof.
  unfold executableAt. rewrite andb_true_iff, isPending_spec, JS_le_spec.
  tauto.
Qed.

(** ** The sort *)

Section SortByKey.
Variable A : Type.
Variable key : A -> Q.

Let compare (a b : A) : Q := key a - key b.
Let ascending (a b : A) : Prop := key a <= key b.

Lemma sort_insert_perm x l : Permutation (x :: l) (JS.sort_insert compare x l).
Proof.
  induction l as [| y r IH]; simpl.
  - apply Permutation_refl.
  - destruct (JS.le (compare x y) 0).
    + apply Permutation_refl.
    + eapply Permutation_trans; [apply perm_swap |].
      apply perm_skip, IH.
Qed.

Lemma sort_perm l : Permutation l (JS.sort compare l).
Proof.
  induction l as [| x r IH]; simpl.
  - constructor.
  - eapply Permutation_trans; [apply perm_skip, IH |].
    apply sort_insert_perm.
Qed.

Lemma sort_insert_sorted x l :
  StronglySorted ascending l ->
  StronglySorted ascending (JS.sort_insert compare x l).
Proof.
  induction 1 as [| y r Hr IH Hall]; simpl.
  - repeat constructor.
  - destruct (JS.le (compare x y) 0) eqn:E.
    + apply JS_le_spec in E. unfold compare in E.
      constructor; [constructor; assumption |].
      constructor; [unfold ascending; lra |].
      eapply Forall_impl; [| exact Hall].
      unfold ascending. intros z Hz. lra.
    + apply JS_le_false in E. unfold compare in E.
      constructor; [exact IH |].
      eapply Permutation_Forall; [apply sort_insert_perm |].
      constructor; [unfold ascending; lra | exact Hall].
Qed.

Lemma sort_sorted l : StronglySorted ascending (JS.sort compare l).
Proof.
  induction l as [| x r IH]; simpl.
  - constructor.
  - apply sort_insert_sorted, IH.
Qed.

(** Elements with one and the same key keep their order. *)
Lemma sort_insert_ties t x l :
  filter (fun a => Qeq_bool (key a) t) (JS.sort_insert compare x l) =
  filter (fun a => Qeq_bool (key a) t) (x :: l).
Proof.
  induction l as [| y r IH]; simpl.
  - reflexivity.
  - destruct (JS.le (compare x y) 0) eqn:E; [reflexivity |].
    apply JS_le_false in E. unfold compare in E.
    simpl. rewrite IH. simpl.
    destruct (Qeq_bool (key x) t) eqn:Ex; [| reflexivity].
    destruct (Qeq_bool (key y) t) eqn:Ey; [| reflexivity].
    apply Qeq_bool_iff in Ex, Ey. lra.
Qed.

Lemma sort_ties t l :
  filter (fun a => Qeq_bool (key a) t) (JS.sort compare l) =
  filter (fun a => Qeq_bool (key a) t) l.
Proof.
  induction l as [| x r IH]; simpl.
  - reflexivity.
  - rewrite sort_insert_ties. simpl. rewrite IH. reflexivity.
Qed.

End SortByKey.

(** ** Matching *)

Lemma findExecutableOrders_Permutation currentPrice s :
  Permutation (filter (executableAt currentPrice) (orders s))
    (findExecutableOrders currentPrice s).
Proof.
  unfold findExecutableOrders, byTargetPrice.
  apply (sort_perm Order targetPrice).
Qed.

Lemma findExecutableOrders_In currentPrice s o :
  In o (findExecutableOrders currentPrice s) <->
  In o (orders s) /\ status o = pending /\ currentPrice <= targetPrice o.
Proof.
  rewrite <- executableAt_spec, <- filter_In. split; intro H.
  - eapply Permutation_in;
      [apply Permutation_sym, findExecutableOrders_Permutation | exact H].
  - eapply Permutation_in; [apply findExecutableOrders_Permutation | exact H].
Qed.

(** C2. [findExecutableOrders] returns exactly the pending orders whose
    target is at or above the current price (each as often as it is in the
    collection, so none with [currentPrice > targetPrice]), in ascending
    order of [targetPrice], and the orders that share a target price come
    out in the order they have in the collection. *)
Theorem findExecutableOrders_exact_sorted_stable (currentPrice : Q)
    (s : Settings) :
  let found := findExecutableOrders currentPrice s in
  (forall o, In o found <->
             In o (orders s) /\ status o = pending /\
             currentPrice <= targetPrice o) /\
  (forall o, In o found -> ~ currentPrice > targetPrice o) /\
  Permutation (filter (executableAt currentPrice) (orders s)) found /\
  StronglySorted (fun a b => targetPrice a <= targetPrice b) found /\
  (forall t,
      filter (fun o => Qeq_bool (targetPrice o) t) found =
      filter (fun o => Qeq_bool (targetPrice o) t)
        (filter (executableAt currentPrice) (orders s))).
Proof.
  intro found. unfold found.
  split; [intro o; apply findExecutableOrders_In |].
  split.
  { intros o Ho. apply findExecutableOrders_In in Ho.
    destruct Ho as (_ & _ & Hle). intro Hgt. lra. }
  split; [apply findExecutableOrders_Permutation |].
  unfold findExecutableOrders, byTargetPrice.
  split; [apply (sort_sorted Order targetPrice) |].
  intro t. apply (sort_ties Order targetPrice).
Qed.

(** ** Batch selection *)

Lemma sumAmounts_from (l : list Order) (a : Q) :
  fold_left (fun sum o => sum + amount o) l a == a + sumAmounts l.
Proof.
  unfold sumAmounts. revert a.
  induction l as [| o r IH]; intro a; simpl.
  - lra.
  - rewrite IH. rewrite (IH (0 + amount o)). lra.
Qed.

Lemma sumAmounts_cons o l : sumAmounts (o :: l) == amount o + sumAmounts l.
Proof.
  unfold sumAmounts at 1. simpl. rewrite sumAmounts_from. lra.
Qed.

Lemma sumAmounts_app l1 l2 :
  sumAmounts (l1 ++ l2) == sumAmounts l1 + sumAmounts l2.
Proof.
  unfold sumAmounts at 1. rewrite fold_left_app.
  rewrite sumAmounts_from. reflexivity.
Qed.


(** The loop of the script computes the greedy pass. *)
Lemma selectStep_loop remaining l selected runningTotal :
  fold_left (selectStep remaining) l (selected, runningTotal) =
  (selected ++ greedy remaining runningTotal l,
   greedyTotal remaining runningTotal l).
Proof.
  revert selected runningTotal.
  induction l as [| o r IH]; intros selected runningTotal; simpl.
  - rewrite app_nil_r. reflexivity.
  - destruct (JS.le (runningTotal + amount o) remaining).
    + rewrite IH. rewrite <- app_assoc. reflexivity.
    + apply IH.
Qed.

Lemma greedy_Subseq remaining runningTotal l :
  Subseq (greedy remaining runningTotal l) l.
Proof.
  revert runningTotal.
  induction l as [| o r IH]; intro runningTotal; simpl.
  - constructor.
  - destruct (JS.le (runningTotal + amount o) remaining).
    + apply Subseq_keep, IH.
    + apply Subseq_skip, IH.
Qed.

Lemma Subseq_refl {A : Type} (l : list A) : Subseq l l.
Proof. induction l; constructor; assumption. Qed.




Lemma greedyTotal_mono remaining runningTotal l :
  Forall (fun o => 0 <= amount o) l ->
  runningTotal <= greedyTotal remaining runningTotal l.
Proof.
  intro H. revert runningTotal.
  induction H as [| o r Ho _ IH]; intro runningTotal; simpl.
  - lra.
  - destruct (JS.le (runningTotal + amount o) remaining).
    + specialize (IH (runningTotal + amount o)). lra.
    + apply IH.
Qed.

Lemma greedy_app remaining runningTotal l1 l2 :
  greedy remaining runningTotal (l1 ++ l2) =
  greedy remaining runningTotal l1 ++
  greedy remaining (greedyTotal remaining runningTotal l1) l2.
Proof.
  revert runningTotal.
  induction l1 as [| o r IH]; intro runningTotal; simpl.
  - reflexivity.
  - destruct (JS.le (runningTotal + amount o) remaining); simpl;
      rewrite IH; reflexivity.
Qed.

Lemma greedyTotal_app remaining runningTotal l1 l2 :
  greedyTotal remaining runningTotal (l1 ++ l2) =
  greedyTotal remaining (greedyTotal remaining runningTotal l1) l2.
Proof.
  revert runningTotal.
  induction l1 as [| o r IH]; intro runningTotal; simpl.
  - reflexivity.
  - destruct (JS.le (runningTotal + amount o) remaining); apply IH.
Qed.


(** With amounts that are not negative, an order accepted after one that
    was passed over is strictly smaller than the one passed over. *)
Lemma greedy_kept_after_skipped_is_smaller remaining l1 skipped l2 kept :
  Forall (fun o => 0 <= amount o) l2 ->
  JS.le (greedyTotal remaining 0 l1 + amount skipped) remaining = false ->
  JS.le (greedyTotal remaining 0 (l1 ++ skipped :: l2) + amount kept)
        remaining = true ->
  amount kept < amount skipped.
Proof.
  intros Hpos Hskip Hkeep.
  rewrite greedyTotal_app in Hkeep. simpl in Hkeep.
  rewrite Hskip in Hkeep.
  apply JS_le_false in Hskip. apply JS_le_spec in Hkeep.
  pose proof (greedyTotal_mono remaining (greedyTotal remaining 0 l1) l2 Hpos).
  lra.
Qed.

Lemma validateBatchExecution_Subseq candidates budget spent :
  Subseq (Batch.orders (validateBatchExecution candidates budget spent))
    candidates.
Proof.
  unfold validateBatchExecution.
  destruct (JS.le (sumAmounts candidates) (budget - spent)).
  - apply Subseq_refl.
  - rewrite selectStep_loop. apply greedy_Subseq.
Qed.



(** The README example: at $2.90 with $300 to spend all three orders are
    selected, lowest target first, for $300 in total. *)
Example validateBatchExecution_readme_300 :
  let candidates := findExecutableOrders (290 # 100) (readmeSettings 300) in
  candidates = [order300; order310; order320] /\
  Batch.orders (validateBatchExecution candidates 300 0) = candidates /\
  Batch.totalAmount (validateBatchExecution candidates 300 0) == 300.
Proof.
  cbv zeta. repeat split; vm_compute; reflexivity.
Qed.

(** The same orders with $250 to spend: the $3.00 and $3.10 orders are
    selected, $200 in total, and the $3.20 order is left out. *)
Example validateBatchExecution_readme_250 :
  let candidates := findExecutableOrders (290 # 100) (readmeSettings 250) in
  Batch.orders (validateBatchExecution candidates 250 0) =
    [order300; order310] /\
  Batch.totalAmount (validateBatchExecution candidates 250 0) == 200.
Proof.
  cbv zeta. repeat split; vm_compute; reflexivity.
Qed.

(** A remaining budget below zero: nothing is selected and the total, 0,
    is above the remaining budget. *)
Example validateBatchExecution_overspent :
  let b := validateBatchExecution [order300] 100 150 in
  Batch.orders b = [] /\ ~ Batch.totalAmount b <= 100 - 150.
Proof.
  cbv zeta. split; [vm_compute; reflexivity |].
  intro H. apply JS_le_spec in H. vm_compute in H. discriminate.
Qed.

(** ** The order store *)

Lemma with_orders_same s : with_orders s (orders s) = s.
Proof. destruct s; reflexivity. Qed.


(** [findIndex] stops at the first match and [splice] takes it out. *)
Lemma findIndex_Some {A : Type} (p : A -> bool) l index :
  JS.findIndex p l = Some index ->
  exists l1 x l2,
    l = l1 ++ x :: l2 /\ List.length l1 = index /\ p x = true /\
    (forall y, In y l1 -> p y = false) /\
    JS.splice1 index l = l1 ++ l2.
Proof.
  revert index. induction l as [| y r IH]; intros index H; simpl in H.
  - discriminate.
  - destruct (p y) eqn:E.
    + inversion H; subst. exists [], y, r. simpl.
      repeat split; try assumption. intros z [].
    + destruct (JS.findIndex p r) as [j |] eqn:F; simpl in H; [| discriminate].
      inversion H; subst.
      destruct (IH j eq_refl) as (l1 & x & l2 & -> & Hlen & Hx & Hl1 & Hs).
      exists (y :: l1), x, l2. simpl.
      repeat split; try assumption.
      * rewrite Hlen. reflexivity.
      * intros z [-> | Hz]; [exact E | apply Hl1, Hz].
      * rewrite Hs. reflexivity.
Qed.

Lemma fillFirst_unknown oid price now vault l :
  (forall o, In o l -> id o <> oid) ->
  fillFirst oid price now vault l = l.
Proof.
  induction l as [| o r IH]; intro H; simpl.
  - reflexivity.
  - destruct (String.eqb (id o) oid) eqn:E.
    + apply String.eqb_eq in E. exfalso. apply (H o); [left; reflexivity | exact E].
    + rewrite IH; [reflexivity |]. intros x Hx. apply H. right. exact Hx.
Qed.

Lemma fillFirst_first oid price now vault l1 o l2 :
  (forall x, In x l1 -> id x <> oid) -> id o = oid ->
  fillFirst oid price now vault (l1 ++ o :: l2) =
  l1 ++ fill price now vault o :: l2.
Proof.
  intros Hl1 Ho. induction l1 as [| y r IH]; simpl.
  - apply String.eqb_eq in Ho. rewrite Ho. reflexivity.
  - destruct (String.eqb (id y) oid) eqn:E.
    + apply String.eqb_eq in E. exfalso.
      apply (Hl1 y); [left; reflexivity | exact E].
    + rewrite IH; [reflexivity |]. intros x Hx. apply Hl1. right. exact Hx.
Qed.

(** The first order that carries a given id, when there is one. *)
Lemma first_with_id oid (l : list Order) :
  (forall o, In o l -> id o <> oid) \/
  exists l1 o l2, l = l1 ++ o :: l2 /\ id o = oid /\
                  forall x, In x l1 -> id x <> oid.
Proof.
  induction l as [| y r IH].
  - left. intros o [].
  - destruct (String.eqb (id y) oid) eqn:E.
    + apply String.eqb_eq in E. right. exists [], y, r.
      repeat split; [exact E | intros x []].
    + apply String.eqb_neq in E. destruct IH as [IH | (l1 & o & l2 & -> & Ho & Hl1)].
      * left. intros o [-> | Ho]; [exact E | apply IH, Ho].
      * right. exists (y :: l1), o, l2.
        repeat split; [exact Ho |].
        intros x [-> | Hx]; [exact E | apply Hl1, Hx].
Qed.

(** Frame properties of the monitoring switches. *)
Lemma stopMonitoring_settings w : settings (stopMonitoring w) = settings w.
Proof. reflexivity. Qed.

Lemma stopMonitoring_storedSettings w :
  storedSettings (stopMonitoring w) = storedSettings w.
Proof. reflexivity. Qed.

Lemma startMonitoring_settings w : settings (startMonitoring w) = settings w.
Proof.
  unfold startMonitoring.
  destruct (isRunning (STATE w)); [reflexivity |].
  destruct (budgetNotConfigured (settings w)); [reflexivity |].
  destruct (getPendingOrders (settings w)); reflexivity.
Qed.

Lemma startMonitoring_storedSettings w :
  storedSettings (startMonitoring w) = storedSettings w.
Proof.
  unfold startMonitoring.
  destruct (isRunning (STATE w)); [reflexivity |].
  destruct (budgetNotConfigured (settings w)); [reflexivity |].
  destruct (getPendingOrders (settings w)); reflexivity.
Qed.

Lemma getPendingOrders_add newId target amt s :
  getPendingOrders (fst (addOrder newId target amt s)) =
  getPendingOrders s ++ [newOrder newId target amt].
Proof.
  unfold getPendingOrders. simpl. rewrite filter_app. reflexivity.
Qed.

Lemma getExecutedOrders_add newId target amt s :
  getExecutedOrders (fst (addOrder newId target amt s)) =
  getExecutedOrders s.
Proof.
  unfold getExecutedOrders. simpl. rewrite filter_app. simpl.
  apply app_nil_r.
Qed.

(** C8, as the script has it.  The Add Order handler refuses, with a
    warning and with the settings untouched, an amount below 25, a target
    price of 0 or less, a target price above the price now on the page,
    and any order while no max budget is configured.  With a max budget
    configured, an amount of at least 25 and a positive target price not
    above the price on the page (or no price on the page), it appends
    exactly one order, pending, to the collection: the pending orders
    afterwards are the former ones followed by the new order, and the
    executed ones are as before.  The new settings are saved and the
    order is returned. *)
Theorem addOrderClicked_validates_then_appends (newId : string)
    (currentPrice : option Q) (target amt : Q) (s : Settings) :
  let r := addOrderClicked newId currentPrice (Some target) (Some amt) s in
  let order := newOrder newId target amt in
  (amt < 25 \/ target <= 0 \/
   (exists p, currentPrice = Some p /\ p < target) \/ maxBudget s <= 0 ->
   fst r = s /\ (exists warning, snd r = AddRefused warning) /\
   forall w, settings w = s ->
     apply (ClickAdd newId currentPrice (Some target) (Some amt)) w = w) /\
  (0 < maxBudget s -> 25 <= amt -> 0 < target ->
   (forall p, currentPrice = Some p -> target <= p) ->
   r = (with_orders s (orders s ++ [order]), Added order) /\
   status order = pending /\
   getPendingOrders (fst r) = getPendingOrders s ++ [order] /\
   getExecutedOrders (fst r) = getExecutedOrders s /\
   forall w, settings w = s ->
     let w' :=
       apply (ClickAdd newId currentPrice (Some target) (Some amt)) w in
     settings w' = fst r /\ storedSettings w' = Some (fst r)).
Proof.
  intros r order.
  split.
  - intro Hbad.
    assert (Hr : exists warning, r = (s, AddRefused warning)).
    { unfold r, addOrderClicked, budgetNotConfigured.
      destruct (JS.le (maxBudget s) 0) eqn:Eb; [eexists; reflexivity |].
      apply JS_le_false in Eb.
      destruct (JS.le target 0 || JS.le amt 0) eqn:Ez;
        [eexists; reflexivity |].
      apply orb_false_iff in Ez. destruct Ez as [Et Ea].
      apply JS_le_false in Et. apply JS_le_false in Ea.
      destruct (JS.lt amt 25) eqn:Em; [eexists; reflexivity |].
      apply JS_lt_false in Em.
      destruct Hbad as [H | [H | [(p & -> & H) | H]]]; try lra.
      destruct (JS.gt target p) eqn:Eg; [eexists; reflexivity |].
      apply JS_gt_false in Eg. lra. }
    destruct Hr as [warning Hr].
    split; [rewrite Hr; reflexivity |].
    split; [exists warning; rewrite Hr; reflexivity |].
    intros w Hw. simpl. unfold addClicked. rewrite Hw.
    fold r. rewrite Hr. reflexivity.
  - intros Hb Ha Ht Hp.
    assert (Hr : r = (with_orders s (orders s ++ [order]), Added order)).
    { unfold r, addOrderClicked, budgetNotConfigured.
      assert (Eb : JS.le (maxBudget s) 0 = false) by (apply JS_le_false; lra).
      assert (Et : JS.le target 0 = false) by (apply JS_le_false; lra).
      assert (Ea : JS.le amt 0 = false) by (apply JS_le_false; lra).
      assert (Em : JS.lt amt 25 = false) by (apply JS_lt_false; lra).
      rewrite Eb, Et, Ea, Em. simpl.
      destruct currentPrice as [p |]; [| reflexivity].
      assert (Eg : JS.gt target p = false).
      { apply JS_gt_false. apply Hp. reflexivity. }
      rewrite Eg. reflexivity. }
    split; [exact Hr |].
    split; [reflexivity |].
    rewrite Hr. simpl fst.
    split; [apply (getPendingOrders_add newId target amt s) |].
    split; [apply (getExecutedOrders_add newId target amt s) |].
    intros w Hw. simpl. unfold addClicked. rewrite Hw.
    fold r. rewrite Hr.
    match goal with
    | |- context [if ?c then _ else _] => destruct c
    end.
    + rewrite startMonitoring_settings, startMonitoring_storedSettings.
      split; reflexivity.
    + split; reflexivity.
Qed.

(** C8 as stated fails while no max budget is configured: an order of
    $100 at $3.00, with the price at $4.00, is refused and nothing is
    appended. *)
Lemma addOrderClicked_refuses_without_budget :
  let s := mkSettings 0 5%Z [] in
  25 <= 100 /\ 0 < 3 /\ 3 <= 4 /\
  addOrderClicked "n" (Some 4) (Some 3) (Some 100) s =
    (s, AddRefused "Max Budget not configured - cannot add orders") /\
  getPendingOrders
    (fst (addOrderClicked "n" (Some 4) (Some 3) (Some 100) s)) = [].
Proof.
  cbv zeta. repeat split; try lra; vm_compute; try reflexivity;
    discriminate.
Qed.

(** [addOrder] itself checks nothing: it appends whatever it is given. *)
Lemma addOrder_appends newId target amt s :
  addOrder newId target amt s =
  (with_orders s (orders s ++ [newOrder newId target amt]),
   newOrder newId target amt).
Proof. reflexivity. Qed.

(** An empty field is refused as well. *)
Lemma addOrderClicked_empty_field newId currentPrice targetField amountField s :
  targetField = None \/ amountField = None ->
  fst (addOrderClicked newId currentPrice targetField amountField s) = s.
Proof.
  intro H. unfold addOrderClicked.
  destruct (budgetNotConfigured s); [reflexivity |].
  destruct H as [-> | ->]; [reflexivity |].
  destruct targetField; reflexivity.
Qed.

(** [markOrderExecuted] raises nothing.  When no order carries the id it
    leaves the settings as they are.  Otherwise it updates the first
    order that carries the id, whatever its status: that order gets
    status [executed], the given price as [executedPrice] and the current
    time as [filledAt], and the vault order id and link when one is on
    the page; its id, target price and amount, and every other order,
    stay as they are. *)
Lemma markOrderExecuted_first_match (oid : string) (price : Q) (now : Z)
    (vault : option VaultOrder) (s : Settings) :
  let s' := markOrderExecuted oid price now vault s in
  ((forall o, In o (orders s) -> id o <> oid) -> s' = s) /\
  (forall l1 o l2,
      orders s = l1 ++ o :: l2 -> id o = oid ->
      (forall x, In x l1 -> id x <> oid) ->
      exists o',
        orders s' = l1 ++ o' :: l2 /\
        status o' = executed /\ executedPrice o' = Some price /\
        filledAt o' = Some now /\
        id o' = id o /\ targetPrice o' = targetPrice o /\
        amount o' = amount o /\
        (forall v, vault = Some v ->
           vaultOrderId o' = Some (orderId v) /\
           vaultOrderUrl o' = detailsUrl v) /\
        (vault = None ->
           vaultOrderId o' = vaultOrderId o /\
           vaultOrderUrl o' = vaultOrderUrl o)) /\
  maxBudget s' = maxBudget s /\ refreshInterval s' = refreshInterval s /\
  List.length (orders s') = List.length (orders s).
Proof.
  intro s'. unfold s', markOrderExecuted.
  split.
  { intro H. rewrite fillFirst_unknown by exact H. apply with_orders_same. }
  split.
  { intros l1 o l2 Hs Ho Hl1. exists (fill price now vault o).
    simpl. rewrite Hs. rewrite fillFirst_first by assumption.
    repeat split; try reflexivity; subst vault; reflexivity. }
  simpl. repeat split.
  destruct (first_with_id oid (orders s))
    as [H | (l1 & o & l2 & Hs & Ho & Hl1)].
  - rewrite fillFirst_unknown by exact H. reflexivity.
  - rewrite Hs. rewrite fillFirst_first by assumption.
    rewrite !length_app. reflexivity.
Qed.

(** C9 as stated fails on an order that is executed already: marking it
    again raises nothing and replaces its fill price and fill time. *)
Lemma markOrderExecuted_overwrites_executed :
  let filled := fill (290 # 100) 1%Z None order300 in
  let s := mkSettings 300 5%Z [filled] in
  let s' := markOrderExecuted "c" (350 # 100) 2%Z None s in
  status filled = executed /\
  s' <> s /\
  orders s' = [fill (350 # 100) 2%Z None order300] /\
  (forall o, In o (orders s') -> executedPrice o <> executedPrice filled) /\
  (forall o, In o (orders s') -> filledAt o <> filledAt filled).
Proof.
  cbv zeta. split; [reflexivity |].
  split; [intro H; inversion H |].
  split; [reflexivity |].
  split; intros o [<- | []]; simpl; intro H; inversion H.
Qed.



(** ** One execution at a time *)

Lemma inFlight_startMonitoring w :
  inFlight (startMonitoring w) = inFlight w.
Proof. unfold startMonitoring. branches; reflexivity. Qed.

Lemma inFlight_stopMonitoring w : inFlight (stopMonitoring w) = inFlight w.
Proof. reflexivity. Qed.

Lemma inFlight_scheduleRefresh w : inFlight (scheduleRefresh w) = inFlight w.
Proof. unfold scheduleRefresh. branches; reflexivity. Qed.

Lemma inFlight_saveClicked b i w : inFlight (saveClicked b i w) = inFlight w.
Proof. unfold saveClicked. rewrite inFlight_scheduleRefresh. reflexivity. Qed.

Lemma inFlight_addClicked newId price tf af w :
  inFlight (addClicked newId price tf af w) = inFlight w.
Proof.
  unfold addClicked.
  destruct (addOrderClicked newId price tf af (settings w)) as [s' [m | o]];
    [reflexivity |].
  match goal with
  | |- context [if ?c then _ else _] => destruct c
  end; [| reflexivity].
  rewrite inFlight_startMonitoring, inFlight_stopMonitoring. reflexivity.
Qed.

Lemma inFlight_removeClicked oid w :
  inFlight (removeClicked oid w) = inFlight w.
Proof. unfold removeClicked. branches; reflexivity. Qed.

Lemma inFlight_checkPriceAndBuy price n w :
  inFlight (checkPriceAndBuy price (setChecks n w)) = inFlight w.
Proof.
  unfold checkPriceAndBuy.
  destruct (negb (isRunning (STATE (setChecks n w)))); [reflexivity |].
  destruct (buyProcessStarted (STATE (setChecks n w))); [reflexivity |].
  destruct (budgetNotConfigured (settings (setChecks n w))); [reflexivity |].
  destruct price; [reflexivity |].
  rewrite inFlight_scheduleRefresh. reflexivity.
Qed.

Lemma coherent_init v stored persisted al :
  coherent (inFlight (init v stored persisted al)).
Proof.
  unfold init. destruct v; simpl; [| split; reflexivity].
  destruct (wasRunning persisted), (wasBuying persisted); simpl;
    split; reflexivity.
Qed.

(** The entry of an execution: it starts only when none is alive, and
    then it is the one alive. *)
Lemma entry_coherent batchOrders price w w' k :
  coherent (inFlight w) ->
  executeBatchBuyProcess_entry batchOrders price w = (w', k) ->
  match k with
  | None => w' = w
  | Some e =>
      executions w = [] /\ executions w' = [] /\
      buyProcessStarted (STATE w') = true /\
      currentStep (STATE w') = 1%nat /\ suspended e = AtStep1
  end.
Proof.
  intros Hc H. unfold executeBatchBuyProcess_entry in H.
  destruct (negb (isRunning (STATE w))).
  { inversion H; subst. reflexivity. }
  destruct (buyProcessStarted (STATE w)) eqn:Eflag.
  { inversion H; subst. reflexivity. }
  inversion H; subst. simpl.
  unfold coherent, inFlight in Hc. rewrite Eflag in Hc.
  destruct (executions w) as [| e1 [| e2 r]].
  - repeat split.
  - destruct Hc as [Hc _]. discriminate.
  - contradiction.
Qed.

Lemma checkPriceAndBuy_resumed_coherent p w w' k :
  coherent (inFlight w) ->
  checkPriceAndBuy_resumed p w = (w', k) ->
  match k with
  | None => inFlight w' = inFlight w
  | Some e =>
      executions w = [] /\ executions w' = [] /\
      buyProcessStarted (STATE w') = true /\
      currentStep (STATE w') = 1%nat /\ suspended e = AtStep1
  end.
Proof.
  intros Hc H. unfold checkPriceAndBuy_resumed in H.
  destruct (getPendingOrders (settings w)).
  { inversion H; subst. apply inFlight_scheduleRefresh. }
  destruct (findExecutableOrders p (settings w)).
  { inversion H; subst. apply inFlight_scheduleRefresh. }
  destruct (Batch.orders _).
  { inversion H; subst. reflexivity. }
  pose proof (entry_coherent _ _ _ _ _ Hc H) as He.
  destruct k; [exact He | subst; reflexivity].
Qed.

Lemma coherent_one w i e :
  coherent (inFlight w) -> nth_error (executions w) i = Some e ->
  executions w = [e] /\ i = 0%nat /\
  buyProcessStarted (STATE w) = true /\
  currentStep (STATE w) = stageOf (suspended e).
Proof.
  unfold coherent, inFlight. intros Hc Hn.
  destruct (executions w) as [| e1 [| e2 r]].
  - destruct i; discriminate.
  - destruct i as [| [| j]]; simpl in Hn; try discriminate.
    inversion Hn; subst. tauto.
  - contradiction.
Qed.

(** Marking touches the settings and their stored copy only, and what it
    does to the settings is [markOrderExecuted]. *)
Lemma markOrderExecuted_begin_frame oid price now vault w :
  let w1 := fst (markOrderExecuted_begin oid price now vault w) in
  settings w1 = markOrderExecuted oid price now vault (settings w) /\
  STATE w1 = STATE w /\ executions w1 = executions w /\
  runningState w1 = runningState w /\ alarm w1 = alarm w /\
  ticks w1 = ticks w /\ checks w1 = checks w.
Proof.
  cbv zeta. unfold markOrderExecuted_begin.
  destruct (existsb _ _) eqn:E; simpl; repeat split.
  unfold markOrderExecuted. rewrite fillFirst_unknown.
  - symmetry. apply with_orders_same.
  - intros o Ho Hid.
    assert (X : existsb (fun o => String.eqb (id o) oid)
                  (orders (settings w)) = true).
    { apply existsb_exists. exists o. split; [exact Ho |].
      apply String.eqb_eq, Hid. }
    congruence.
Qed.

Lemma markOrderExecuted_end_frame saving w :
  let w1 := markOrderExecuted_end saving w in
  settings w1 = settings w /\
  STATE w1 = STATE w /\ executions w1 = executions w /\
  runningState w1 = runningState w /\ alarm w1 = alarm w /\
  ticks w1 = ticks w /\ checks w1 = checks w /\
  storedSettings w1 = storedSettings w.
Proof. destruct saving; simpl; repeat split. Qed.

Lemma markLoop_coherent e rest now vault w w' k :
  markLoop e rest now vault w = (w', k) ->
  executions w' = executions w /\
  buyProcessStarted (STATE w') = buyProcessStarted (STATE w) /\
  currentStep (STATE w') = currentStep (STATE w) /\
  exists e', k = Some e' /\ stageOf (suspended e') = 3%nat.
Proof.
  unfold markLoop. destruct rest as [| o rest].
  - intro H; inversion H; subst; simpl.
    repeat split; eexists; split; reflexivity.
  - destruct (markOrderExecuted_begin_frame (id o) (executionPrice e) now
                vault w) as (_ & Hst & Hex & _).
    destruct (markOrderExecuted_begin (id o) (executionPrice e) now vault w)
      as [w1 saving].
    simpl in Hst, Hex. intro H; inversion H; subst.
    rewrite Hst, Hex. repeat split; eexists; split; reflexivity.
Qed.

Lemma coherent_one_alive l e flag step :
  l = [e] -> flag = true -> step = stageOf (suspended e) ->
  coherent (l, flag, step).
Proof. intros -> -> ->. split; reflexivity. Qed.

Lemma coherent_none_alive (l : list Execution) flag step :
  l = [] -> flag = false -> step = 0%nat -> coherent (l, flag, step).
Proof. intros -> -> ->. split; reflexivity. Qed.

Lemma finallyBlock_fields w :
  executions (finallyBlock w) = executions w /\
  buyProcessStarted (STATE (finallyBlock w)) = false /\
  currentStep (STATE (finallyBlock w)) = 0%nat /\
  currentOrderIndex (STATE (finallyBlock w)) = None /\
  settings (finallyBlock w) = settings w /\
  storedSettings (finallyBlock w) = storedSettings w.
Proof.
  unfold finallyBlock, scheduleRefresh. simpl.
  destruct (isRunning (STATE w)); simpl; repeat split; reflexivity.
Qed.

Lemma finallyBlock_counters w :
  isRunning (STATE (finallyBlock w)) = isRunning (STATE w) /\
  totalSpent (STATE (finallyBlock w)) = totalSpent (STATE w) /\
  ordersExecuted (STATE (finallyBlock w)) = ordersExecuted (STATE w) /\
  wasBuying (runningState (finallyBlock w)) = false.
Proof.
  unfold finallyBlock, scheduleRefresh. simpl.
  destruct (isRunning (STATE w)) eqn:E; simpl; repeat split;
    try reflexivity; auto.
Qed.

(** Every event keeps the flag, the step and the activations coherent. *)
Lemma coherent_apply ev w :
  coherent (inFlight w) -> coherent (inFlight (apply ev w)).
Proof.
  intro Hc. destruct ev; cbn [apply].
  - rewrite inFlight_startMonitoring. exact Hc.
  - exact Hc.
  - rewrite inFlight_saveClicked. exact Hc.
  - rewrite inFlight_addClicked. exact Hc.
  - rewrite inFlight_removeClicked. exact Hc.
  - destruct (checks w); [exact Hc |].
    rewrite inFlight_checkPriceAndBuy. exact Hc.
  - destruct (nth_error (ticks w) i) as [p |]; [| exact Hc].
    destruct (checkPriceAndBuy_resumed p (setTicks (dropAt i (ticks w)) w))
      as [w' k] eqn:E.
    apply checkPriceAndBuy_resumed_coherent in E; [| exact Hc].
    destruct k as [e |].
    + destruct E as (_ & E0 & Ef & Es & Ee).
      apply coherent_one_alive with e; simpl.
      * rewrite E0. reflexivity.
      * exact Ef.
      * rewrite Es, Ee. reflexivity.
    + rewrite E. exact Hc.
  - destruct (nth_error (executions w) i) as [e |] eqn:En; [| exact Hc].
    destruct (coherent_one w i e Hc En) as (Hex & -> & Hf & Hs).
    destruct (stepSettled r now vault e w) as [w' k] eqn:E.
    unfold stepSettled in E.
    destruct (finallyBlock_fields w) as (Fx & Ff & Fs & _).
    destruct (suspended e) eqn:Ep; destruct r;
      try (inversion E; subst; unfold inFlight;
           apply coherent_none_alive; simpl; rewrite ?Fx, ?Hex; auto; fail);
      try (inversion E; subst; unfold inFlight;
           eapply coherent_one_alive; simpl; rewrite ?Hex; simpl;
           [reflexivity | auto | simpl; rewrite ?Ep; auto]; fail).
    apply markLoop_coherent in E.
    destruct E as (Ex & Eflag & Estep & e' & -> & He').
    apply coherent_one_alive with e'; simpl.
    + rewrite Ex, Hex. reflexivity.
    + rewrite Eflag. exact Hf.
    + rewrite Estep, Hs, He'. reflexivity.
  - destruct (nth_error (executions w) i) as [e |] eqn:En; [| exact Hc].
    destruct (coherent_one w i e Hc En) as (Hex & -> & Hf & Hs).
    destruct (writeSettled now vault e w) as [w' k] eqn:E.
    unfold writeSettled in E.
    destruct (finallyBlock_fields w) as (Fx & Ff & Fs & _).
    destruct (suspended e) eqn:Ep;
      try (inversion E; subst; unfold inFlight;
           apply coherent_none_alive; simpl; rewrite ?Fx, ?Hex; auto; fail);
      try (inversion E; subst; unfold inFlight;
           eapply coherent_one_alive; simpl; rewrite ?Hex; simpl;
           [reflexivity | auto | simpl; rewrite ?Ep; auto]; fail).
    apply markLoop_coherent in E.
    destruct (markOrderExecuted_end_frame saving w) as (_ & Mst & Mex & _).
    destruct E as (Ex & Eflag & Estep & e' & -> & He').
    apply coherent_one_alive with e'; simpl.
    + rewrite Ex, Mex, Hex. reflexivity.
    + rewrite Eflag, Mst. exact Hf.
    + rewrite Estep, Mst, Hs, He'. reflexivity.
  - apply coherent_init.
  - unfold alarmFired. destruct (alarm w); [| exact Hc].
    destruct (wasBuying (runningState w)); [exact Hc |].
    apply coherent_init.
Qed.

Lemma coherent_run evs w :
  coherent (inFlight w) -> coherent (inFlight (run evs w)).
Proof.
  revert w. induction evs as [| ev evs IH]; intros w Hc; simpl.
  - exact Hc.
  - apply IH, coherent_apply, Hc.
Qed.

(** C7. Whatever the page was loaded from and whatever events follow, in
    whatever order (clicks on Start, Stop, Save, Add and the remove
    buttons, price checks that fall due, resumptions of suspended price
    checks and of the execution, reloads, the alarm), at most one
    activation of [executeBatchBuyProcess] is past its entry checks; one
    is alive exactly when [buyProcessStarted] is set, and [currentStep]
    is then its step.  While the flag is set, a price check returns at
    its second line and the entry of [executeBatchBuyProcess] starts
    nothing. *)
Theorem at_most_one_execution_in_flight (onVaultPage : bool)
    (stored : option Settings) (persisted : option Persisted.t)
    (al : option Z) (evs : list Event) :
  let w := run evs (init onVaultPage stored persisted al) in
  (List.length (executions w) <= 1)%nat /\
  (executions w = [] <-> buyProcessStarted (STATE w) = false) /\
  (forall e, In e (executions w) ->
             currentStep (STATE w) = stageOf (suspended e)) /\
  (buyProcessStarted (STATE w) = true ->
   (forall price, checkPriceAndBuy price w = w) /\
   (forall batchOrders price,
       executeBatchBuyProcess_entry batchOrders price w = (w, None))).
Proof.
  intro w.
  assert (Hc : coherent (inFlight w)).
  { unfold w. apply coherent_run, coherent_init. }
  unfold coherent, inFlight in Hc.
  split; [| split; [| split]].
  - destruct (executions w) as [| e1 [| e2 r]]; simpl;
      [lia | lia | contradiction].
  - destruct (executions w) as [| e1 [| e2 r]].
    + destruct Hc as [Hc _]. split; auto.
    + destruct Hc as [Hc _]. rewrite Hc. split; discriminate.
    + contradiction.
  - intros e He. destruct (executions w) as [| e1 [| e2 r]].
    + destruct He.
    + destruct He as [<- | []]. apply Hc.
    + contradiction.
  - intro Hf. split.
    + intro price. unfold checkPriceAndBuy. rewrite Hf.
      destruct (negb (isRunning (STATE w))); reflexivity.
    + intros batchOrders price. unfold executeBatchBuyProcess_entry.
      rewrite Hf. destruct (negb (isRunning (STATE w))); reflexivity.
Qed.

(** ** A failed execution *)

Lemma entry_started batchOrders price w :
  isRunning (STATE w) = true -> buyProcessStarted (STATE w) = false ->
  executeBatchBuyProcess_entry batchOrders price w =
  (persistState
     (setSTATE
        (setCurrentOrderIndex (Some (map id batchOrders))
           (setCurrentStep 1 (setBuyProcessStarted true (STATE w)))) w),
   Some (mkExecution batchOrders price (sumAmounts batchOrders) AtStep1)).
Proof.
  intros Hr Hf. unfold executeBatchBuyProcess_entry. rewrite Hr, Hf.
  reflexivity.
Qed.

(** What the next price check does depends on the settings, the running
    flag, the in-flight flag and the counter only. *)
Lemma checkPriceAndBuy_resumed_same p w w' :
  settings w' = settings w ->
  isRunning (STATE w') = isRunning (STATE w) ->
  buyProcessStarted (STATE w') = buyProcessStarted (STATE w) ->
  totalSpent (STATE w') = totalSpent (STATE w) ->
  snd (checkPriceAndBuy_resumed p w') = snd (checkPriceAndBuy_resumed p w).
Proof.
  intros Hs Hr Hf Ht. unfold checkPriceAndBuy_resumed.
  rewrite Hs, Ht.
  destruct (getPendingOrders (settings w)); [reflexivity |].
  destruct (findExecutableOrders p (settings w)); [reflexivity |].
  destruct (Batch.orders _); [reflexivity |].
  unfold executeBatchBuyProcess_entry. rewrite Hr, Hf.
  destruct (negb (isRunning (STATE w))); [reflexivity |].
  destruct (buyProcessStarted (STATE w)); reflexivity.
Qed.

(** C5. An execution that has started and whose step 1, 2 or 3 throws
    (element missing, timeout, refusal) changes no order: the settings
    and the stored settings are as before, so every order of the batch
    that was pending is pending; the in-flight flag, the step and the
    ids of the batch are cleared, in [STATE] and in the persisted state;
    the counters are as before; and the next price check finds the same
    executable orders and starts what it would have started before. *)
Theorem failed_batch_is_all_or_nothing (r1 r2 r3 : StepResult)
    (now : Order -> Z) (vault : Order -> option VaultOrder)
    (batchOrders : list Order) (price : Q) (w : World) :
  isRunning (STATE w) = true ->
  buyProcessStarted (STATE w) = false ->
  r1 <> StepOk \/ r2 <> StepOk \/ r3 <> StepOk ->
  let w' := executeBatchBuyProcess r1 r2 r3 now vault batchOrders price w in
  settings w' = settings w /\
  storedSettings w' = storedSettings w /\
  (forall o, In o batchOrders -> In o (getPendingOrders (settings w)) ->
             In o (getPendingOrders (settings w'))) /\
  buyProcessStarted (STATE w') = false /\
  currentStep (STATE w') = 0%nat /\
  currentOrderIndex (STATE w') = None /\
  wasBuying (runningState w') = false /\
  totalSpent (STATE w') = totalSpent (STATE w) /\
  ordersExecuted (STATE w') = ordersExecuted (STATE w) /\
  isRunning (STATE w') = true /\
  executions w' = executions w /\
  (forall p, findExecutableOrders p (settings w') =
             findExecutableOrders p (settings w)) /\
  (forall p, snd (checkPriceAndBuy_resumed p w') =
             snd (checkPriceAndBuy_resumed p w)).
Proof.
  intros Hr Hf Hfail w'.
  assert (H : settings w' = settings w /\
              storedSettings w' = storedSettings w /\
              buyProcessStarted (STATE w') = false /\
              currentStep (STATE w') = 0%nat /\
              currentOrderIndex (STATE w') = None /\
              wasBuying (runningState w') = false /\
              totalSpent (STATE w') = totalSpent (STATE w) /\
              ordersExecuted (STATE w') = ordersExecuted (STATE w) /\
              isRunning (STATE w') = true /\
              executions w' = executions w).
  { unfold w', executeBatchBuyProcess.
    rewrite (entry_started batchOrders price w Hr Hf).
    destruct r1 as [| m1].
    - destruct r2 as [| m2].
      + destruct r3 as [| m3].
        * exfalso. destruct Hfail as [H | [H | H]]; apply H; reflexivity.
        * unfold finallyBlock, scheduleRefresh. simpl. rewrite Hr. simpl.
          repeat split; try reflexivity; exact Hr.
      + unfold finallyBlock, scheduleRefresh. simpl. rewrite Hr. simpl.
        repeat split; try reflexivity; exact Hr.
    - unfold finallyBlock, scheduleRefresh. simpl. rewrite Hr. simpl.
      repeat split; try reflexivity; exact Hr. }
  destruct H as (Hs & Hst & Hflag & Hstep & Hidx & Hp & Ht & Hn & Hrun & Hex).
  repeat split; try assumption.
  - intros o _ Ho. rewrite Hs. exact Ho.
  - intro p. rewrite Hs. reflexivity.
  - intro p. apply checkPriceAndBuy_resumed_same; congruence.
Qed.

(** The README batch, whose step 2 times out. *)
Lemma failed_batch_is_all_or_nothing_readme :
  let w := readmeMonitoring 300 in
  let w' :=
    executeBatchBuyProcess StepOk (StepThrows "Timeout") StepOk
      (fun _ => 0%Z) (fun _ => None)
      [order300; order310; order320] (290 # 100) w in
  settings w' = settings w /\
  storedSettings w' = storedSettings w /\
  (forall o, In o [order300; order310; order320] ->
             In o (getPendingOrders (settings w)) ->
             In o (getPendingOrders (settings w'))) /\
  buyProcessStarted (STATE w') = false /\
  currentStep (STATE w') = 0%nat /\
  currentOrderIndex (STATE w') = None /\
  wasBuying (runningState w') = false /\
  totalSpent (STATE w') = totalSpent (STATE w) /\
  ordersExecuted (STATE w') = ordersExecuted (STATE w) /\
  isRunning (STATE w') = true /\
  executions w' = executions w /\
  (forall p, findExecutableOrders p (settings w') =
             findExecutableOrders p (settings w)) /\
  (forall p, snd (checkPriceAndBuy_resumed p w') =
             snd (checkPriceAndBuy_resumed p w)).
Proof.
  apply (failed_batch_is_all_or_nothing StepOk (StepThrows "Timeout") StepOk
           (fun _ => 0%Z) (fun _ => None)
           [order300; order310; order320] (290 # 100)
           (readmeMonitoring 300)).
  - reflexivity.
  - reflexivity.
  - right. left. discriminate.
Defined.

(** In an interleaving too, the pieces of an execution that fails touch
    no order: the entry and the steps leave the settings alone, and the
    step that throws ends the activation with the flag and step
    cleared. *)
Lemma failing_pieces_keep_settings batchOrders price message now vault e w :
  settings (fst (executeBatchBuyProcess_entry batchOrders price w)) =
    settings w /\
  (suspended e = AtStep1 \/ suspended e = AtStep2 ->
   settings (fst (stepSettled StepOk now vault e w)) = settings w) /\
  (suspended e = AtStep1 \/ suspended e = AtStep2 \/ suspended e = AtStep3 ->
   let w' := fst (stepSettled (StepThrows message) now vault e w) in
   snd (stepSettled (StepThrows message) now vault e w) = None /\
   settings w' = settings w /\
   buyProcessStarted (STATE w') = false /\
   currentStep (STATE w') = 0%nat /\
   wasBuying (runningState w') = false).
Proof.
  split; [| split].
  - unfold executeBatchBuyProcess_entry. branches; reflexivity.
  - unfold stepSettled. intros [-> | ->]; reflexivity.
  - unfold stepSettled, finallyBlock, scheduleRefresh.
    intros [-> | [-> | ->]]; simpl;
      destruct (isRunning (STATE w)); simpl; repeat split; reflexivity.
Qed.

(** ** A successful execution *)

Lemma Subseq_In {A : Type} (l1 l2 : list A) x :
  Subseq l1 l2 -> In x l1 -> In x l2.
Proof.
  induction 1 as [| y l1 l2 _ IH | y l1 l2 _ IH]; intro H.
  - exact H.
  - destruct H as [-> | H]; [left; reflexivity | right; apply IH, H].
  - right. apply IH, H.
Qed.

Section Marking.
Variable price : Q.
Variable now : Order -> Z.
Variable vault : Order -> option VaultOrder.

(** What marking [order] does to the object [y] it finds. *)
Let filled (order y : Order) : Order :=
  fill price (now order) (vault order) y.



Lemma fillFirst_unique oid p n v l :
  NoDup (map id l) ->
  fillFirst oid p n v l =
  map (fun y => if String.eqb (id y) oid then fill p n v y else y) l.
Proof.
  induction l as [| o r IH]; intro Hnd; simpl.
  - reflexivity.
  - inversion Hnd as [| ? ? Hnotin Hnd']; subst.
    destruct (String.eqb (id o) oid) eqn:E.
    + f_equal. apply String.eqb_eq in E. subst oid.
      clear IH Hnd Hnd'. induction r as [| z r IH]; [reflexivity |].
      simpl. destruct (String.eqb (id z) (id o)) eqn:Ez.
      * apply String.eqb_eq in Ez. exfalso. apply Hnotin. left. exact Ez.
      * f_equal. apply IH. intro H. apply Hnotin. right. exact H.
    + f_equal. apply IH, Hnd'.
Qed.

Lemma markEach_frame l w :
  STATE (markEach price now vault l w) = STATE w /\
  executions (markEach price now vault l w) = executions w /\
  runningState (markEach price now vault l w) = runningState w /\
  alarm (markEach price now vault l w) = alarm w /\
  maxBudget (settings (markEach price now vault l w)) =
    maxBudget (settings w).
Proof.
  revert w. induction l as [| o r IH]; intro w.
  - repeat split.
  - unfold markEach in *. simpl.
    destruct (markOrderExecuted_begin_frame (id o) price (now o) (vault o) w)
      as (B1 & B2 & B3 & B4 & B5 & _).
    destruct (markOrderExecuted_begin (id o) price (now o) (vault o) w)
      as [w1 saving].
    simpl in B1, B2, B3, B4, B5.
    destruct (markOrderExecuted_end_frame saving w1)
      as (E1 & E2 & E3 & E4 & E5 & _).
    destruct (IH (markOrderExecuted_end saving w1))
      as (H1 & H2 & H3 & H4 & H5).
    rewrite H1, H2, H3, H4, H5, E1, E2, E3, E4, E5, B1, B2, B3, B4, B5.
    repeat split.
Qed.

(** The settings after the loop are those after the calls of
    [markOrderExecuted] on the settings. *)
Lemma markEach_settings l w :
  settings (markEach price now vault l w) =
  fold_left
    (fun s order =>
       markOrderExecuted (id order) price (now order) (vault order) s)
    l (settings w).
Proof.
  revert w. induction l as [| o r IH]; intro w.
  - reflexivity.
  - unfold markEach in *. simpl.
    destruct (markOrderExecuted_begin_frame (id o) price (now o) (vault o) w)
      as (B1 & _).
    destruct (markOrderExecuted_begin (id o) price (now o) (vault o) w)
      as [w1 saving].
    simpl in B1.
    destruct (markOrderExecuted_end_frame saving w1) as (E1 & _).
    rewrite IH, E1, B1. reflexivity.
Qed.






Lemma unique_by_id (l : list Order) a b :
  NoDup (map id l) -> In a l -> In b l -> id a = id b -> a = b.
Proof.
  induction l as [| o r IH]; intros Hnd Ha Hb Hid; [destruct Ha |].
  inversion Hnd as [| ? ? Hnotin Hnd']; subst.
  destruct Ha as [-> | Ha], Hb as [-> | Hb].
  - reflexivity.
  - exfalso. apply Hnotin. rewrite Hid. apply in_map, Hb.
  - exfalso. apply Hnotin. rewrite <- Hid. apply in_map, Ha.
  - apply IH; assumption.
Qed.


End Marking.

(** What the price check hands to the execution is made of pending orders
    of the collection whose target is at or above the sampled price. *)
Lemma selected_orders_executable price s spent o :
  In o (Batch.orders
          (validateBatchExecution (findExecutableOrders price s)
             (maxBudget s) spent)) ->
  In o (orders s) /\ status o = pending /\ price <= targetPrice o.
Proof.
  intro H.
  apply (Subseq_In _ _ _ (validateBatchExecution_Subseq _ _ _)) in H.
  apply findExecutableOrders_In, H.
Qed.

(** The whole of a successful execution, when nothing else runs in
    between. *)
Lemma executeBatchBuyProcess_success now vault batchOrders price w :
  isRunning (STATE w) = true -> buyProcessStarted (STATE w) = false ->
  let w3 := markEach price now vault batchOrders w in
  let w' :=
    executeBatchBuyProcess StepOk StepOk StepOk now vault batchOrders
      price w in
  settings w' = settings w3 /\
  buyProcessStarted (STATE w') = false /\
  currentStep (STATE w') = 0%nat /\
  currentOrderIndex (STATE w') = None /\
  wasBuying (runningState w') = false /\
  isRunning (STATE w') = true /\
  totalSpent (STATE w') = totalSpent (STATE w) + sumAmounts batchOrders /\
  ordersExecuted (STATE w') =
    (ordersExecuted (STATE w) + List.length batchOrders)%nat.
Proof.
  intros Hr Hf w3 w'. unfold w', executeBatchBuyProcess.
  rewrite (entry_started batchOrders price w Hr Hf).
  cbv zeta.
  match goal with
  | |- context [markEach price now vault batchOrders ?x] => set (w2 := x)
  end.
  destruct (markEach_frame price now vault batchOrders w2)
    as (Hst & _ & _ & _ & _).
  assert (Hset : settings (markEach price now vault batchOrders w2) =
                 settings w3).
  { unfold w3. rewrite !markEach_settings. reflexivity. }
  match goal with
  | |- context [finallyBlock ?x] => set (w4 := x)
  end.
  destruct (finallyBlock_fields w4) as (_ & Ff & Fs & Fi & Fset & _).
  destruct (finallyBlock_counters w4) as (Fr & Ft & Fn & Fp).
  rewrite Ff, Fs, Fi, Fset, Fr, Ft, Fn, Fp.
  unfold w4. simpl. rewrite Hst. unfold w2. simpl.
  repeat split; try reflexivity; assumption.
Qed.



Example successful_batch_readme_orders :
  let w := readmeMonitoring 300 in
  let b :=
    validateBatchExecution (findExecutableOrders (290 # 100) (settings w))
      (maxBudget (settings w)) (totalSpent (STATE w)) in
  let w' :=
    executeBatchBuyProcess StepOk StepOk StepOk (fun _ => 7%Z)
      (fun _ => None) (Batch.orders b) (290 # 100) w in
  Batch.orders b = [order300; order310; order320] /\
  orders (settings w') =
    [fill (290 # 100) 7%Z None order320;
     fill (290 # 100) 7%Z None order310;
     fill (290 # 100) 7%Z None order300] /\
  map executedPrice (orders (settings w')) =
    [Some (290 # 100); Some (290 # 100); Some (290 # 100)] /\
  totalSpent (STATE w') == 300 /\
  calculateTotalSpent (settings w') == 300.
Proof.
  cbv zeta. repeat split; vm_compute; reflexivity.
Qed.

(** ** Page load after an interruption *)



(** ** The spent counter *)

(** [calculateTotalSpent] is the sum over the executed orders, and [init]
    sets the counter of [STATE] to it. *)
Lemma calculateTotalSpent_derived s :
  calculateTotalSpent s = sumAmounts (filter isExecuted (orders s)).
Proof. reflexivity. Qed.


(** C3 fails on the script.  After [removalDuringPurchase] no execution is
    alive, two orders are executed for $200 in all, which is what
    [calculateTotalSpent] returns, and [STATE.totalSpent] is $300: the
    counter was raised by the combined amount of the batch, the removed
    order included.  The budget check reads the counter: a new $100
    order at $2.90, which fits the $300 budget, is refused by the next
    price check with nothing selected, and monitoring stops.  A reload
    sets the counter to the derived sum again. *)
Theorem totalSpent_counter_drifts :
  let w := run removalDuringPurchase (readmeMonitoring 300) in
  executions w = [] /\ buyProcessStarted (STATE w) = false /\
  map status (orders (settings w)) = [executed; executed] /\
  sumAmounts (getExecutedOrders (settings w)) == 200 /\
  calculateTotalSpent (settings w) == 200 /\
  totalSpent (STATE w) == 300 /\
  ~ totalSpent (STATE w) == sumAmounts (getExecutedOrders (settings w)) /\
  (let w1 :=
     run [ClickAdd "d" (Some (290 # 100)) (Some (290 # 100)) (Some 100);
          CheckPrice (Some (290 # 100)); TickResumes 0] w in
   map status (orders (settings w1)) = [executed; executed; pending] /\
   calculateTotalSpent (settings w1) + 100 <= maxBudget (settings w1) /\
   Batch.orders
     (validateBatchExecution
        (findExecutableOrders (290 # 100) (settings w1))
        (maxBudget (settings w1)) (totalSpent (STATE w1))) = [] /\
   executions w1 = [] /\ isRunning (STATE w1) = false) /\
  totalSpent (STATE (apply (Reload true) w)) == 200.
Proof.
  cbv zeta.
  split; [vm_compute; reflexivity |].
  split; [vm_compute; reflexivity |].
  split; [vm_compute; reflexivity |].
  split; [vm_compute; reflexivity |].
  split; [vm_compute; reflexivity |].
  split; [vm_compute; reflexivity |].
  split; [intro H; vm_compute in H; discriminate |].
  split.
  - split; [vm_compute; reflexivity |].
    split; [apply JS_le_spec; vm_compute; reflexivity |].
    split; vm_compute; auto.
  - vm_compute. reflexivity.
Qed.

(** *** The counter in an execution that nothing interrupts *)

Lemma fillFirst_ids oid price now vault l :
  map id (fillFirst oid price now vault l) = map id l.
Proof.
  induction l as [| o r IH]; simpl; [reflexivity |].
  destruct (String.eqb (id o) oid); simpl; [reflexivity |].
  rewrite IH. reflexivity.
Qed.

Lemma fillFirst_keeps_others oid price now vault l x :
  In x l -> id x <> oid -> In x (fillFirst oid price now vault l).
Proof.
  induction l as [| o r IH]; intros Hin Hid; [destruct Hin |].
  simpl. destruct (String.eqb (id o) oid) eqn:E.
  - destruct Hin as [-> | Hin].
    + apply String.eqb_eq in E. contradiction.
    + right. exact Hin.
  - destruct Hin as [-> | Hin]; [left; reflexivity | right].
    apply IH; assumption.
Qed.

(** Marking one pending order of the collection raises the derived sum by
    its amount. *)
Lemma calculateTotalSpent_mark_pending o price now vault s :
  NoDup (map id (orders s)) -> In o (orders s) -> status o = pending ->
  calculateTotalSpent (markOrderExecuted (id o) price now vault s) ==
  calculateTotalSpent s + amount o.
Proof.
  intros Hnd Hin Hp.
  destruct (in_split _ _ Hin) as (l1 & l2 & Hs).
  assert (Hl1 : forall x, In x l1 -> id x <> id o).
  { intros x Hx Hid. rewrite Hs, map_app in Hnd. simpl in Hnd.
    apply NoDup_remove_2 in Hnd. apply Hnd. apply in_or_app. left.
    rewrite <- Hid. apply in_map, Hx. }
  unfold calculateTotalSpent, getExecutedOrders, markOrderExecuted. simpl.
  rewrite Hs. rewrite fillFirst_first by (auto || reflexivity).
  rewrite !filter_app. simpl.
  rewrite isExecuted_not_pending.
  apply isPending_spec in Hp. rewrite Hp. simpl.
  rewrite !sumAmounts_app, sumAmounts_cons. simpl. lra.
Qed.

Lemma calculateTotalSpent_mark_all price now vault l s :
  NoDup (map id (orders s)) -> NoDup (map id l) ->
  (forall x, In x l -> In x (orders s) /\ status x = pending) ->
  calculateTotalSpent
    (fold_left
       (fun s order =>
          markOrderExecuted (id order) price (now order) (vault order) s)
       l s) ==
  calculateTotalSpent s + sumAmounts l.
Proof.
  revert s. induction l as [| o r IH]; intros s Hnd Hl Hin.
  - simpl. unfold sumAmounts. simpl. lra.
  - simpl. inversion Hl as [| ? ? Hnotin Hr]; subst.
    destruct (Hin o (or_introl eq_refl)) as [Ho Hp].
    rewrite IH.
    + rewrite calculateTotalSpent_mark_pending by assumption.
      rewrite sumAmounts_cons. lra.
    + simpl. rewrite fillFirst_ids. exact Hnd.
    + exact Hr.
    + intros x Hx. destruct (Hin x (or_intror Hx)) as [Hxo Hxp].
      split; [| exact Hxp]. simpl.
      apply fillFirst_keeps_others; [exact Hxo |].
      intro Hid. apply Hnotin. rewrite <- Hid. apply in_map, Hx.
Qed.

Lemma NoDup_ids_filter (f : Order -> bool) l :
  NoDup (map id l) -> NoDup (map id (filter f l)).
Proof.
  induction l as [| o r IH]; intro H; simpl; [constructor |].
  inversion H as [| ? ? Hnotin Hr]; subst.
  destruct (f o); simpl; [| apply IH, Hr].
  constructor; [| apply IH, Hr].
  intro Hin. apply Hnotin. apply in_map_iff in Hin.
  destruct Hin as (x & Hx & Hxin). apply filter_In in Hxin.
  rewrite <- Hx. apply in_map. apply Hxin.
Qed.

Lemma NoDup_ids_Subseq (l1 l2 : list Order) :
  Subseq l1 l2 -> NoDup (map id l2) -> NoDup (map id l1).
Proof.
  induction 1 as [| x l1 l2 Hs IH | x l1 l2 Hs IH]; intro H; simpl in *.
  - constructor.
  - inversion H as [| ? ? Hnotin Hr]; subst.
    constructor; [| apply IH, Hr].
    intro Hin. apply Hnotin. apply in_map_iff in Hin.
    destruct Hin as (y & Hy & Hyin). rewrite <- Hy. apply in_map.
    apply (Subseq_In _ _ _ Hs), Hyin.
  - inversion H; subst. apply IH. assumption.
Qed.

(** What a price check selects has unique ids when the collection has. *)
Lemma selected_orders_unique price s spent :
  NoDup (map id (orders s)) ->
  NoDup (map id
           (Batch.orders
              (validateBatchExecution (findExecutableOrders price s)
                 (maxBudget s) spent))).
Proof.
  intro Hnd.
  apply (NoDup_ids_Subseq _ _ (validateBatchExecution_Subseq _ _ _)).
  eapply Permutation_NoDup;
    [apply Permutation_map, findExecutableOrders_Permutation |].
  apply NoDup_ids_filter, Hnd.
Qed.

(** When no other handler runs during a successful execution and ids are
    unique, a counter that equals the derived sum before equals it
    after. *)
Lemma uninterrupted_batch_keeps_counter_derived now vault price w :
  isRunning (STATE w) = true ->
  buyProcessStarted (STATE w) = false ->
  NoDup (map id (orders (settings w))) ->
  totalSpent (STATE w) == calculateTotalSpent (settings w) ->
  let b :=
    validateBatchExecution (findExecutableOrders price (settings w))
      (maxBudget (settings w)) (totalSpent (STATE w)) in
  let w' :=
    executeBatchBuyProcess StepOk StepOk StepOk now vault (Batch.orders b)
      price w in
  totalSpent (STATE w') == calculateTotalSpent (settings w').
Proof.
  intros Hr Hf Hnd Heq b w'.
  destruct (executeBatchBuyProcess_success now vault (Batch.orders b) price w
              Hr Hf) as (Hs & _ & _ & _ & _ & _ & Ht & _).
  fold w' in Hs, Ht. rewrite Ht, Hs, markEach_settings.
  rewrite calculateTotalSpent_mark_all.
  - rewrite Heq. reflexivity.
  - exact Hnd.
  - apply selected_orders_unique, Hnd.
  - intros x Hx.
    destruct (selected_orders_executable _ _ _ _ Hx) as (H1 & H2 & _).
    split; assumption.
Qed.

(** ** The execution as a run of its pieces *)

Lemma setExecutions_twice l l' w :
  setExecutions l (setExecutions l' w) = setExecutions l w.
Proof. reflexivity. Qed.

Lemma setExecutions_same l w : executions w = l -> setExecutions l w = w.
Proof. destruct w; simpl; intros <-; reflexivity. Qed.

(** The pieces of an execution do not look at the activations alive. *)
Lemma finallyBlock_blind l w :
  finallyBlock (setExecutions l w) = setExecutions l (finallyBlock w).
Proof.
  unfold finallyBlock, scheduleRefresh. simpl.
  destruct (isRunning (STATE w)); reflexivity.
Qed.

Lemma markOrderExecuted_begin_blind oid price now vault l w :
  markOrderExecuted_begin oid price now vault (setExecutions l w) =
  (setExecutions l (fst (markOrderExecuted_begin oid price now vault w)),
   snd (markOrderExecuted_begin oid price now vault w)).
Proof.
  unfold markOrderExecuted_begin. simpl.
  destruct (existsb _ _); reflexivity.
Qed.

Lemma markOrderExecuted_end_blind saving l w :
  markOrderExecuted_end saving (setExecutions l w) =
  setExecutions l (markOrderExecuted_end saving w).
Proof. destruct saving; reflexivity. Qed.

Lemma markLoop_blind e rest now vault l w :
  markLoop e rest now vault (setExecutions l w) =
  (setExecutions l (fst (markLoop e rest now vault w)),
   snd (markLoop e rest now vault w)).
Proof.
  unfold markLoop. destruct rest as [| o r]; [reflexivity |].
  rewrite markOrderExecuted_begin_blind.
  destruct (markOrderExecuted_begin (id o) (executionPrice e) now vault w);
    reflexivity.
Qed.

Lemma stepSettled_blind r now vault e l w :
  stepSettled r now vault e (setExecutions l w) =
  (setExecutions l (fst (stepSettled r now vault e w)),
   snd (stepSettled r now vault e w)).
Proof.
  unfold stepSettled.
  destruct (suspended e), r; try reflexivity;
    try (rewrite finallyBlock_blind; reflexivity).
  apply markLoop_blind.
Qed.

Lemma writeSettled_blind now vault e l w :
  writeSettled now vault e (setExecutions l w) =
  (setExecutions l (fst (writeSettled now vault e w)),
   snd (writeSettled now vault e w)).
Proof.
  unfold writeSettled.
  destruct (suspended e); try reflexivity.
  - rewrite markOrderExecuted_end_blind. apply markLoop_blind.
  - rewrite finallyBlock_blind. reflexivity.
Qed.

(** An event of the only activation alive. *)
Lemma apply_StepSettles_alone r now vault e w :
  apply (StepSettles 0 r now vault) (setExecutions [e] w) =
  setExecutions (alive (snd (stepSettled r now vault e w)))
    (fst (stepSettled r now vault e w)).
Proof.
  cbn [apply]. simpl nth_error. cbv beta iota. rewrite stepSettled_blind.
  simpl fst. simpl snd.
  destruct (snd (stepSettled r now vault e w)); reflexivity.
Qed.

Lemma apply_WriteSettles_alone now vault e w :
  apply (WriteSettles 0 now vault) (setExecutions [e] w) =
  setExecutions (alive (snd (writeSettled now vault e w)))
    (fst (writeSettled now vault e w)).
Proof.
  cbn [apply]. simpl nth_error. cbv beta iota. rewrite writeSettled_blind.
  simpl fst. simpl snd.
  destruct (snd (writeSettled now vault e w)); reflexivity.
Qed.

Lemma markEach_cons price now vault o r w :
  markEach price now vault (o :: r) w =
  markEach price now vault r
    (markOrderExecuted_end
       (snd (markOrderExecuted_begin (id o) price (now o) (vault o) w))
       (fst (markOrderExecuted_begin (id o) price (now o) (vault o) w))).
Proof.
  unfold markEach. simpl.
  destruct (markOrderExecuted_begin (id o) price (now o) (vault o) w);
    reflexivity.
Qed.

Lemma run_cons ev evs w : run (ev :: evs) w = run evs (apply ev w).
Proof. reflexivity. Qed.

Lemma run_nil w : run [] w = w.
Proof. reflexivity. Qed.

Lemma run_app evs1 evs2 w : run (evs1 ++ evs2) w = run evs2 (run evs1 w).
Proof. unfold run. apply fold_left_app. Qed.

(** From a suspended loop to the end of the execution. *)
Lemma run_marking now vault b p c rest :
  forall saving w,
    run (map (fun o => WriteSettles 0 (now o) (vault o)) rest
         ++ [WriteSettles 0 0%Z None; WriteSettles 0 0%Z None])
        (setExecutions [mkExecution b p c (Marking saving rest)] w) =
    let w3 := markEach p now vault rest (markOrderExecuted_end saving w) in
    setExecutions []
      (finallyBlock
         (persistState
            (setSTATE
               (setSpent (totalSpent (STATE w3) + c)
                  (ordersExecuted (STATE w3) + List.length b)%nat
                  (STATE w3)) w3))).
Proof.
  induction rest as [| o r IH]; intros saving w.
  - simpl map. simpl app. rewrite !run_cons, run_nil.
    rewrite apply_WriteSettles_alone.
    unfold writeSettled at 1 2. simpl suspended. cbv iota.
    unfold markLoop. simpl fst. simpl snd. simpl alive.
    rewrite apply_WriteSettles_alone.
    unfold writeSettled. simpl suspended. cbv iota.
    reflexivity.
  - simpl map. simpl app. rewrite run_cons.
    rewrite apply_WriteSettles_alone.
    unfold writeSettled, markLoop. simpl suspended. cbv iota.
    simpl executionPrice. simpl batch. simpl combinedAmount.
    rewrite markEach_cons.
    destruct (markOrderExecuted_begin (id o) p (now o) (vault o)
                (markOrderExecuted_end saving w)) as [w1 saving'].
    simpl fst. simpl snd. simpl alive.
    apply (IH saving' w1).
Qed.

Lemma executeBatchBuyProcess_executions r1 r2 r3 now vault batchOrders
    price w :
  executions
    (executeBatchBuyProcess r1 r2 r3 now vault batchOrders price w) =
  executions w.
Proof.
  unfold executeBatchBuyProcess, executeBatchBuyProcess_entry.
  destruct (negb (isRunning (STATE w))); [reflexivity |].
  destruct (buyProcessStarted (STATE w)); [reflexivity |].
  assert (F : forall x, executions (finallyBlock x) = executions x).
  { intro x. apply finallyBlock_fields. }
  destruct r1; [| rewrite F; reflexivity].
  destruct r2; [| rewrite F; reflexivity].
  destruct r3; [| rewrite F; reflexivity].
  cbv zeta.
  match goal with
  | |- executions (finallyBlock ?x) = _ =>
      destruct (finallyBlock_fields x) as (Fx & _); rewrite Fx
  end.
  simpl.
  match goal with
  | |- executions (markEach ?p ?n ?v ?l ?x) = _ =>
      destruct (markEach_frame p n v l x) as (_ & Mx & _); rewrite Mx
  end.
  reflexivity.
Qed.

(** An execution whose three steps succeed is the run of its pieces. *)
Lemma executeBatchBuyProcess_success_as_events now vault batchOrders price
    w w0 e :
  executions w = [] ->
  executeBatchBuyProcess_entry batchOrders price w = (w0, Some e) ->
  run (successEvents now vault batchOrders) (setExecutions [e] w0) =
  executeBatchBuyProcess StepOk StepOk StepOk now vault batchOrders price w.
Proof.
  intros Hex Hentry.
  pose proof (executeBatchBuyProcess_executions StepOk StepOk StepOk now
                vault batchOrders price w) as Hex'.
  rewrite Hex in Hex'.
  rewrite <- (setExecutions_same [] _ Hex').
  unfold executeBatchBuyProcess. rewrite Hentry.
  assert (He : e = mkExecution batchOrders price (sumAmounts batchOrders)
                     AtStep1).
  { unfold executeBatchBuyProcess_entry in Hentry.
    destruct (negb (isRunning (STATE w))); [discriminate |].
    destruct (buyProcessStarted (STATE w)); [discriminate |].
    inversion Hentry; reflexivity. }
  subst e. cbv zeta. simpl combinedAmount.
  unfold successEvents. simpl app. rewrite !run_cons.
  rewrite apply_StepSettles_alone.
  unfold stepSettled at 1 2. simpl suspended. cbv iota.
  simpl fst. simpl snd. simpl alive.
  rewrite apply_StepSettles_alone.
  unfold stepSettled at 1 2. simpl suspended. cbv iota.
  simpl fst. simpl snd. simpl alive.
  simpl batch. simpl executionPrice. simpl combinedAmount.
  set (w2 :=
         persistState
           (setSTATE
              (setCurrentStep 3
                 (STATE
                    (persistState
                       (setSTATE (setCurrentStep 2 (STATE w0)) w0))))
              (persistState (setSTATE (setCurrentStep 2 (STATE w0)) w0)))).
  destruct batchOrders as [| o r].
  - rewrite !run_cons, run_nil.
    rewrite apply_StepSettles_alone.
    unfold stepSettled, markLoop. simpl suspended. cbv iota.
    simpl batch. simpl fst. simpl snd. simpl alive.
    rewrite apply_WriteSettles_alone.
    unfold writeSettled. simpl suspended. cbv iota.
    reflexivity.
  - rewrite run_cons.
    rewrite apply_StepSettles_alone.
    unfold stepSettled, markLoop. simpl suspended. cbv iota.
    simpl batch. simpl executionPrice. simpl combinedAmount.
    rewrite markEach_cons.
    change (persistState
              (setSTATE (setCurrentStep 3 (setCurrentStep 2 (STATE w0)))
                 (persistState (setSTATE (setCurrentStep 2 (STATE w0)) w0))))
      with w2.
    destruct (markOrderExecuted_begin (id o) price (now o) (vault o) w2)
      as [w1 saving].
    simpl fst. simpl snd. simpl alive.
    rewrite run_marking. reflexivity.
Qed.

(** The function [executeBatchBuyProcess] is the run of the pieces of one
    activation, whatever the outcomes of the steps: what is proved of it
    holds of the interleavings in which no other event falls between
    the pieces. *)
Lemma executeBatchBuyProcess_as_events r1 r2 r3 now vault batchOrders price
    w w0 e :
  executions w = [] ->
  executeBatchBuyProcess_entry batchOrders price w = (w0, Some e) ->
  run (executionEvents r1 r2 r3 now vault batchOrders)
      (setExecutions [e] w0) =
  executeBatchBuyProcess r1 r2 r3 now vault batchOrders price w.
Proof.
  intros Hex Hentry.
  destruct r1 as [| m1]; [destruct r2 as [| m2]; [destruct r3 as [| m3] |] |].
  - apply executeBatchBuyProcess_success_as_events; assumption.
  - pose proof (executeBatchBuyProcess_executions StepOk StepOk
                  (StepThrows m3) now vault batchOrders price w) as Hex'.
    rewrite Hex in Hex'.
    rewrite <- (setExecutions_same [] _ Hex').
    unfold executeBatchBuyProcess. rewrite Hentry.
    assert (He : suspended e = AtStep1).
    { unfold executeBatchBuyProcess_entry in Hentry.
      destruct (negb (isRunning (STATE w))); [discriminate |].
      destruct (buyProcessStarted (STATE w)); [discriminate |].
      inversion Hentry; reflexivity. }
    unfold executionEvents. rewrite !run_cons, run_nil.
    rewrite apply_StepSettles_alone.
    unfold stepSettled at 1 2. rewrite He. cbv iota.
    simpl fst. simpl snd. simpl alive.
    rewrite apply_StepSettles_alone.
    unfold stepSettled at 1 2. simpl suspended. cbv iota.
    simpl fst. simpl snd. simpl alive.
    rewrite apply_StepSettles_alone.
    unfold stepSettled. simpl suspended. cbv iota.
    reflexivity.
  - pose proof (executeBatchBuyProcess_executions StepOk (StepThrows m2) r3
                  now vault batchOrders price w) as Hex'.
    rewrite Hex in Hex'.
    rewrite <- (setExecutions_same [] _ Hex').
    unfold executeBatchBuyProcess. rewrite Hentry.
    assert (He : suspended e = AtStep1).
    { unfold executeBatchBuyProcess_entry in Hentry.
      destruct (negb (isRunning (STATE w))); [discriminate |].
      destruct (buyProcessStarted (STATE w)); [discriminate |].
      inversion Hentry; reflexivity. }
    unfold executionEvents. rewrite !run_cons, run_nil.
    rewrite apply_StepSettles_alone.
    unfold stepSettled at 1 2. rewrite He. cbv iota.
    simpl fst. simpl snd. simpl alive.
    rewrite apply_StepSettles_alone.
    unfold stepSettled. simpl suspended. cbv iota.
    reflexivity.
  - pose proof (executeBatchBuyProcess_executions (StepThrows m1) r2 r3
                  now vault batchOrders price w) as Hex'.
    rewrite Hex in Hex'.
    rewrite <- (setExecutions_same [] _ Hex').
    unfold executeBatchBuyProcess. rewrite Hentry.
    assert (He : suspended e = AtStep1).
    { unfold executeBatchBuyProcess_entry in Hentry.
      destruct (negb (isRunning (STATE w))); [discriminate |].
      destruct (buyProcessStarted (STATE w)); [discriminate |].
      inversion Hentry; reflexivity. }
    unfold executionEvents. rewrite !run_cons, run_nil.
    rewrite apply_StepSettles_alone.
    unfold stepSettled. rewrite He. cbv iota.
    reflexivity.
Qed.

(** The price check that hands a batch over, followed by the events of
    the execution, in the README example. *)
Example readme_run_of_events :
  let w := readmeMonitoring 300 in
  let b :=
    validateBatchExecution (findExecutableOrders (290 # 100) (settings w))
      (maxBudget (settings w)) (totalSpent (STATE w)) in
  setExecutions []
    (setTicks []
       (setChecks 1
          (run (CheckPrice (Some (290 # 100)) :: TickResumes 0
                :: executionEvents StepOk StepOk StepOk (fun _ => 7%Z)
                     (fun _ => None) (Batch.orders b)) w))) =
  executeBatchBuyProcess StepOk StepOk StepOk (fun _ => 7%Z) (fun _ => None)
    (Batch.orders b) (290 # 100) w.
Proof. vm_compute. reflexivity. Qed.

(** ** Executed orders are final *)

Lemma wellKept_kept w w' :
  kept w' = kept w -> coherent (inFlight w') -> wellKept w -> wellKept w'.
Proof.
  unfold kept. intros Hk Hc (_ & H1 & H2).
  inversion Hk as [[Hs Hst Hex]].
  unfold wellKept. rewrite Hs, Hst, Hex. auto.
Qed.

Lemma kept_startMonitoring w : kept (startMonitoring w) = kept w.
Proof. unfold startMonitoring. branches; reflexivity. Qed.

Lemma kept_scheduleRefresh w : kept (scheduleRefresh w) = kept w.
Proof. unfold scheduleRefresh. branches; reflexivity. Qed.

Lemma kept_checkPriceAndBuy price n w :
  kept (checkPriceAndBuy price (setChecks n w)) = kept w.
Proof.
  unfold checkPriceAndBuy.
  destruct (negb (isRunning (STATE (setChecks n w)))); [reflexivity |].
  destruct (buyProcessStarted (STATE (setChecks n w))); [reflexivity |].
  destruct (budgetNotConfigured (settings (setChecks n w))); [reflexivity |].
  destruct price; [reflexivity |].
  rewrite kept_scheduleRefresh. reflexivity.
Qed.

Lemma kept_finallyBlock w : kept (finallyBlock w) = kept w.
Proof.
  unfold finallyBlock. rewrite kept_scheduleRefresh. reflexivity.
Qed.

Lemma ledgerOk_nil s st l : ledgerOk s st l -> ledgerOk s st [].
Proof.
  intros (H1 & H2 & H3 & _ & _). repeat split; try assumption.
  - constructor.
  - intros o o' [].
Qed.

Lemma wellKept_init v stored persisted al :
  (forall s, stored = Some s -> NoDup (map id (orders s))) ->
  wellKept (init v stored persisted al).
Proof.
  intro Hst. split; [apply coherent_init |].
  assert (L : ledgerOk (settings (init v stored persisted al))
                (storedSettings (init v stored persisted al)) []).
  { unfold init. destruct v; simpl.
    - assert (L : ledgerOk match stored with
                           | Some s => s
                           | None => DEFAULT_SETTINGS
                           end stored []).
      { repeat split.
        - destruct stored as [s |]; [apply Hst; reflexivity | constructor].
        - exact Hst.
        - destruct stored; [right; reflexivity | left; reflexivity].
        - constructor.
        - intros o o' []. }
      destruct (wasRunning persisted), (wasBuying persisted); exact L.
    - repeat split.
      + constructor.
      + exact Hst.
      + left. reflexivity.
      + constructor.
      + intros o o' []. }
  split; [exact L |].
  assert (E : executions (init v stored persisted al) = []).
  { unfold init. destruct v; simpl; [| reflexivity].
    destruct (wasRunning persisted), (wasBuying persisted); reflexivity. }
  rewrite E. intros e [].
Qed.

(** The collection after a splice is the collection with one order
    less. *)
Lemma removeOrder_orders oid s :
  orders (removeOrder oid s) = orders s \/
  exists l1 x l2,
    orders s = l1 ++ x :: l2 /\ id x = oid /\
    orders (removeOrder oid s) = l1 ++ l2.
Proof.
  unfold removeOrder.
  destruct (JS.findIndex (fun o => String.eqb (id o) oid) (orders s))
    as [index |] eqn:F; [| left; reflexivity].
  right. apply findIndex_Some in F.
  destruct F as (l1 & x & l2 & Hs & _ & Hx & _ & Hsp).
  exists l1, x, l2. simpl. rewrite Hsp.
  apply String.eqb_eq in Hx. auto.
Qed.

Lemma fillFirst_In oid price now vault l o' :
  In o' (fillFirst oid price now vault l) ->
  exists y, In y l /\ id y = id o' /\ (id y <> oid -> o' = y).
Proof.
  induction l as [| x r IH]; intro H; [destruct H |].
  simpl in H. destruct (String.eqb (id x) oid) eqn:E.
  - destruct H as [<- | H].
    + exists x. split; [left; reflexivity |]. split; [reflexivity |].
      apply String.eqb_eq in E. intro N. contradiction.
    + exists o'. split; [right; exact H |]. split; reflexivity.
  - destruct H as [<- | H].
    + exists x. split; [left; reflexivity |]. split; reflexivity.
    + destruct (IH H) as (y & Hy & Hid & Heq).
      exists y. split; [right; exact Hy |]. split; assumption.
Qed.

Lemma markOrderExecuted_begin_stored oid price now vault w :
  let w1 := fst (markOrderExecuted_begin oid price now vault w) in
  w1 = w \/ storedSettings w1 = Some (settings w1).
Proof.
  cbv zeta. unfold markOrderExecuted_begin.
  destruct (existsb _ _); [right | left]; reflexivity.
Qed.

Lemma ledgerOk_tail s st o rest :
  ledgerOk s st (o :: rest) -> ledgerOk s st rest.
Proof.
  intros (H1 & H2 & H3 & H4 & H5). repeat split; try assumption.
  - simpl in H4. inversion H4; assumption.
  - intros x o' Hx. apply H5. right. exact Hx.
Qed.

(** A saved collection whose orders are former ones or pending ones. *)
Lemma ledgerOk_change s st l s' :
  ledgerOk s st l ->
  NoDup (map id (orders s')) ->
  (forall o', In o' (orders s') -> In o' (orders s) \/ status o' = pending) ->
  ledgerOk s' (Some s') l.
Proof.
  intros (H1 & H2 & H3 & H4 & H5) Hnd Hsub. repeat split.
  - exact Hnd.
  - intros s0 E. inversion E; subst. exact Hnd.
  - right. reflexivity.
  - exact H4.
  - intros o o' Ho Ho' Hid. destruct (Hsub o' Ho') as [Hin | Hp].
    + apply (H5 o o'); assumption.
    + exact Hp.
Qed.

(** Marking the first order to mark. *)
Lemma ledgerOk_mark s st o rest price now vault :
  ledgerOk s st (o :: rest) ->
  ledgerOk (markOrderExecuted (id o) price now vault s)
    (Some (markOrderExecuted (id o) price now vault s)) rest.
Proof.
  intros (H1 & H2 & H3 & H4 & H5).
  simpl in H4. inversion H4 as [| ? ? Hnotin Hrest]; subst.
  repeat split.
  - simpl. rewrite fillFirst_ids. exact H1.
  - intros s0 E. inversion E; subst. simpl. rewrite fillFirst_ids. exact H1.
  - right. reflexivity.
  - exact Hrest.
  - intros x o' Hx Ho' Hid. simpl in Ho'.
    apply fillFirst_In in Ho'. destruct Ho' as (y & Hy & Hyid & Heq).
    assert (Hne : id y <> id o).
    { intro E. apply Hnotin. rewrite <- E, Hyid, Hid. apply in_map, Hx. }
    rewrite (Heq Hne).
    apply (H5 x y); [right; exact Hx | exact Hy | congruence].
Qed.

(** What a price check selects can be marked. *)
Lemma ledgerOk_select s st price spent :
  ledgerOk s st [] ->
  ledgerOk s st
    (Batch.orders
       (validateBatchExecution (findExecutableOrders price s) (maxBudget s)
          spent)).
Proof.
  intros (H1 & H2 & H3 & _ & _). repeat split; try assumption.
  - apply selected_orders_unique, H1.
  - intros o o' Ho Ho' Hid.
    destruct (selected_orders_executable _ _ _ _ Ho) as (Hin & Hp & _).
    rewrite (unique_by_id (orders s) o' o H1 Ho' Hin Hid). exact Hp.
Qed.

Lemma wellKept_none w :
  coherent (inFlight w) -> executions w = [] ->
  ledgerOk (settings w) (storedSettings w) [] -> wellKept w.
Proof.
  intros Hc Hex L. split; [exact Hc |]. split; [exact L |].
  rewrite Hex. intros e [].
Qed.

Lemma wellKept_one w e :
  coherent (inFlight w) -> executions w = [e] ->
  ledgerOk (settings w) (storedSettings w) (toMark e) -> wellKept w.
Proof.
  intros Hc Hex L. split; [exact Hc |].
  split; [apply (ledgerOk_nil _ _ _ L) |].
  rewrite Hex. intros e' [<- | []]. exact L.
Qed.

(** A handler that saves a collection made of former and pending
    orders. *)
Lemma wellKept_saved w w' :
  wellKept w -> coherent (inFlight w') ->
  executions w' = executions w ->
  storedSettings w' = Some (settings w') ->
  NoDup (map id (orders (settings w'))) ->
  (forall o', In o' (orders (settings w')) ->
              In o' (orders (settings w)) \/ status o' = pending) ->
  wellKept w'.
Proof.
  intros (_ & L0 & Le) Hc Hex Hst Hnd Hsub.
  split; [exact Hc |]. rewrite Hst, Hex. split.
  - apply (ledgerOk_change _ _ _ _ L0 Hnd Hsub).
  - intros e He. apply (ledgerOk_change _ _ _ _ (Le e He) Hnd Hsub).
Qed.

Lemma addOrderClicked_added newId price tf af s s' o :
  addOrderClicked newId price tf af s = (s', Added o) ->
  orders s' = orders s ++ [o] /\ id o = newId /\ status o = pending.
Proof.
  unfold addOrderClicked.
  destruct (budgetNotConfigured s); [discriminate |].
  destruct tf as [t |]; [| discriminate].
  destruct af as [a |]; [| discriminate].
  destruct (JS.le t 0 || JS.le a 0); [discriminate |].
  destruct (JS.lt a 25); [discriminate |].
  destruct price as [p |].
  - destruct (JS.gt t p); [discriminate |].
    intro H. inversion H; subst. repeat split.
  - intro H. inversion H; subst. repeat split.
Qed.

Lemma checkPriceAndBuy_resumed_kept p w :
  kept (fst (checkPriceAndBuy_resumed p w)) = kept w /\
  forall e, snd (checkPriceAndBuy_resumed p w) = Some e ->
    toMark e =
    Batch.orders
      (validateBatchExecution (findExecutableOrders p (settings w))
         (maxBudget (settings w)) (totalSpent (STATE w))).
Proof.
  unfold checkPriceAndBuy_resumed.
  destruct (getPendingOrders (settings w)).
  { simpl. split; [apply kept_scheduleRefresh | discriminate]. }
  destruct (findExecutableOrders p (settings w)) eqn:F.
  { simpl. split; [apply kept_scheduleRefresh | discriminate]. }
  destruct (Batch.orders _) eqn:B.
  { simpl. split; [reflexivity | discriminate]. }
  unfold executeBatchBuyProcess_entry.
  destruct (negb (isRunning (STATE w))).
  { simpl. split; [reflexivity | discriminate]. }
  destruct (buyProcessStarted (STATE w)).
  { simpl. split; [reflexivity | discriminate]. }
  simpl. split; [reflexivity |].
  intros e E. inversion E; subst. reflexivity.
Qed.

Lemma markLoop_ledger e l now vault w :
  executions (fst (markLoop e l now vault w)) = executions w /\
  exists e',
    snd (markLoop e l now vault w) = Some e' /\
    (ledgerOk (settings w) (storedSettings w) l ->
     ledgerOk (settings (fst (markLoop e l now vault w)))
       (storedSettings (fst (markLoop e l now vault w))) (toMark e')).
Proof.
  unfold markLoop. destruct l as [| o rest].
  - simpl. split; [reflexivity |]. eexists. split; [reflexivity |].
    intro L. exact L.
  - unfold markOrderExecuted_begin.
    destruct (existsb _ _); simpl.
    + split; [reflexivity |]. eexists. split; [reflexivity |].
      intro L. unfold toMark. simpl.
      apply (ledgerOk_mark _ _ _ _ _ _ _ L).
    + split; [reflexivity |]. eexists. split; [reflexivity |].
      intro L. unfold toMark. simpl. apply (ledgerOk_tail _ _ _ _ L).
Qed.

Lemma stepSettled_ledger r now vault e w :
  executions (fst (stepSettled r now vault e w)) = executions w /\
  (ledgerOk (settings w) (storedSettings w) (toMark e) ->
   ledgerOk (settings (fst (stepSettled r now vault e w)))
     (storedSettings (fst (stepSettled r now vault e w)))
     (match snd (stepSettled r now vault e w) with
      | Some e' => toMark e'
      | None => []
      end)).
Proof.
  unfold stepSettled.
  assert (F : forall x, kept (finallyBlock x) = kept x)
    by apply kept_finallyBlock.
  unfold kept in F.
  destruct (suspended e) eqn:Ep; destruct r;
    try (simpl; split; [reflexivity |]; intro L; unfold toMark in *;
         simpl; rewrite ?Ep in *; exact L);
    try (simpl; specialize (F w); inversion F as [[F1 F2 F3]];
         split; [reflexivity |]; intro L; apply (ledgerOk_nil _ _ _ L)).
  destruct (markLoop_ledger e (batch e) now vault w) as (Hx & e' & He' & HL).
  split; [exact Hx |]. rewrite He'. intro L. apply HL.
  unfold toMark in L. rewrite Ep in L. exact L.
Qed.

Lemma writeSettled_ledger now vault e w :
  executions (fst (writeSettled now vault e w)) = executions w /\
  (ledgerOk (settings w) (storedSettings w) (toMark e) ->
   ledgerOk (settings (fst (writeSettled now vault e w)))
     (storedSettings (fst (writeSettled now vault e w)))
     (match snd (writeSettled now vault e w) with
      | Some e' => toMark e'
      | None => []
      end)).
Proof.
  unfold writeSettled.
  assert (F : forall x, kept (finallyBlock x) = kept x)
    by apply kept_finallyBlock.
  unfold kept in F.
  destruct (suspended e) eqn:Ep;
    try (simpl; split; [reflexivity |]; intro L; unfold toMark in *;
         simpl; rewrite ?Ep in *; exact L).
  - destruct (markLoop_ledger e rest now vault
                (markOrderExecuted_end saving w)) as (Hx & e' & He' & HL).
    destruct (markOrderExecuted_end_frame saving w)
      as (Es & _ & Ex & _ & _ & _ & _ & Est).
    split; [rewrite Hx; exact Ex |]. rewrite He'. intro L. apply HL.
    rewrite Es, Est. unfold toMark in L. rewrite Ep in L. exact L.
  - simpl. specialize (F w). inversion F as [[F1 F2 F3]].
    split; [reflexivity |]. intro L. apply (ledgerOk_nil _ _ _ L).
Qed.

(** The invariant after a piece of the only activation alive. *)
Lemma wellKept_piece w e (f : World * option Execution) :
  wellKept w -> executions w = [e] ->
  coherent
    (inFlight (setExecutions (putAt 0 (snd f) (executions (fst f))) (fst f))) ->
  executions (fst f) = executions w ->
  (ledgerOk (settings w) (storedSettings w) (toMark e) ->
   ledgerOk (settings (fst f)) (storedSettings (fst f))
     (match snd f with Some e' => toMark e' | None => [] end)) ->
  wellKept (setExecutions (putAt 0 (snd f) (executions (fst f))) (fst f)).
Proof.
  intros (_ & _ & Le) Hex Hc Hx HL.
  assert (L : ledgerOk (settings w) (storedSettings w) (toMark e)).
  { apply Le. rewrite Hex. left. reflexivity. }
  specialize (HL L). rewrite Hx, Hex in *.
  destruct f as [w' [e' |]]; simpl in *.
  - apply wellKept_one with e'; [exact Hc | reflexivity | exact HL].
  - apply wellKept_none; [exact Hc | reflexivity | exact HL].
Qed.

(** Every event with a fresh id keeps the invariant. *)
Lemma wellKept_apply ev w :
  wellKept w -> freshId ev w -> wellKept (apply ev w).
Proof.
  intros HK Hfresh.
  pose proof (coherent_apply ev w (proj1 HK)) as Hc'.
  destruct ev; cbn [apply] in *.
  - apply (wellKept_kept w); [apply kept_startMonitoring | exact Hc' | exact HK].
  - apply (wellKept_kept w); [reflexivity | exact Hc' | exact HK].
  - (* Save *)
    apply (wellKept_saved w); try assumption.
    + unfold saveClicked, scheduleRefresh. branches; reflexivity.
    + unfold saveClicked, scheduleRefresh. branches; reflexivity.
    + destruct HK as (_ & (H1 & _) & _).
      unfold saveClicked, scheduleRefresh. branches; exact H1.
    + intros o' Ho'. left. revert Ho'.
      unfold saveClicked, scheduleRefresh. branches; simpl; auto.
  - (* Add *)
    unfold addClicked in *.
    destruct (addOrderClicked newId currentPrice targetField amountField
                (settings w)) as [s' [m | o]] eqn:E; [exact HK |].
    apply addOrderClicked_added in E. destruct E as (Eo & Eid & Ep).
    simpl in Hfresh.
    assert (K1 : wellKept (renderOrders (saveSettings (setSettings s' w)))).
    { apply (wellKept_saved w); try assumption; try reflexivity.
      - exact (proj1 HK).
      - simpl. rewrite Eo, map_app. simpl.
        destruct HK as (_ & (H1 & _) & _).
        apply NoDup_app; [exact H1 | repeat constructor; auto |].
        intros x Hx [<- | []]. rewrite Eid in Hx. contradiction.
      - simpl. rewrite Eo. intros o' Ho'. apply in_app_or in Ho'.
        destruct Ho' as [Ho' | [<- | []]]; [left; exact Ho' | right; exact Ep]. }
    match goal with
    | |- wellKept (if ?c then _ else _) => destruct c
    end; [| exact K1].
    apply (wellKept_kept (renderOrders (saveSettings (setSettings s' w))));
      [| exact Hc' | exact K1].
    rewrite kept_startMonitoring. reflexivity.
  - (* Remove *)
    unfold removeClicked in *.
    destruct (existsb (String.eqb oid) (removeButtons w)); [| exact HK].
    destruct (JS.findIndex _ _) eqn:F; [| exact HK].
    apply (wellKept_saved w); try assumption; try reflexivity.
    + simpl. destruct HK as (_ & (H1 & _) & _).
      destruct (removeOrder_orders oid (settings w))
        as [-> | (l1 & x & l2 & Hs & _ & ->)]; [exact H1 |].
      rewrite Hs, map_app in H1. simpl in H1.
      apply NoDup_remove_1 in H1. rewrite map_app. exact H1.
    + simpl. intros o' Ho'. left.
      destruct (removeOrder_orders oid (settings w))
        as [E | (l1 & x & l2 & Hs & _ & E)]; rewrite E in Ho'.
      * exact Ho'.
      * rewrite Hs. apply in_app_or in Ho'. apply in_or_app.
        destruct Ho'; [left | right; right]; assumption.
  - (* CheckPrice *)
    destruct (checks w); [exact HK |].
    apply (wellKept_kept w);
      [apply kept_checkPriceAndBuy | exact Hc' | exact HK].
  - (* TickResumes *)
    destruct (nth_error (ticks w) i) as [p |]; [| exact HK].
    destruct (checkPriceAndBuy_resumed_kept p
                (setTicks (dropAt i (ticks w)) w)) as (Hk & Hsel).
    destruct (checkPriceAndBuy_resumed p (setTicks (dropAt i (ticks w)) w))
      as [w' k] eqn:E.
    simpl in Hk, Hsel. unfold kept in Hk. simpl in Hk.
    inversion Hk as [[Hs Hst Hex]].
    destruct HK as (Hc & L0 & Le).
    destruct k as [e |].
    + pose proof (checkPriceAndBuy_resumed_coherent p
                    (setTicks (dropAt i (ticks w)) w) w' (Some e) Hc E)
        as (X0 & X1 & _).
      apply wellKept_one with e; [exact Hc' | |].
      * simpl. rewrite X1. reflexivity.
      * simpl. rewrite Hs, Hst, (Hsel e eq_refl).
        apply ledgerOk_select, L0.
    + apply (wellKept_kept w); [| exact Hc' | split; [| split]; assumption].
      unfold kept. rewrite Hs, Hst, Hex. reflexivity.
  - (* StepSettles *)
    destruct (nth_error (executions w) i) as [e |] eqn:En; [| exact HK].
    destruct (coherent_one w i e (proj1 HK) En) as (Hex & -> & _).
    destruct (stepSettled_ledger r now vault e w) as (Hx & HL).
    destruct (stepSettled r now vault e w) as [w' k] eqn:E.
    apply (wellKept_piece w e (w', k)); assumption.
  - (* WriteSettles *)
    destruct (nth_error (executions w) i) as [e |] eqn:En; [| exact HK].
    destruct (coherent_one w i e (proj1 HK) En) as (Hex & -> & _).
    destruct (writeSettled_ledger now vault e w) as (Hx & HL).
    destruct (writeSettled now vault e w) as [w' k] eqn:E.
    apply (wellKept_piece w e (w', k)); assumption.
  - (* Reload *)
    apply wellKept_init. destruct HK as (_ & (_ & H2 & _) & _). exact H2.
  - (* AlarmFires *)
    unfold alarmFired in *. destruct (alarm w); [| exact HK].
    destruct (wasBuying (runningState w)).
    + apply (wellKept_kept w); [reflexivity | exact Hc' | exact HK].
    + apply wellKept_init. destruct HK as (_ & (_ & H2 & _) & _). exact H2.
Qed.

Lemma wellKept_run evs w :
  wellKept w -> freshIds evs w -> wellKept (run evs w).
Proof.
  revert w. induction evs as [| ev evs IH]; intros w HK Hf.
  - exact HK.
  - destruct Hf as [Hf1 Hf2]. rewrite run_cons.
    apply IH; [apply wellKept_apply; assumption | exact Hf2].
Qed.

Lemma markLoop_settings e l now vault w :
  settings (fst (markLoop e l now vault w)) =
  match l with
  | [] => settings w
  | o :: _ => markOrderExecuted (id o) (executionPrice e) now vault (settings w)
  end.
Proof.
  unfold markLoop. destruct l as [| o rest]; [reflexivity |].
  destruct (markOrderExecuted_begin_frame (id o) (executionPrice e) now vault
              w) as (Hs & _).
  destruct (markOrderExecuted_begin (id o) (executionPrice e) now vault w).
  exact Hs.
Qed.

(** Marking the next order to mark leaves an executed order in place. *)
Lemma marking_keeps_executed s st l e now vault w o :
  ledgerOk s st l -> settings w = s ->
  In o (orders s) -> status o = executed ->
  In o (orders (settings (fst (markLoop e l now vault w)))).
Proof.
  intros (_ & _ & _ & _ & H5) Hs Ho Hx.
  rewrite markLoop_settings, Hs.
  destruct l as [| h rest]; [exact Ho |].
  simpl. apply fillFirst_keeps_others; [exact Ho |].
  intro Hid.
  assert (P : status o = pending).
  { apply (H5 h o); [left; reflexivity | exact Ho | exact Hid]. }
  congruence.
Qed.

(** In a run with fresh ids no event changes an executed order: after the
    event the order is in the collection as it was, or no order carries
    its id any more (it was removed, or the page was loaded elsewhere). *)
Lemma executed_order_kept ev w o :
  wellKept w ->
  In o (orders (settings w)) -> status o = executed ->
  In o (orders (settings (apply ev w))) \/
  ~ In (id o) (map id (orders (settings (apply ev w)))).
Proof.
  intros HK Ho Hx.
  assert (Hsame : forall w', settings w' = settings w ->
            In o (orders (settings w')) \/
            ~ In (id o) (map id (orders (settings w')))).
  { intros w' E. left. rewrite E. exact Ho. }
  destruct ev; cbn [apply].
  - apply Hsame. pose proof (kept_startMonitoring w) as K.
    unfold kept in K. inversion K; reflexivity.
  - apply Hsame. reflexivity.
  - left. unfold saveClicked, scheduleRefresh. branches; exact Ho.
  - unfold addClicked.
    destruct (addOrderClicked newId currentPrice targetField amountField
                (settings w)) as [s' [m | a]] eqn:E; [left; exact Ho |].
    apply addOrderClicked_added in E. destruct E as (Eo & _).
    left.
    match goal with
    | |- In o (orders (settings (if ?c then _ else _))) => destruct c
    end.
    + rewrite startMonitoring_settings, stopMonitoring_settings. simpl.
      rewrite Eo. apply in_or_app. left. exact Ho.
    + simpl. rewrite Eo. apply in_or_app. left. exact Ho.
  - unfold removeClicked.
    destruct (existsb (String.eqb oid) (removeButtons w)); [| left; exact Ho].
    destruct (JS.findIndex _ _); [| left; exact Ho].
    simpl.
    destruct (removeOrder_orders oid (settings w))
      as [E | (l1 & x & l2 & Hs & _ & E)]; rewrite E.
    + left. exact Ho.
    + destruct HK as (_ & (H1 & _) & _).
      rewrite Hs in Ho, H1. rewrite map_app in H1. simpl in H1.
      apply in_app_or in Ho. destruct Ho as [Ho | [<- | Ho]].
      * left. apply in_or_app. left. exact Ho.
      * right. rewrite map_app. apply NoDup_remove_2 in H1. exact H1.
      * left. apply in_or_app. right. exact Ho.
  - destruct (checks w); [left; exact Ho |].
    apply Hsame. pose proof (kept_checkPriceAndBuy currentPrice n w) as K.
    unfold kept in K. inversion K; reflexivity.
  - destruct (nth_error (ticks w) i) as [p |]; [| left; exact Ho].
    destruct (checkPriceAndBuy_resumed_kept p
                (setTicks (dropAt i (ticks w)) w)) as (K & _).
    unfold kept in K.
    destruct (checkPriceAndBuy_resumed p (setTicks (dropAt i (ticks w)) w))
      as [w' [e |]]; simpl in K; inversion K as [[Ks Kst Kx]];
      apply Hsame; exact Ks.
  - destruct (nth_error (executions w) i) as [e |] eqn:En; [| left; exact Ho].
    destruct (coherent_one w i e (proj1 HK) En) as (Hex & -> & _).
    assert (L : ledgerOk (settings w) (storedSettings w) (toMark e)).
    { destruct HK as (_ & _ & Le). apply Le. rewrite Hex. left. reflexivity. }
    left.
    destruct (stepSettled r now vault e w) as [w' k] eqn:E. simpl.
    unfold stepSettled in E.
    destruct (finallyBlock_fields w) as (_ & _ & _ & _ & Fs & _).
    destruct (suspended e) eqn:Ep; destruct r;
      try (inversion E; subst; simpl; rewrite ?Fs; exact Ho).
    unfold toMark in L. rewrite Ep in L.
    pose proof (marking_keeps_executed _ _ _ e now vault w o L eq_refl Ho Hx)
      as M.
    rewrite E in M. exact M.
  - destruct (nth_error (executions w) i) as [e |] eqn:En; [| left; exact Ho].
    destruct (coherent_one w i e (proj1 HK) En) as (Hex & -> & _).
    assert (L : ledgerOk (settings w) (storedSettings w) (toMark e)).
    { destruct HK as (_ & _ & Le). apply Le. rewrite Hex. left. reflexivity. }
    left.
    destruct (writeSettled now vault e w) as [w' k] eqn:E. simpl.
    unfold writeSettled in E.
    destruct (finallyBlock_fields w) as (_ & _ & _ & _ & Fs & _).
    destruct (suspended e) eqn:Ep;
      try (inversion E; subst; simpl; rewrite ?Fs; exact Ho).
    unfold toMark in L. rewrite Ep in L.
    destruct (markOrderExecuted_end_frame saving w) as (Es & _).
    pose proof (marking_keeps_executed _ _ _ e now vault
                  (markOrderExecuted_end saving w) o L Es Ho Hx) as M.
    rewrite E in M. exact M.
  - destruct HK as (_ & (_ & _ & H3 & _) & _).
    destruct H3 as [E | E]; [rewrite E in Ho; destruct Ho |].
    unfold init. rewrite E.
    destruct onVaultPage; simpl; [| right; intros []].
    left.
    destruct (wasRunning (runningState w)), (wasBuying (runningState w));
      exact Ho.
  - unfold alarmFired. destruct (alarm w); [| left; exact Ho].
    destruct (wasBuying (runningState w)) eqn:B; [left; exact Ho |].
    destruct HK as (_ & (_ & _ & H3 & _) & _).
    destruct H3 as [E | E]; [rewrite E in Ho; destruct Ho |].
    unfold init. rewrite E. simpl. left. rewrite B.
    destruct (wasRunning (runningState w)); exact Ho.
Qed.

(** C9, as the script has it.  [markOrderExecuted] raises nothing: with an
    id that no order carries it leaves the settings as they are;
    otherwise it sets status, [executedPrice], [filledAt] and, when one
    is on the page, the vault reference of the first order with the id,
    whatever its status, and leaves the rest alone, so that on a pending
    order it is the transition from pending to executed.  In the script
    it is called by the marking loop only: in every run from a page
    load, with ids unique in storage and fresh at each add, the order
    the loop is about to mark is pending wherever the collection has its
    id, and no event changes an executed order, which stays as it is
    until no order carries its id. *)
Theorem markOrderExecuted_sets_fields_once (oid : string) (price : Q)
    (now : Z) (vault : option VaultOrder) (s : Settings) :
  let s' := markOrderExecuted oid price now vault s in
  ((forall o, In o (orders s) -> id o <> oid) -> s' = s) /\
  (forall l1 o l2,
      orders s = l1 ++ o :: l2 -> id o = oid ->
      (forall x, In x l1 -> id x <> oid) ->
      exists o',
        orders s' = l1 ++ o' :: l2 /\
        status o' = executed /\ executedPrice o' = Some price /\
        filledAt o' = Some now /\
        id o' = id o /\ targetPrice o' = targetPrice o /\
        amount o' = amount o /\
        (forall v, vault = Some v ->
           vaultOrderId o' = Some (orderId v) /\
           vaultOrderUrl o' = detailsUrl v) /\
        (vault = None ->
           vaultOrderId o' = vaultOrderId o /\
           vaultOrderUrl o' = vaultOrderUrl o)) /\
  (forall onVaultPage stored persisted al evs,
      (forall s0, stored = Some s0 -> NoDup (map id (orders s0))) ->
      freshIds evs (init onVaultPage stored persisted al) ->
      let w := run evs (init onVaultPage stored persisted al) in
      (forall e o rest o',
          In e (executions w) -> toMark e = o :: rest ->
          In o' (orders (settings w)) -> id o' = id o ->
          status o' = pending) /\
      (forall ev o,
          In o (orders (settings w)) -> status o = executed ->
          In o (orders (settings (apply ev w))) \/
          ~ In (id o) (map id (orders (settings (apply ev w)))))).
Proof.
  intro s'.
  destruct (markOrderExecuted_first_match oid price now vault s)
    as (H1 & H2 & _).
  split; [exact H1 |]. split; [exact H2 |].
  intros onVaultPage stored persisted al evs Hst Hfresh w.
  assert (HK : wellKept w).
  { unfold w. apply wellKept_run; [apply wellKept_init, Hst | exact Hfresh]. }
  split.
  - intros e o rest o' He Hm Ho' Hid.
    destruct HK as (_ & _ & Le).
    destruct (Le e He) as (_ & _ & _ & _ & H5).
    apply (H5 o o'); [rewrite Hm; left; reflexivity | exact Ho' | exact Hid].
  - intros ev o Ho Hx. apply executed_order_kept; assumption.
Qed.

(** The README orders, bought in one batch: a click on a remove button
    afterwards leaves the three executed orders as they are. *)
Lemma markOrderExecuted_sets_fields_once_readme :
  let evs :=
    ClickStart :: CheckPrice (Some (290 # 100)) :: TickResumes 0
    :: executionEvents StepOk StepOk StepOk (fun _ => 7%Z) (fun _ => None)
         [order300; order310; order320] in
  let w := run evs (init true (Some (readmeSettings 300)) None None) in
  map status (orders (settings w)) = [executed; executed; executed] /\
  forall o,
    In o (orders (settings w)) -> status o = executed ->
    In o (orders (settings (apply (ClickRemove "a") w))) \/
    ~ In (id o) (map id (orders (settings (apply (ClickRemove "a") w)))).
Proof.
  cbv zeta. split; [vm_compute; reflexivity |].
  intro o.
  apply (markOrderExecuted_sets_fields_once "a" 0 0%Z None
           (readmeSettings 300)).
  - intros s0 E. inversion E; subst. simpl.
    repeat constructor; simpl; intuition discriminate.
  - vm_compute. tauto.
Defined.

(** ** A remove button that is out of date *)

(** The remove buttons are drawn again only when [markOrderExecuted]
    resumes from its save.  In between, the button of the order just
    marked is still in the toolbar, and a click on it removes an executed
    order; when the loop resumes, the buttons are drawn and the next
    order is marked, whose button is then the one out of date. *)
Example remove_button_out_of_date :
  let w :=
    run [CheckPrice (Some (290 # 100)); TickResumes 0;
         StepSettles 0 StepOk 0%Z None; StepSettles 0 StepOk 0%Z None;
         StepSettles 0 StepOk 7%Z None]
        (readmeMonitoring 300) in
  map status (orders (settings w)) = [pending; pending; executed] /\
  removeButtons w = ["a"; "b"; "c"]%string /\
  map status (orders (settings (apply (ClickRemove "c") w))) =
    [pending; pending] /\
  map status (orders (settings (apply (WriteSettles 0 8%Z None) w))) =
    [pending; executed; executed] /\
  removeButtons (apply (WriteSettles 0 8%Z None) w) = ["a"; "b"]%string.
Proof. cbv zeta. repeat split; vm_compute; reflexivity. Qed.

(** ** The handlers on concrete settings *)

(** With $300 configured and the price at $4.00, $100 at $3.00 is added
    as a pending order and saved. *)
Example addClicked_accepts :
  let w := boot (Some (mkSettings 300 5%Z [])) None in
  let w' := apply (ClickAdd "n" (Some 4) (Some 3) (Some 100)) w in
  orders (settings w') = [newOrder "n" 3 100] /\
  getPendingOrders (settings w') = [newOrder "n" 3 100] /\
  storedSettings w' = Some (settings w') /\
  removeButtons w' = ["n"]%string.
Proof. cbv zeta. repeat split; vm_compute; reflexivity. Qed.

(** $24 is below the minimum, $0 is no target, and $5 is above the price:
    each is refused and nothing changes. *)
Example addClicked_refuses :
  let w := boot (Some (mkSettings 300 5%Z [])) None in
  apply (ClickAdd "n" (Some 4) (Some 3) (Some 24)) w = w /\
  apply (ClickAdd "n" (Some 4) (Some 0) (Some 100)) w = w /\
  apply (ClickAdd "n" (Some 4) (Some 5) (Some 100)) w = w /\
  apply (ClickAdd "n" (Some 4) None (Some 100)) w = w.
Proof. cbv zeta. repeat split; vm_compute; reflexivity. Qed.

(** A click on the remove button of the pending $3.10 order takes it out;
    an id without a button does nothing. *)
Example removeClicked_pending :
  let w := boot (Some (readmeSettings 300)) None in
  orders (settings (apply (ClickRemove "b") w)) = [order320; order300] /\
  apply (ClickRemove "zz") w = w.
Proof. cbv zeta. repeat split; vm_compute; reflexivity. Qed.

(** A reload while step 2 is awaited, monitoring running: the flag and the
    step are cleared, the three orders are pending, the script runs and
    the price check that falls due samples the price. *)
Example reload_during_step2 :
  let before :=
    run [CheckPrice (Some (290 # 100)); TickResumes 0;
         StepSettles 0 StepOk 0%Z None]
        (readmeMonitoring 300) in
  let w := apply (Reload true) before in
  runningState before = Some (Persisted.mk true true 2 0 0) /\
  buyProcessStarted (STATE w) = false /\ currentStep (STATE w) = 0%nat /\
  executions w = [] /\
  map status (orders (settings w)) = [pending; pending; pending] /\
  isRunning (STATE w) = true /\ checks w = 1%nat /\
  runningState w = Some (Persisted.mk true false 0 0 0) /\
  ticks (apply (CheckPrice (Some (290 # 100))) w) = [290 # 100].
Proof. cbv zeta. repeat split; vm_compute; reflexivity. Qed.

(** A reload between two marks of the loop: the order marked before the
    reload is executed, the other two are pending as they were stored. *)
Example reload_during_marking :
  let before :=
    run [CheckPrice (Some (290 # 100)); TickResumes 0;
         StepSettles 0 StepOk 0%Z None; StepSettles 0 StepOk 0%Z None;
         StepSettles 0 StepOk 7%Z None]
        (readmeMonitoring 300) in
  let w := apply (Reload true) before in
  wasBuying (runningState before) = true /\
  map status (orders (settings before)) = [pending; pending; executed] /\
  map status (orders (settings w)) = [pending; pending; executed] /\
  buyProcessStarted (STATE w) = false /\
  totalSpent (STATE w) == 100.
Proof. cbv zeta. repeat split; vm_compute; reflexivity. Qed.

(** ** A mark of the loop in an interleaving *)

(** Whatever ran since the batch was selected, when the loop reaches an
    order and the collection (with unique ids) holds an order with its
    id, that order is filled at the price the activation was started
    with. *)
Lemma markLoop_fills e o rest now vault w o' :
  NoDup (map id (orders (settings w))) ->
  In o' (orders (settings w)) -> id o' = id o ->
  In (fill (executionPrice e) now vault o')
     (orders (settings (fst (markLoop e (o :: rest) now vault w)))).
Proof.
  intros Hnd Hin Hid. rewrite markLoop_settings. simpl.
  rewrite fillFirst_unique by exact Hnd.
  apply in_map_iff. exists o'. split; [| exact Hin].
  apply String.eqb_eq in Hid. rewrite Hid. reflexivity.
Qed.

(** The price an activation fills at is the price its price check
    sampled. *)
Lemma entry_price batchOrders price w w' e :
  executeBatchBuyProcess_entry batchOrders price w = (w', Some e) ->
  executionPrice e = price /\ batch e = batchOrders /\
  combinedAmount e = sumAmounts batchOrders.
Proof.
  unfold executeBatchBuyProcess_entry.
  destruct (negb (isRunning (STATE w))); [discriminate |].
  destruct (buyProcessStarted (STATE w)); [discriminate |].
  intro H. inversion H; subst. repeat split.
Qed.

(** * Further properties *)

(** ** What an event does to the settings *)

Lemma addOrderClicked_admits newId price tf af s s' o :
  addOrderClicked newId price tf af s = (s', Added o) ->
  exists target amt,
    25 <= amt /\ 0 < target /\ 0 < maxBudget s /\
    o = newOrder newId target amt /\
    s' = with_orders s (orders s ++ [o]).
Proof.
  unfold addOrderClicked, budgetNotConfigured.
  destruct (JS.le (maxBudget s) 0) eqn:Eb; [discriminate |].
  apply JS_le_false in Eb.
  destruct tf as [t |]; [| discriminate].
  destruct af as [a |]; [| discriminate].
  destruct (JS.le t 0 || JS.le a 0) eqn:Ez; [discriminate |].
  apply orb_false_iff in Ez. destruct Ez as [Et _].
  apply JS_le_false in Et.
  destruct (JS.lt a 25) eqn:Em; [discriminate |].
  apply JS_lt_false in Em.
  destruct price as [p |].
  - destruct (JS.gt t p); [discriminate |].
    intro H. inversion H; subst. exists t, a. repeat split; assumption.
  - intro H. inversion H; subst. exists t, a. repeat split; assumption.
Qed.

Lemma removeOrder_cases oid s :
  removeOrder oid s = s \/
  exists l1 x l2,
    orders s = l1 ++ x :: l2 /\ id x = oid /\
    (forall y, In y l1 -> id y <> oid) /\
    removeOrder oid s = with_orders s (l1 ++ l2).
Proof.
  unfold removeOrder.
  destruct (JS.findIndex (fun o => String.eqb (id o) oid) (orders s))
    as [index |] eqn:F; [| left; reflexivity].
  right. apply findIndex_Some in F.
  destruct F as (l1 & x & l2 & Hs & _ & Hx & Hl1 & Hsp).
  exists l1, x, l2. rewrite Hsp. apply String.eqb_eq in Hx.
  repeat split; try assumption.
  intros y Hy. apply String.eqb_neq. apply Hl1, Hy.
Qed.

Lemma Change_markLoop e l now vault w :
  In e (executions w) -> toMark e = l ->
  Change w (fst (markLoop e l now vault w)).
Proof.
  intros He Hl. unfold markLoop. destruct l as [| o rest].
  - apply Change_none; reflexivity.
  - unfold markOrderExecuted_begin.
    destruct (existsb _ _); simpl.
    + apply (Change_marked w _ e o rest now vault He Hl); reflexivity.
    + apply Change_none; reflexivity.
Qed.

Lemma Change_finallyBlock w : Change w (finallyBlock w).
Proof.
  destruct (finallyBlock_fields w) as (_ & _ & _ & _ & Hs & Hst).
  apply Change_none; assumption.
Qed.

(** [Change] reads the settings, their stored copy and the activations
    only. *)
Lemma Change_transport w1 w1' w2 w2' :
  settings w2 = settings w1 -> storedSettings w2 = storedSettings w1 ->
  executions w2 = executions w1 ->
  settings w2' = settings w1' -> storedSettings w2' = storedSettings w1' ->
  Change w1 w1' -> Change w2 w2'.
Proof.
  intros A1 A2 A3 B1 B2 C.
  destruct C as [H1 H2 | H1 H2 | newId t a Ha Ht Hb H1 H2
                 | l1 x l2 Hs H1 H2 | e o rest n v He Hm H1 H2 | H1 H2].
  - apply Change_none; congruence.
  - apply Change_saved; congruence.
  - apply (Change_added w2 w2' newId t a); congruence.
  - apply (Change_removed w2 w2' l1 x l2); congruence.
  - apply (Change_marked w2 w2' e o rest n v); congruence.
  - apply Change_loaded; congruence.
Qed.

Lemma Change_stepSettled r now vault e w :
  In e (executions w) ->
  Change w (fst (stepSettled r now vault e w)).
Proof.
  intro He. unfold stepSettled.
  destruct (suspended e) eqn:S, r; simpl;
    try (apply Change_none; reflexivity);
    try apply Change_finallyBlock.
  apply Change_markLoop; [exact He |].
  unfold toMark. rewrite S. reflexivity.
Qed.

Lemma Change_writeSettled now vault e w :
  In e (executions w) ->
  Change w (fst (writeSettled now vault e w)).
Proof.
  intro He. unfold writeSettled.
  destruct (suspended e) eqn:S; simpl;
    try (apply Change_none; reflexivity);
    try apply Change_finallyBlock.
  destruct (markOrderExecuted_end_frame saving w)
    as (Es & _ & Ex & _ & _ & _ & _ & Est).
  apply (Change_transport (markOrderExecuted_end saving w)
           (fst (markLoop e rest now vault (markOrderExecuted_end saving w))));
    try reflexivity; try (symmetry; assumption).
  apply Change_markLoop; [rewrite Ex; exact He |].
  unfold toMark. rewrite S. reflexivity.
Qed.

(** Every event but a load away from the vault changes the settings in
    one of the ways of [Change]. *)
Lemma Change_apply ev w : ev <> Reload false -> Change w (apply ev w).
Proof.
  intro Hv. destruct ev; cbn [apply].
  - apply Change_none;
      [apply startMonitoring_settings | apply startMonitoring_storedSettings].
  - apply Change_none; reflexivity.
  - apply Change_saved;
      unfold saveClicked, scheduleRefresh; branches; reflexivity.
  - unfold addClicked.
    destruct (addOrderClicked newId currentPrice targetField amountField
                (settings w)) as [s' [m | o]] eqn:E;
      [apply Change_none; reflexivity |].
    apply addOrderClicked_admits in E.
    destruct E as (t & a & Ha & Ht & Hb & -> & ->).
    apply (Change_added w _ newId t a Ha Ht Hb);
      match goal with
      | |- context [if ?c then _ else _] => destruct c
      end;
      rewrite ?startMonitoring_settings, ?startMonitoring_storedSettings;
      reflexivity.
  - unfold removeClicked.
    destruct (existsb (String.eqb oid) (removeButtons w));
      [| apply Change_none; reflexivity].
    destruct (JS.findIndex _ _) eqn:F; [| apply Change_none; reflexivity].
    destruct (removeOrder_cases oid (settings w))
      as [E | (l1 & x & l2 & Hs & _ & _ & E)].
    + apply Change_saved; simpl; [rewrite E |]; reflexivity.
    + apply (Change_removed w _ l1 x l2 Hs); simpl; [exact E | reflexivity].
  - destruct (checks w); [apply Change_none; reflexivity |].
    pose proof (kept_checkPriceAndBuy currentPrice n w) as K.
    unfold kept in K. inversion K. apply Change_none; assumption.
  - destruct (nth_error (ticks w) i) as [p |];
      [| apply Change_none; reflexivity].
    destruct (checkPriceAndBuy_resumed_kept p
                (setTicks (dropAt i (ticks w)) w)) as (K & _).
    unfold kept in K.
    destruct (checkPriceAndBuy_resumed p (setTicks (dropAt i (ticks w)) w))
      as [w' [e |]]; simpl in K; inversion K;
      apply Change_none; assumption.
  - destruct (nth_error (executions w) i) as [e |] eqn:En;
      [| apply Change_none; reflexivity].
    pose proof (Change_stepSettled r now vault e w (nth_error_In _ _ En))
      as C.
    destruct (stepSettled r now vault e w) as [w' k]. simpl in C.
    apply (Change_transport w w'); try reflexivity. exact C.
  - destruct (nth_error (executions w) i) as [e |] eqn:En;
      [| apply Change_none; reflexivity].
    pose proof (Change_writeSettled now vault e w (nth_error_In _ _ En))
      as C.
    destruct (writeSettled now vault e w) as [w' k]. simpl in C.
    apply (Change_transport w w'); try reflexivity. exact C.
  - unfold init. destruct onVaultPage; [| congruence]. simpl.
    apply Change_loaded;
      destruct (wasRunning (runningState w)),
               (wasBuying (runningState w)); reflexivity.
  - unfold alarmFired. destruct (alarm w); [| apply Change_none; reflexivity].
    destruct (wasBuying (runningState w)) eqn:B;
      [apply Change_none; reflexivity |].
    apply Change_loaded; unfold init; simpl; rewrite B;
      destruct (wasRunning (runningState w)); reflexivity.
Qed.

(** ** Orders stay as the Add Order handler admits them *)

Lemma fill_admissible price now vault o :
  admissible o -> admissible (fill price now vault o).
Proof. intro H. exact H. Qed.

Lemma fillFirst_Forall (P : Order -> Prop) oid price now vault l :
  (forall o, P o -> P (fill price now vault o)) ->
  Forall P l -> Forall P (fillFirst oid price now vault l).
Proof.
  intros Hfill H. induction H as [| o r Ho Hr IH]; simpl; [constructor |].
  destruct (String.eqb (id o) oid); constructor; auto.
Qed.

(** The orders after a change keep what the former ones had, when the
    handler's new orders and the filled orders have it. *)
Lemma Change_Forall (P : Order -> Prop) w w' :
  (forall newId target amt,
      25 <= amt -> 0 < target -> P (newOrder newId target amt)) ->
  (forall price now vault o, P o -> P (fill price now vault o)) ->
  Change w w' ->
  Forall P (orders (settings w)) ->
  (forall s, storedSettings w = Some s -> Forall P (orders s)) ->
  Forall P (orders (settings w')) /\
  (forall s, storedSettings w' = Some s -> Forall P (orders s)).
Proof.
  intros Pnew Pfill C H Hst.
  assert (G : Forall P (orders (settings w')) ->
              storedSettings w' = Some (settings w') ->
              Forall P (orders (settings w')) /\
              (forall s, storedSettings w' = Some s -> Forall P (orders s))).
  { intros G1 G2. split; [exact G1 |]. intros s E. rewrite G2 in E.
    inversion E; subst. exact G1. }
  destruct C as [H1 H2 | H1 H2 | newId t a Ha Ht Hb H1 H2
                 | l1 x l2 Hs H1 H2 | e o rest n v He Hm H1 H2 | H1 H2].
  - rewrite H1, H2. split; assumption.
  - apply G; [rewrite H1; exact H | exact H2].
  - apply G; [| exact H2]. rewrite H1. simpl.
    apply Forall_app. split; [exact H |]. constructor; [| constructor].
    apply Pnew; assumption.
  - apply G; [| exact H2]. rewrite H1. simpl. rewrite Hs in H.
    apply Forall_app in H. destruct H as [Ha Hb]. inversion Hb; subst.
    apply Forall_app. split; assumption.
  - apply G; [| exact H2]. rewrite H1. simpl.
    apply fillFirst_Forall; [apply Pfill | exact H].
  - rewrite H1, H2. split; [| exact Hst].
    unfold loadedSettings. destruct (storedSettings w) as [s |].
    + apply Hst. reflexivity.
    + constructor.
Qed.

Lemma apply_Forall (P : Order -> Prop) ev w :
  (forall newId target amt,
      25 <= amt -> 0 < target -> P (newOrder newId target amt)) ->
  (forall price now vault o, P o -> P (fill price now vault o)) ->
  Forall P (orders (settings w)) ->
  (forall s, storedSettings w = Some s -> Forall P (orders s)) ->
  Forall P (orders (settings (apply ev w))) /\
  (forall s, storedSettings (apply ev w) = Some s -> Forall P (orders s)).
Proof.
  intros Pnew Pfill H Hst.
  assert (D : ev = Reload false \/ ev <> Reload false).
  { destruct ev; try (right; discriminate).
    destruct onVaultPage; [right; discriminate | left; reflexivity]. }
  destruct D as [-> | Hv].
  - simpl. split; [constructor | exact Hst].
  - apply (Change_Forall P w); auto. apply Change_apply, Hv.
Qed.

Lemma init_Forall (P : Order -> Prop) v stored persisted al :
  (forall s, stored = Some s -> Forall P (orders s)) ->
  Forall P (orders (settings (init v stored persisted al))) /\
  (forall s, storedSettings (init v stored persisted al) = Some s ->
             Forall P (orders s)).
Proof.
  intro Hst. unfold init. destruct v; simpl.
  - assert (L : Forall P (orders match stored with
                                 | Some s => s
                                 | None => DEFAULT_SETTINGS
                                 end)).
    { destruct stored as [s |]; [apply Hst; reflexivity | constructor]. }
    destruct (wasRunning persisted), (wasBuying persisted); simpl;
      split; assumption.
  - split; [constructor | exact Hst].
Qed.

Lemma run_Forall (P : Order -> Prop) evs w :
  (forall newId target amt,
      25 <= amt -> 0 < target -> P (newOrder newId target amt)) ->
  (forall price now vault o, P o -> P (fill price now vault o)) ->
  Forall P (orders (settings w)) ->
  (forall s, storedSettings w = Some s -> Forall P (orders s)) ->
  Forall P (orders (settings (run evs w))) /\
  (forall s, storedSettings (run evs w) = Some s -> Forall P (orders s)).
Proof.
  intros Pnew Pfill. revert w.
  induction evs as [| ev evs IH]; intros w H Hst.
  - split; assumption.
  - rewrite run_cons.
    destruct (apply_Forall P ev w Pnew Pfill H Hst) as [H' Hst'].
    apply IH; assumption.
Qed.

(** X1.  Whatever the events, the orders of the collection and of its stored
    copy have an amount of at least 25 and a positive target price, when
    the orders the page was first loaded with have. *)
Theorem orders_stay_admissible (onVaultPage : bool)
    (stored : option Settings) (persisted : option Persisted.t)
    (al : option Z) (evs : list Event) :
  (forall s, stored = Some s -> Forall admissible (orders s)) ->
  let w := run evs (init onVaultPage stored persisted al) in
  Forall admissible (orders (settings w)) /\
  (forall s, storedSettings w = Some s -> Forall admissible (orders s)).
Proof.
  intros Hst w. unfold w.
  destruct (init_Forall admissible onVaultPage stored persisted al Hst)
    as [H0 H1].
  apply run_Forall; try assumption.
  - intros newId t a Ha Ht. split; assumption.
  - intros p n v o H. exact H.
Qed.

(** The README orders through adds that are refused and one that is
    let in. *)
Lemma orders_stay_admissible_readme :
  let w :=
    run [ClickAdd "d" (Some 4) (Some 3) (Some 24);
         ClickAdd "e" (Some 4) (Some 3) (Some 40); ClickRemove "a"]
        (init true (Some (readmeSettings 300)) None None) in
  Forall admissible (orders (settings w)) /\
  (forall s, storedSettings w = Some s -> Forall admissible (orders s)).
Proof.
  apply (orders_stay_admissible true (Some (readmeSettings 300)) None None).
  intros s E. inversion E; subst.
  repeat constructor; simpl; lra.
Defined.

(** ** The settings and their stored copy *)

Lemma Change_loadable w w' :
  Change w w' ->
  settings w = loadedSettings (storedSettings w) ->
  settings w' = loadedSettings (storedSettings w').
Proof.
  intros C H.
  destruct C as [H1 H2 | H1 H2 | newId t a Ha Ht Hb H1 H2
                 | l1 x l2 Hs H1 H2 | e o rest n v He Hm H1 H2 | H1 H2];
    rewrite H2; try reflexivity; congruence.
Qed.

Lemma run_loadable evs w :
  onVault evs ->
  settings w = loadedSettings (storedSettings w) ->
  settings (run evs w) = loadedSettings (storedSettings (run evs w)).
Proof.
  intro V. revert w. induction V as [| ev evs Hev V IH]; intros w H.
  - exact H.
  - rewrite run_cons. apply IH.
    apply (Change_loadable w); [apply Change_apply, Hev | exact H].
Qed.

Lemma init_vault_settings stored persisted al :
  settings (init true stored persisted al) = loadedSettings stored /\
  storedSettings (init true stored persisted al) = stored.
Proof.
  unfold init. simpl.
  destruct (wasRunning persisted), (wasBuying persisted); split; reflexivity.
Qed.

(** X2.  On the vault page the settings in memory are at all times what
    [loadSettings] would read back: every handler that changes them saves
    them before anything else runs.  A reload of the page, or the one the
    refresh alarm causes, therefore comes back with the same budget,
    interval and orders. *)
Theorem settings_survive_reload (stored : option Settings)
    (persisted : option Persisted.t) (al : option Z) (evs : list Event) :
  onVault evs ->
  let w := run evs (init true stored persisted al) in
  settings w = loadedSettings (storedSettings w) /\
  settings (apply (Reload true) w) = settings w /\
  settings (apply AlarmFires w) = settings w.
Proof.
  intros V w.
  assert (L : settings w = loadedSettings (storedSettings w)).
  { unfold w. apply run_loadable; [exact V |].
    destruct (init_vault_settings stored persisted al) as [-> ->].
    reflexivity. }
  split; [exact L |]. split.
  - cbn [apply].
    destruct (init_vault_settings (storedSettings w) (runningState w)
                (alarm w)) as [-> _].
    symmetry. exact L.
  - cbn [apply]. unfold alarmFired.
    destruct (alarm w); [| reflexivity].
    destruct (wasBuying (runningState w)); [reflexivity |].
    destruct (init_vault_settings (storedSettings w) (runningState w) None)
      as [-> _].
    symmetry. exact L.
Qed.

(** The README orders: the budget is changed, an order is added while the
    batch of the first three is in its second step, and the page is
    reloaded. *)
Lemma settings_survive_reload_readme :
  let w :=
    run [ClickSave (Some 500) (Some 3%Z); ClickStart;
         CheckPrice (Some (290 # 100)); TickResumes 0;
         StepSettles 0 StepOk 0%Z None;
         ClickAdd "d" (Some (290 # 100)) (Some (280 # 100)) (Some 50);
         Reload true]
        (init true (Some (readmeSettings 300)) None None) in
  settings w = loadedSettings (storedSettings w) /\
  settings (apply (Reload true) w) = settings w /\
  settings (apply AlarmFires w) = settings w.
Proof.
  apply (settings_survive_reload (Some (readmeSettings 300)) None None).
  repeat constructor; discriminate.
Defined.

(** ** The stored flags *)

Lemma mirrored_frame w w' :
  STATE w' = STATE w -> runningState w' = runningState w ->
  mirrored w -> mirrored w'.
Proof. unfold mirrored. intros -> ->. auto. Qed.

Lemma mirrored_persistState w : mirrored (persistState w).
Proof. split; reflexivity. Qed.

Lemma mirrored_scheduleRefresh w : mirrored w -> mirrored (scheduleRefresh w).
Proof.
  unfold scheduleRefresh. destruct (isRunning (STATE w)); [| auto].
  apply mirrored_frame; reflexivity.
Qed.

Lemma mirrored_stopMonitoring w : mirrored (stopMonitoring w).
Proof. split; reflexivity. Qed.

Lemma mirrored_startMonitoring w : mirrored w -> mirrored (startMonitoring w).
Proof.
  intro M. unfold startMonitoring. branches; try exact M.
  split; reflexivity.
Qed.

Lemma mirrored_finallyBlock w : mirrored (finallyBlock w).
Proof.
  unfold finallyBlock. apply mirrored_scheduleRefresh, mirrored_persistState.
Qed.

Lemma mirrored_entry l p w :
  mirrored w -> mirrored (fst (executeBatchBuyProcess_entry l p w)).
Proof.
  intro M. unfold executeBatchBuyProcess_entry. branches; simpl; try exact M.
  split; reflexivity.
Qed.

Lemma mirrored_markLoop e l now vault w :
  mirrored w -> mirrored (fst (markLoop e l now vault w)).
Proof.
  intro M. unfold markLoop, markOrderExecuted_begin.
  destruct l as [| o rest]; [split; reflexivity |].
  destruct (existsb _ _); simpl; [| exact M].
  revert M. apply mirrored_frame; reflexivity.
Qed.

Lemma mirrored_stepSettled r now vault e w :
  mirrored w -> mirrored (fst (stepSettled r now vault e w)).
Proof.
  intro M. unfold stepSettled.
  destruct (suspended e), r; simpl;
    try exact M; try (split; reflexivity);
    try apply mirrored_finallyBlock.
  apply mirrored_markLoop, M.
Qed.

Lemma mirrored_writeSettled now vault e w :
  mirrored w -> mirrored (fst (writeSettled now vault e w)).
Proof.
  intro M. unfold writeSettled.
  destruct (suspended e); simpl;
    try exact M; try apply mirrored_finallyBlock.
  apply mirrored_markLoop. revert M.
  apply mirrored_frame; destruct saving; reflexivity.
Qed.

Lemma mirrored_checkPriceAndBuy p w :
  mirrored w -> mirrored (checkPriceAndBuy p w).
Proof.
  intro M. unfold checkPriceAndBuy.
  destruct (negb (isRunning (STATE w))); [exact M |].
  destruct (buyProcessStarted (STATE w)); [exact M |].
  destruct (budgetNotConfigured (settings w));
    [apply mirrored_stopMonitoring |].
  destruct p; [| apply mirrored_scheduleRefresh, M].
  revert M. apply mirrored_frame; reflexivity.
Qed.

Lemma mirrored_checkPriceAndBuy_resumed p w :
  mirrored w -> mirrored (fst (checkPriceAndBuy_resumed p w)).
Proof.
  intro M. unfold checkPriceAndBuy_resumed.
  destruct (getPendingOrders (settings w));
    [apply mirrored_scheduleRefresh, M |].
  destruct (findExecutableOrders p (settings w));
    [apply mirrored_scheduleRefresh, M |].
  destruct (Batch.orders _); [apply mirrored_stopMonitoring |].
  apply mirrored_entry, M.
Qed.

Lemma mirrored_init_vault stored persisted al :
  mirrored (init true stored persisted al).
Proof.
  unfold init, mirrored. simpl.
  destruct (wasRunning persisted) eqn:R, (wasBuying persisted) eqn:B;
    simpl; auto.
Qed.

Lemma mirrored_apply ev w :
  ev <> Reload false -> mirrored w -> mirrored (apply ev w).
Proof.
  intros Hv M. destruct ev; cbn [apply].
  - apply mirrored_startMonitoring, M.
  - apply mirrored_stopMonitoring.
  - unfold saveClicked. apply mirrored_scheduleRefresh. revert M.
    apply mirrored_frame; reflexivity.
  - unfold addClicked.
    destruct (addOrderClicked _ _ _ _ _) as [s' [m | o]]; [exact M |].
    match goal with
    | |- context [if ?c then _ else _] => destruct c
    end.
    + apply mirrored_startMonitoring, mirrored_stopMonitoring.
    + revert M. apply mirrored_frame; reflexivity.
  - unfold removeClicked. branches; exact M.
  - destruct (checks w); [exact M |].
    apply mirrored_checkPriceAndBuy. revert M.
    apply mirrored_frame; reflexivity.
  - destruct (nth_error (ticks w) i) as [p |]; [| exact M].
    assert (M' : mirrored (setTicks (dropAt i (ticks w)) w))
      by (revert M; apply mirrored_frame; reflexivity).
    apply (mirrored_checkPriceAndBuy_resumed p) in M'.
    destruct (checkPriceAndBuy_resumed p _) as [w' [e |]]; simpl in M';
      [| exact M'].
    revert M'. apply mirrored_frame; reflexivity.
  - destruct (nth_error (executions w) i) as [e |]; [| exact M].
    apply (mirrored_stepSettled r now vault e) in M.
    destruct (stepSettled r now vault e w) as [w' k]. simpl in M.
    revert M. apply mirrored_frame; reflexivity.
  - destruct (nth_error (executions w) i) as [e |]; [| exact M].
    apply (mirrored_writeSettled now vault e) in M.
    destruct (writeSettled now vault e w) as [w' k]. simpl in M.
    revert M. apply mirrored_frame; reflexivity.
  - destruct onVaultPage; [| congruence]. apply mirrored_init_vault.
  - unfold alarmFired. destruct (alarm w); [| exact M].
    destruct (wasBuying (runningState w));
      [| apply mirrored_init_vault].
    revert M. apply mirrored_frame; reflexivity.
Qed.

Lemma mirrored_run evs w :
  onVault evs -> mirrored w -> mirrored (run evs w).
Proof.
  intro V. revert w. induction V as [| ev evs Hev V IH]; intros w M.
  - exact M.
  - rewrite run_cons. apply IH, mirrored_apply; assumption.
Qed.

(** X3.  On the vault page the two flags stored under [runningState] are at
    all times those of [STATE]: [isRunning] and [buyProcessStarted] are
    never assigned without a [persistState()] before the next await.
    Hence, while an execution is alive, the alarm handler of the
    background worker finds the stored flag set and leaves the page
    alone, with its settings, its state and the execution; and a reload
    of the page comes back monitoring exactly when it was monitoring. *)
Theorem stored_flags_mirror_STATE (stored : option Settings)
    (persisted : option Persisted.t) (al : option Z) (evs : list Event) :
  onVault evs ->
  let w := run evs (init true stored persisted al) in
  wasRunning (runningState w) = isRunning (STATE w) /\
  wasBuying (runningState w) = buyProcessStarted (STATE w) /\
  (executions w <> [] ->
   settings (apply AlarmFires w) = settings w /\
   STATE (apply AlarmFires w) = STATE w /\
   executions (apply AlarmFires w) = executions w /\
   storedSettings (apply AlarmFires w) = storedSettings w) /\
  isRunning (STATE (apply (Reload true) w)) = isRunning (STATE w) /\
  buyProcessStarted (STATE (apply (Reload true) w)) = false.
Proof.
  intros V w.
  assert (M : mirrored w).
  { unfold w. apply mirrored_run; [exact V | apply mirrored_init_vault]. }
  assert (C : coherent (inFlight w)).
  { unfold w. apply coherent_run, coherent_init. }
  destruct M as [Mr Mb].
  split; [exact Mr |]. split; [exact Mb |]. split.
  - intro Hne. cbn [apply]. unfold alarmFired.
    destruct (alarm w); [| repeat split].
    assert (B : buyProcessStarted (STATE w) = true).
    { unfold inFlight, coherent in C.
      destruct (executions w) as [| e [| e' r]];
        [congruence | tauto | contradiction]. }
    rewrite Mb, B. repeat split.
  - cbn [apply]. unfold init. simpl. rewrite Mr.
    destruct (isRunning (STATE w)), (wasBuying (runningState w));
      split; reflexivity.
Qed.

(** The README orders: the alarm fires while the batch waits for its
    second step. *)
Lemma stored_flags_mirror_STATE_readme :
  let w :=
    run [ClickStart; CheckPrice (Some (290 # 100)); TickResumes 0;
         StepSettles 0 StepOk 0%Z None]
        (init true (Some (readmeSettings 300)) None None) in
  wasRunning (runningState w) = isRunning (STATE w) /\
  wasBuying (runningState w) = buyProcessStarted (STATE w) /\
  (executions w <> [] ->
   settings (apply AlarmFires w) = settings w /\
   STATE (apply AlarmFires w) = STATE w /\
   executions (apply AlarmFires w) = executions w /\
   storedSettings (apply AlarmFires w) = storedSettings w) /\
  isRunning (STATE (apply (Reload true) w)) = isRunning (STATE w) /\
  buyProcessStarted (STATE (apply (Reload true) w)) = false.
Proof.
  apply (stored_flags_mirror_STATE (Some (readmeSettings 300)) None None).
  repeat constructor; discriminate.
Defined.

(** ** Spending stays within the budget *)


Lemma admissible_nonneg o : admissible o -> 0 <= amount o.
Proof. intros [H _]. lra. Qed.

Lemma calculateTotalSpent_orders s s' :
  orders s' = orders s -> calculateTotalSpent s' = calculateTotalSpent s.
Proof.
  unfold calculateTotalSpent, getExecutedOrders. intros ->. reflexivity.
Qed.

Lemma calculateTotalSpent_add s newId target amt :
  calculateTotalSpent
    (with_orders s (orders s ++ [newOrder newId target amt])) =
  calculateTotalSpent s.
Proof.
  unfold calculateTotalSpent, getExecutedOrders. simpl.
  rewrite filter_app. simpl. rewrite app_nil_r. reflexivity.
Qed.

Lemma calculateTotalSpent_remove s l1 x l2 :
  orders s = l1 ++ x :: l2 -> 0 <= amount x ->
  calculateTotalSpent (with_orders s (l1 ++ l2)) <= calculateTotalSpent s.
Proof.
  unfold calculateTotalSpent, getExecutedOrders. simpl. intros -> Hx.
  rewrite !filter_app. simpl.
  pose proof (sumAmounts_app (filter isExecuted l1) (filter isExecuted l2))
    as A1.
  destruct (isExecuted x).
  - pose proof (sumAmounts_app (filter isExecuted l1)
                  (x :: filter isExecuted l2)) as A2.
    pose proof (sumAmounts_cons x (filter isExecuted l2)) as A3.
    lra.
  - lra.
Qed.

(** [capOk] goes through a change that leaves the activations and the
    counter alone, does not raise the sum of the executed orders, and
    brings no order with the id of one still to mark. *)
Lemma capOk_change w w' :
  executions w' = executions w ->
  totalSpent (STATE w') = totalSpent (STATE w) ->
  calculateTotalSpent (settings w') <= calculateTotalSpent (settings w) ->
  (forall e o o',
      In e (executions w) -> In o (toMark e) ->
      In o' (orders (settings w')) -> id o' = id o ->
      In o' (orders (settings w))) ->
  capOk w -> capOk w'.
Proof.
  unfold capOk. intros -> -> Hle Hin.
  destruct (executions w) as [| e r]; [intro H; lra |].
  intros (Hc & Ha & Hs & Hcap). repeat split; try assumption.
  - intros o o' Ho Ho' Eid. apply Hs; try assumption.
    apply (Hin e o o'); try assumption. left. reflexivity.
  - lra.
Qed.

Lemma capOk_frame w w' :
  executions w' = executions w ->
  totalSpent (STATE w') = totalSpent (STATE w) ->
  orders (settings w') = orders (settings w) ->
  capOk w -> capOk w'.
Proof.
  intros He Ht Ho. apply capOk_change; try assumption.
  - rewrite (calculateTotalSpent_orders _ _ Ho). lra.
  - intros e o o' _ _ H _. rewrite <- Ho. exact H.
Qed.

(** One call of [markOrderExecuted] of the loop. *)
Lemma mark_cap s st o rest price now vault spent slack :
  ledgerOk s st (o :: rest) -> admissible o -> sameOrder (o :: rest) s ->
  calculateTotalSpent s <= spent + slack ->
  let s' :=
    if existsb (fun y => String.eqb (id y) (id o)) (orders s)
    then markOrderExecuted (id o) price now vault s else s in
  sameOrder rest s' /\ calculateTotalSpent s' <= spent + (slack + amount o).
Proof.
  intros (N & _ & _ & Nl & Hp) Ha Hsame Hcap.
  apply admissible_nonneg in Ha.
  destruct (existsb (fun y => String.eqb (id y) (id o)) (orders s)) eqn:E;
    simpl.
  - apply existsb_exists in E. destruct E as (y & Hy & Ey).
    apply String.eqb_eq in Ey.
    assert (Eo : y = o)
      by (apply Hsame; [left; reflexivity | exact Hy | exact Ey]).
    subst y.
    assert (Hpend : status o = pending)
      by (apply (Hp o o); [left; reflexivity | exact Hy | reflexivity]).
    split.
    + intros x o' Hx Ho' Eid. simpl in Ho'.
      apply fillFirst_In in Ho'. destruct Ho' as (z & Hz & Ez & Hne).
      assert (Hxo : id x <> id o).
      { simpl in Nl. inversion Nl as [| a l Hnot Hrest]; subst.
        intro Q. apply Hnot. rewrite <- Q. apply in_map, Hx. }
      assert (Ez' : o' = z) by (apply Hne; congruence).
      subst o'. apply Hsame; [right; exact Hx | exact Hz | exact Eid].
    + rewrite calculateTotalSpent_mark_pending; try assumption. lra.
  - split; [| lra].
    intros x o' Hx. apply Hsame. right. exact Hx.
Qed.

Lemma capFor_markLoop e l now vault w :
  ledgerOk (settings w) (storedSettings w) l ->
  combinedAmount e = sumAmounts (batch e) ->
  Forall admissible l -> sameOrder l (settings w) ->
  calculateTotalSpent (settings w)
  <= totalSpent (STATE w) + (combinedAmount e - sumAmounts l) ->
  exists e',
    snd (markLoop e l now vault w) = Some e' /\
    capFor e' (settings (fst (markLoop e l now vault w)))
      (totalSpent (STATE (fst (markLoop e l now vault w)))).
Proof.
  intros L Hc Ha Hs Hcap. unfold markLoop.
  destruct l as [| o rest].
  - eexists. split; [reflexivity |]. unfold capFor, owed. simpl.
    repeat split; try assumption; try constructor.
    change (sumAmounts []) with 0 in Hcap. lra.
  - unfold markOrderExecuted_begin.
    inversion Ha as [| a r Hao Har]; subst.
    pose proof (mark_cap _ _ o rest (executionPrice e) now vault
                  (totalSpent (STATE w))
                  (combinedAmount e - sumAmounts (o :: rest))
                  L Hao Hs Hcap) as [S' C'].
    pose proof (sumAmounts_cons o rest) as A.
    destruct (existsb (fun o0 => String.eqb (id o0) (id o))
                (orders (settings w)));
      eexists; (split; [reflexivity |]); unfold capFor, owed, toMark; simpl;
      repeat split; try assumption; lra.
Qed.

Lemma capFor_stepSettled r now vault e w :
  ledgerOk (settings w) (storedSettings w) (toMark e) ->
  capFor e (settings w) (totalSpent (STATE w)) ->
  match snd (stepSettled r now vault e w) with
  | Some e' =>
      capFor e' (settings (fst (stepSettled r now vault e w)))
        (totalSpent (STATE (fst (stepSettled r now vault e w))))
  | None =>
      calculateTotalSpent (settings (fst (stepSettled r now vault e w)))
      <= totalSpent (STATE (fst (stepSettled r now vault e w)))
  end.
Proof.
  intros L (Hc & Ha & Hs & Hcap).
  destruct e as [b p c pc]. unfold stepSettled, owed, toMark in *.
  simpl in *.
  destruct pc, r; simpl in *;
    try (unfold capFor, owed, toMark; simpl; repeat split; assumption);
    try (destruct (finallyBlock_fields w) as (_ & _ & _ & _ & -> & _);
         destruct (finallyBlock_counters w) as (_ & -> & _);
         subst c; lra).
  destruct (capFor_markLoop (mkExecution b p c AtStep3) b now vault w
              L Hc Ha Hs Hcap) as (e' & -> & H).
  exact H.
Qed.

Lemma capFor_writeSettled now vault e w :
  ledgerOk (settings w) (storedSettings w) (toMark e) ->
  capFor e (settings w) (totalSpent (STATE w)) ->
  match snd (writeSettled now vault e w) with
  | Some e' =>
      capFor e' (settings (fst (writeSettled now vault e w)))
        (totalSpent (STATE (fst (writeSettled now vault e w))))
  | None =>
      calculateTotalSpent (settings (fst (writeSettled now vault e w)))
      <= totalSpent (STATE (fst (writeSettled now vault e w)))
  end.
Proof.
  intros L (Hc & Ha & Hs & Hcap).
  destruct e as [b p c pc]. unfold writeSettled, owed, toMark in *.
  simpl in *.
  destruct pc; simpl in *;
    try (unfold capFor, owed, toMark; simpl; repeat split; assumption).
  - destruct (markOrderExecuted_end_frame saving w)
      as (Es & Et & _ & _ & _ & _ & _ & Est).
    destruct (capFor_markLoop (mkExecution b p c (Marking saving rest)) rest
                now vault (markOrderExecuted_end saving w)) as (e' & -> & H);
      try assumption.
    + rewrite Es, Est. exact L.
    + rewrite Es. exact Hs.
    + rewrite Es, Et. exact Hcap.
  - destruct (finallyBlock_fields w) as (_ & _ & _ & _ & -> & _).
    destruct (finallyBlock_counters w) as (_ & -> & _). lra.
Qed.

Lemma startMonitoring_totalSpent w :
  totalSpent (STATE (startMonitoring w)) = totalSpent (STATE w) /\
  executions (startMonitoring w) = executions w.
Proof. unfold startMonitoring. branches; split; reflexivity. Qed.

Lemma checkPriceAndBuy_totalSpent price w :
  totalSpent (STATE (checkPriceAndBuy price w)) = totalSpent (STATE w).
Proof.
  unfold checkPriceAndBuy, scheduleRefresh, stopMonitoring.
  branches; reflexivity.
Qed.

(** What [checkPriceAndBuy] does after its await: the settings, their
    stored copy and the counter are as before, and an execution starts
    only while monitoring runs and none is in progress, with the orders
    that [validateBatchExecution] selected, of which there is one at
    least. *)
Lemma checkPriceAndBuy_resumed_cases p w :
  settings (fst (checkPriceAndBuy_resumed p w)) = settings w /\
  executions (fst (checkPriceAndBuy_resumed p w)) = executions w /\
  totalSpent (STATE (fst (checkPriceAndBuy_resumed p w))) =
  totalSpent (STATE w) /\
  forall e, snd (checkPriceAndBuy_resumed p w) = Some e ->
    isRunning (STATE w) = true /\ buyProcessStarted (STATE w) = false /\
    batch e <> [] /\
    batch e =
      Batch.orders
        (validateBatchExecution (findExecutableOrders p (settings w))
           (maxBudget (settings w)) (totalSpent (STATE w))) /\
    combinedAmount e = sumAmounts (batch e) /\
    suspended e = AtStep1 /\ executionPrice e = p.
Proof.
  unfold checkPriceAndBuy_resumed, scheduleRefresh.
  destruct (getPendingOrders (settings w));
    [branches; repeat split; discriminate |].
  destruct (findExecutableOrders p (settings w));
    [branches; repeat split; discriminate |].
  destruct (Batch.orders _); [repeat split; discriminate |].
  unfold executeBatchBuyProcess_entry.
  destruct (isRunning (STATE w)), (buyProcessStarted (STATE w)); simpl;
    (split; [reflexivity |]); (split; [reflexivity |]);
    (split; [reflexivity |]);
    intros e E; inversion E; subst; simpl; repeat split; discriminate.
Qed.

Lemma addClicked_frame newId cp tf af w :
  executions (addClicked newId cp tf af w) = executions w /\
  totalSpent (STATE (addClicked newId cp tf af w)) = totalSpent (STATE w).
Proof.
  unfold addClicked.
  destruct (addOrderClicked newId cp tf af (settings w)) as [s' [m | o]];
    [split; reflexivity |].
  match goal with
  | |- context [if ?c then _ else _] => destruct c
  end; [| split; reflexivity].
  destruct (startMonitoring_totalSpent
              (stopMonitoring
                 (renderOrders (saveSettings (setSettings s' w)))))
    as [-> ->].
  split; reflexivity.
Qed.

Lemma capOk_init v stored persisted al : capOk (init v stored persisted al).
Proof.
  unfold init, capOk. destruct v; simpl.
  - destruct (wasRunning persisted), (wasBuying persisted); simpl;
      apply Qle_refl.
  - apply Qle_refl.
Qed.

Lemma unusedId_freshId ev w : unusedId ev w -> freshId ev w.
Proof. destruct ev; simpl; tauto. Qed.

Lemma unusedIds_freshIds evs w : unusedIds evs w -> freshIds evs w.
Proof.
  revert w. induction evs as [| ev evs IH]; intros w; simpl; [tauto |].
  intros [H1 H2]. split; [apply unusedId_freshId, H1 | apply IH, H2].
Qed.

Lemma capOk_one w e :
  executions w = [e] -> capOk w ->
  capFor e (settings w) (totalSpent (STATE w)).
Proof. unfold capOk. intros ->. auto. Qed.

Lemma capOk_piece w0 (f : World * option Execution) l :
  executions (fst f) = [l] ->
  match snd f with
  | Some e' => capFor e' (settings (fst f)) (totalSpent (STATE (fst f)))
  | None => calculateTotalSpent (settings (fst f)) <= totalSpent (STATE (fst f))
  end ->
  w0 = setExecutions (putAt 0 (snd f) (executions (fst f))) (fst f) ->
  capOk w0.
Proof.
  intros Hx H ->. unfold capOk. simpl. rewrite Hx.
  destruct (snd f); simpl; exact H.
Qed.

Lemma capOk_apply ev w :
  wellKept w -> Forall admissible (orders (settings w)) ->
  unusedId ev w -> capOk w -> capOk (apply ev w).
Proof.
  intros HK HA HU HC. destruct ev; cbn [apply].
  - destruct (startMonitoring_totalSpent w) as [Ht He].
    apply (capOk_frame w); try assumption.
    rewrite startMonitoring_settings. reflexivity.
  - apply (capOk_frame w); [reflexivity .. | exact HC].
  - apply (capOk_frame w); [| | | exact HC];
      unfold saveClicked, scheduleRefresh; branches; reflexivity.
  - (* Add *)
    destruct (addClicked_frame newId currentPrice targetField amountField w)
      as [He Ht].
    pose proof (Change_apply
                  (ClickAdd newId currentPrice targetField amountField) w)
      as C.
    cbn [apply] in C.
    assert (S : settings (addClicked newId currentPrice targetField
                            amountField w) = settings w \/
                exists t a,
                  settings (addClicked newId currentPrice targetField
                              amountField w) =
                  with_orders (settings w)
                    (orders (settings w) ++ [newOrder newId t a])).
    { unfold addClicked.
      destruct (addOrderClicked newId currentPrice targetField amountField
                  (settings w)) as [s' [m | o]] eqn:E; [left; reflexivity |].
      apply addOrderClicked_admits in E.
      destruct E as (t & a & _ & _ & _ & -> & ->).
      right. exists t, a.
      match goal with
      | |- context [if ?c then _ else _] => destruct c
      end; rewrite ?startMonitoring_settings; reflexivity. }
    clear C.
    destruct S as [S | (t & a & S)].
    + apply (capOk_frame w); try assumption. rewrite S. reflexivity.
    + apply (capOk_change w); try assumption.
      * rewrite S, calculateTotalSpent_add. apply Qle_refl.
      * intros e o o' Hin Ho Ho' Eid. rewrite S in Ho'. simpl in Ho'.
        apply in_app_or in Ho'. destruct Ho' as [Ho' | [<- | []]];
          [exact Ho' |].
        exfalso. simpl in HU. destruct HU as [_ HU].
        apply (HU e Hin). simpl in Eid. rewrite Eid. apply in_map, Ho.
  - (* Remove *)
    unfold removeClicked.
    destruct (existsb (String.eqb oid) (removeButtons w)); [| exact HC].
    destruct (JS.findIndex _ _); [| exact HC].
    destruct (removeOrder_cases oid (settings w))
      as [E | (l1 & x & l2 & Hs & _ & _ & E)].
    + apply (capOk_frame w); try reflexivity; [| exact HC].
      simpl. rewrite E. reflexivity.
    + apply (capOk_change w); try reflexivity; [| | exact HC].
      * simpl. rewrite E. apply (calculateTotalSpent_remove _ _ x _ Hs).
        apply admissible_nonneg.
        rewrite Hs in HA. apply Forall_app in HA. destruct HA as [_ HA].
        inversion HA; assumption.
      * intros e o o' _ _ Ho' _. simpl in Ho'. rewrite E in Ho'.
        simpl in Ho'. rewrite Hs. apply in_app_or in Ho'. apply in_or_app.
        destruct Ho'; [left | right; right]; assumption.
  - (* CheckPrice *)
    destruct (checks w); [exact HC |].
    pose proof (kept_checkPriceAndBuy currentPrice n w) as K.
    unfold kept in K. inversion K as [[Ks Kst Ke]].
    apply (capOk_frame w); try assumption.
    + rewrite checkPriceAndBuy_totalSpent. reflexivity.
    + rewrite Ks. reflexivity.
  - (* TickResumes *)
    destruct (nth_error (ticks w) i) as [p |]; [| exact HC].
    destruct (checkPriceAndBuy_resumed_cases p
                (setTicks (dropAt i (ticks w)) w)) as (Hs & He & Ht & Hk).
    destruct (checkPriceAndBuy_resumed p (setTicks (dropAt i (ticks w)) w))
      as [w' [e |]]; simpl in Hs, He, Ht, Hk.
    + destruct (Hk e eq_refl) as (Hr & Hb & Hne & Hsel & Hc & Hp & _).
      destruct HK as (Hcoh & (N & _) & _).
      assert (Hnone : executions w = []).
      { unfold coherent, inFlight in Hcoh.
        destruct (executions w) as [| e0 [| e1 r]];
          [reflexivity | | contradiction].
        destruct Hcoh as [F _]. congruence. }
      unfold capOk in *. simpl. rewrite He, Hnone. simpl.
      rewrite Hnone in HC. rewrite Hs, Ht.
      assert (Hin : forall o, In o (toMark e) ->
                               In o (orders (settings w))).
      { intros o Ho. unfold toMark in Ho. rewrite Hp, Hsel in Ho.
        apply selected_orders_executable in Ho. tauto. }
      unfold capFor. repeat split.
      * exact Hc.
      * apply Forall_forall. intros o Ho.
        apply (proj1 (Forall_forall _ _) HA), Hin, Ho.
      * intros o o' Ho Ho' Eid.
        apply (unique_by_id (orders (settings w))); auto.
      * unfold owed, toMark. rewrite Hp, Hc. lra.
    + apply (capOk_frame w); try assumption. rewrite Hs. reflexivity.
  - (* StepSettles *)
    destruct (nth_error (executions w) i) as [e |] eqn:En; [| exact HC].
    destruct (coherent_one w i e (proj1 HK) En) as (Hex & -> & _).
    destruct (stepSettled_ledger r now vault e w) as (Hx & _).
    assert (L : ledgerOk (settings w) (storedSettings w) (toMark e)).
    { destruct HK as (_ & _ & Le). apply Le. rewrite Hex. left. reflexivity. }
    pose proof (capFor_stepSettled r now vault e w L (capOk_one w e Hex HC))
      as H.
    destruct (stepSettled r now vault e w) as [w' k] eqn:E.
    apply (capOk_piece _ (w', k) e); [| exact H | reflexivity].
    simpl in *. congruence.
  - (* WriteSettles *)
    destruct (nth_error (executions w) i) as [e |] eqn:En; [| exact HC].
    destruct (coherent_one w i e (proj1 HK) En) as (Hex & -> & _).
    destruct (writeSettled_ledger now vault e w) as (Hx & _).
    assert (L : ledgerOk (settings w) (storedSettings w) (toMark e)).
    { destruct HK as (_ & _ & Le). apply Le. rewrite Hex. left. reflexivity. }
    pose proof (capFor_writeSettled now vault e w L (capOk_one w e Hex HC))
      as H.
    destruct (writeSettled now vault e w) as [w' k] eqn:E.
    apply (capOk_piece _ (w', k) e); [| exact H | reflexivity].
    simpl in *. congruence.
  - apply capOk_init.
  - unfold alarmFired. destruct (alarm w); [| exact HC].
    destruct (wasBuying (runningState w)); [| apply capOk_init].
    apply (capOk_frame w); [reflexivity .. | exact HC].
Qed.

Lemma admissible_newOrder newId target amt :
  25 <= amt -> 0 < target -> admissible (newOrder newId target amt).
Proof. intros Ha Ht. split; assumption. Qed.




(** ** A click on Stop during an execution *)

Lemma stoppedOf_stopMonitoring w : stoppedOf (stopMonitoring w) w.
Proof. repeat split. Qed.

Lemma stoppedOf_apply ev w1 w2 :
  resumesExecution ev = true -> stoppedOf w1 w2 ->
  stoppedOf (apply ev w1) (apply ev w2).
Proof.
  intros Hev (Hs & Hst & Hb & He & Hss & Ha).
  destruct w1 as [s1 st1 b1 c1 t1 e1 ss1 r1 a1].
  destruct w2 as [s2 st2 b2 c2 t2 e2 ss2 r2 a2].
  simpl in *. subst.
  destruct ev; try discriminate; cbn [apply]; simpl executions.
  - destruct (nth_error e2 i) as [e |]; [| repeat split].
    unfold stepSettled, markLoop, markOrderExecuted_begin, finallyBlock,
      scheduleRefresh.
    destruct (suspended e), r; simpl;
      try (destruct (isRunning st2); repeat split; fail);
      try (repeat split; fail).
    destruct (batch e) as [| o l]; simpl; [repeat split |].
    destruct (existsb _ _); repeat split.
  - destruct (nth_error e2 i) as [e |]; [| repeat split].
    unfold writeSettled, markLoop, markOrderExecuted_begin,
      markOrderExecuted_end, finallyBlock, scheduleRefresh.
    destruct (suspended e) as [| | | saving rest |]; simpl;
      try (destruct (isRunning st2); repeat split; fail);
      try (repeat split; fail).
    destruct rest as [| o l], saving; simpl; try (repeat split; fail);
      destruct (existsb _ _); repeat split.
Qed.

Lemma stoppedOf_run evs w1 w2 :
  Forall (fun ev => resumesExecution ev = true) evs ->
  stoppedOf w1 w2 -> stoppedOf (run evs w1) (run evs w2).
Proof.
  intro H. revert w1 w2.
  induction H as [| ev evs Hev H IH]; intros w1 w2 R.
  - exact R.
  - rewrite !run_cons. apply IH, stoppedOf_apply; assumption.
Qed.

(** X5.  A click on Stop does not abort the execution that is in progress.
    Through the resumptions of the execution that follow, the orders,
    their stored copy, the activations and every field of [STATE] but
    [isRunning] are what they are without the click: the steps go on,
    the orders are marked and the counters raised.  What differs is that
    monitoring is off and that no refresh is scheduled, also after the
    [finally] block. *)
Theorem stop_does_not_abort_execution (w : World) (evs : list Event) :
  Forall (fun ev => resumesExecution ev = true) evs ->
  let w1 := run evs (apply ClickStop w) in
  let w2 := run evs w in
  settings w1 = settings w2 /\
  storedSettings w1 = storedSettings w2 /\
  executions w1 = executions w2 /\
  removeButtons w1 = removeButtons w2 /\
  buyProcessStarted (STATE w1) = buyProcessStarted (STATE w2) /\
  currentStep (STATE w1) = currentStep (STATE w2) /\
  totalSpent (STATE w1) = totalSpent (STATE w2) /\
  ordersExecuted (STATE w1) = ordersExecuted (STATE w2) /\
  isRunning (STATE w1) = false /\
  alarm w1 = None.
Proof.
  intros H w1 w2.
  destruct (stoppedOf_run evs (apply ClickStop w) w H
              (stoppedOf_stopMonitoring w))
    as (Hs & Hst & Hb & He & Hss & Ha).
  fold w1 in Hs, Hst, Hb, He, Hss, Ha. fold w2 in Hs, Hst, Hb, He, Hss.
  rewrite Hst. repeat split; assumption.
Qed.

(** The README orders: Stop is clicked while the batch of the three
    waits for its first step, and the execution runs to its end. *)
Lemma stop_does_not_abort_execution_readme :
  let w :=
    run [ClickStart; CheckPrice (Some (290 # 100)); TickResumes 0]
        (init true (Some (readmeSettings 300)) None None) in
  let evs := successEvents (fun _ => 7%Z) (fun _ => None)
               [order300; order310; order320] in
  let w1 := run evs (apply ClickStop w) in
  let w2 := run evs w in
  settings w1 = settings w2 /\
  storedSettings w1 = storedSettings w2 /\
  executions w1 = executions w2 /\
  removeButtons w1 = removeButtons w2 /\
  buyProcessStarted (STATE w1) = buyProcessStarted (STATE w2) /\
  currentStep (STATE w1) = currentStep (STATE w2) /\
  totalSpent (STATE w1) = totalSpent (STATE w2) /\
  ordersExecuted (STATE w1) = ordersExecuted (STATE w2) /\
  isRunning (STATE w1) = false /\
  alarm w1 = None.
Proof.
  apply (stop_does_not_abort_execution
           (run [ClickStart; CheckPrice (Some (290 # 100)); TickResumes 0]
              (init true (Some (readmeSettings 300)) None None))
           (successEvents (fun _ => 7%Z) (fun _ => None)
              [order300; order310; order320])).
  repeat constructor.
Defined.

(** In that run the three orders are executed although Stop was
    clicked. *)
Example stop_does_not_abort_execution_orders :
  let w :=
    run ([ClickStart; CheckPrice (Some (290 # 100)); TickResumes 0;
          ClickStop] ++
         successEvents (fun _ => 7%Z) (fun _ => None)
           [order300; order310; order320])
        (init true (Some (readmeSettings 300)) None None) in
  map status (orders (settings w)) = [executed; executed; executed] /\
  executions w = [] /\ isRunning (STATE w) = false /\ alarm w = None.
Proof. vm_compute. repeat split. Qed.

(** ** What a price check decides *)






(** ** The counters after an execution that nothing interrupts *)






(** ** The search for a single order *)

Lemma find_first {A : Type} (p : A -> bool) l x :
  find p l = Some x ->
  exists l1 l2,
    l = l1 ++ x :: l2 /\ p x = true /\ forall y, In y l1 -> p y = false.
Proof.
  induction l as [| a r IH]; simpl; [discriminate |].
  destruct (p a) eqn:E.
  - intros [= <-]. exists [], r. repeat split; [exact E | intros y []].
  - intro H. destruct (IH H) as (l1 & l2 & -> & Hx & Hl1).
    exists (a :: l1), l2. repeat split; [exact Hx |].
    intros y [<- | Hy]; [exact E | apply Hl1, Hy].
Qed.

Lemma sorted_head_least (l : list Order) c r o :
  StronglySorted (fun a b => targetPrice a <= targetPrice b) l ->
  l = c :: r -> In o l -> targetPrice c <= targetPrice o.
Proof.
  intros S -> [<- | Ho]; [apply Qle_refl |].
  inversion S as [| ? ? _ Hall]; subst.
  apply (proj1 (Forall_forall _ _) Hall), Ho.
Qed.

(** X8.  The search of the single-order process against the search of the
    batch process.  One finds nothing exactly when the other does.  The
    order found is the first of the collection that is pending with a
    target at or above the price; it is among the candidates of the
    batch, whose first candidate has a target that is no higher. *)
Theorem findExecutableOrder_first_of_collection (currentPrice : Q)
    (s : Settings) :
  (findExecutableOrder currentPrice s = None <->
   findExecutableOrders currentPrice s = []) /\
  (forall o,
      findExecutableOrder currentPrice s = Some o ->
      (exists l1 l2,
          orders s = l1 ++ o :: l2 /\
          forall x, In x l1 ->
                    ~ (status x = pending /\ currentPrice <= targetPrice x)) /\
      status o = pending /\ currentPrice <= targetPrice o /\
      In o (findExecutableOrders currentPrice s) /\
      (forall c r,
          findExecutableOrders currentPrice s = c :: r ->
          targetPrice c <= targetPrice o)).
Proof.
  unfold findExecutableOrder. split.
  - split.
    + intro H.
      destruct (findExecutableOrders currentPrice s) as [| c r] eqn:F;
        [reflexivity |].
      assert (Hc : In c (findExecutableOrders currentPrice s))
        by (rewrite F; left; reflexivity).
      apply findExecutableOrders_In in Hc. destruct Hc as (Hc & Hp).
      apply executableAt_spec in Hp.
      pose proof (find_none _ _ H c Hc). congruence.
    + intro H.
      destruct (find (executableAt currentPrice) (orders s)) as [o |] eqn:F;
        [| reflexivity].
      apply find_some in F. destruct F as [Ho Hp].
      apply executableAt_spec in Hp.
      assert (Hin : In o (findExecutableOrders currentPrice s))
        by (apply findExecutableOrders_In; tauto).
      rewrite H in Hin. destruct Hin.
  - intros o H. destruct (find_first _ _ _ H) as (l1 & l2 & Hs & Hp & Hl1).
    apply executableAt_spec in Hp. destruct Hp as [Hp Hle].
    assert (Hin : In o (findExecutableOrders currentPrice s)).
    { apply findExecutableOrders_In. rewrite Hs.
      repeat split; try assumption. apply in_or_app. right. left.
      reflexivity. }
    repeat split; try assumption.
    + exists l1, l2. split; [exact Hs |].
      intros x Hx Hc. apply executableAt_spec in Hc.
      rewrite (Hl1 x Hx) in Hc. discriminate.
    + intros c r F.
      apply (sorted_head_least (findExecutableOrders currentPrice s) c r o);
        try assumption.
      apply (sort_sorted Order targetPrice).
Qed.

(** A collection where the two searches disagree on the order to take
    first: the single-order search returns the $3.20 order, added first,
    and the batch search starts with the $3.00 order. *)
Example findExecutableOrder_is_not_the_lowest_target :
  findExecutableOrder (290 # 100) (readmeSettings 300) = Some order320 /\
  hd_error (findExecutableOrders (290 # 100) (readmeSettings 300))
  = Some order300.
Proof. split; reflexivity. Qed.

(** ** An order that is added and removed *)

Lemma findIndex_app_last {A : Type} (p : A -> bool) (l : list A) y :
  (forall x, In x l -> p x = false) -> p y = true ->
  JS.findIndex p (l ++ [y]) = Some (List.length l) /\
  JS.splice1 (List.length l) (l ++ [y]) = l.
Proof.
  intros Hl Hy. induction l as [| a r IH]; simpl.
  - rewrite Hy. split; reflexivity.
  - rewrite (Hl a (or_introl eq_refl)).
    destruct IH as [-> ->]; [intros x Hx; apply Hl; right; exact Hx |].
    split; reflexivity.
Qed.

Lemma removeOrder_after_add newId target amt s :
  ~ In newId (map id (orders s)) ->
  removeOrder newId (fst (addOrder newId target amt s)) = s.
Proof.
  intro Hfresh. unfold removeOrder, addOrder. simpl.
  destruct (findIndex_app_last (fun o => String.eqb (id o) newId)
              (orders s) (newOrder newId target amt)) as [-> E].
  - intros x Hx. apply String.eqb_neq. intro Hid. apply Hfresh.
    rewrite <- Hid. apply in_map, Hx.
  - apply String.eqb_refl.
  - rewrite E. destruct s; reflexivity.
Qed.

Lemma removeOrder_unknown oid s :
  ~ In oid (map id (orders s)) -> removeOrder oid s = s.
Proof.
  intro H. unfold removeOrder.
  destruct (JS.findIndex _ _) as [index |] eqn:F; [| reflexivity].
  apply findIndex_Some in F.
  destruct F as (l1 & x & l2 & Hs & _ & Hx & _).
  exfalso. apply H. apply String.eqb_eq in Hx. rewrite <- Hx, Hs.
  apply in_map, in_or_app. right. left. reflexivity.
Qed.

Lemma removeClicked_settings oid w :
  settings (removeClicked oid w) = settings w \/
  settings (removeClicked oid w) = removeOrder oid (settings w) /\
  storedSettings (removeClicked oid w) = Some (removeOrder oid (settings w)) /\
  removeButtons (removeClicked oid w) =
  renderedRemoveButtons (removeOrder oid (settings w)).
Proof.
  unfold removeClicked.
  destruct (existsb (String.eqb oid) (removeButtons w)); [| left; reflexivity].
  destruct (JS.findIndex _ _); [| left; reflexivity].
  right. repeat split.
Qed.

(** X9.  A click on the remove button of the order that a click on Add Order
    has just added, with an id that was not in use, gives back the
    settings as they were before the two clicks, and these are what is
    stored when the order had been let in. *)
Theorem remove_undoes_add (newId : string) (currentPrice : option Q)
    (targetField amountField : option Q) (w : World) :
  ~ In newId (map id (orders (settings w))) ->
  let w1 :=
    apply (ClickAdd newId currentPrice targetField amountField) w in
  let w2 := apply (ClickRemove newId) w1 in
  settings w2 = settings w /\
  (forall order,
      snd (addOrderClicked newId currentPrice targetField amountField
             (settings w)) = Added order ->
      In order (orders (settings w1)) /\
      In newId (removeButtons w1) /\
      storedSettings w2 = Some (settings w) /\
      removeButtons w2 = renderedRemoveButtons (settings w)).
Proof.
  intros Hfresh w1 w2. unfold w2, w1. cbn [apply]. unfold addClicked.
  destruct (addOrderClicked newId currentPrice targetField amountField
              (settings w)) as [s' [m | o]] eqn:E.
  - split; [| intros order [=]].
    destruct (removeClicked_settings newId w) as [-> | (-> & _)];
      [reflexivity | apply removeOrder_unknown, Hfresh].
  - apply addOrderClicked_admits in E.
    destruct E as (t & a & _ & _ & _ & -> & ->).
    set (s' := with_orders (settings w)
                 (orders (settings w) ++ [newOrder newId t a])).
    set (w0 := renderOrders (saveSettings (setSettings s' w))).
    assert (F : forall x : World,
               settings x = s' ->
               removeButtons x = renderedRemoveButtons s' ->
               settings (removeClicked newId x) = settings w /\
               storedSettings (removeClicked newId x) = Some (settings w) /\
               removeButtons (removeClicked newId x) =
               renderedRemoveButtons (settings w)).
    { intros x Hs Hb. unfold removeClicked. rewrite Hb, Hs.
      assert (R : removeOrder newId s' = settings w)
        by apply (removeOrder_after_add newId t a (settings w) Hfresh).
      assert (B : existsb (String.eqb newId) (renderedRemoveButtons s')
                  = true).
      { apply existsb_exists. exists newId.
        split; [| apply String.eqb_refl].
        unfold renderedRemoveButtons, getPendingOrders, s'. simpl.
        rewrite filter_app, map_app. apply in_or_app. right. left.
        reflexivity. }
      rewrite B.
      destruct (JS.findIndex _ _) eqn:Fi.
      - simpl. rewrite R. repeat split.
      - exfalso. unfold removeOrder in R. rewrite Fi in R.
        apply Hfresh. rewrite <- R. unfold s'. simpl. rewrite map_app.
        apply in_or_app. right. left. reflexivity. }
    assert (G : forall x : World,
               settings x = s' ->
               removeButtons x = renderedRemoveButtons s' ->
               In (newOrder newId t a) (orders (settings x)) /\
               In newId (removeButtons x)).
    { intros x Hs Hb. rewrite Hs, Hb. split.
      - unfold s'. simpl. apply in_or_app. right. left. reflexivity.
      - unfold renderedRemoveButtons, getPendingOrders, s'. simpl.
        rewrite filter_app, map_app. apply in_or_app. right. left.
        reflexivity. }
    assert (S : forall x : World,
               settings (startMonitoring x) = settings x /\
               removeButtons (startMonitoring x) = removeButtons x).
    { intro x. unfold startMonitoring. branches; split; reflexivity. }
    match goal with
    | |- context [if ?c then _ else _] => destruct c
    end.
    + destruct (S (stopMonitoring w0)) as [S1 S2].
      destruct (F (startMonitoring (stopMonitoring w0)))
        as (F1 & F2 & F3); [rewrite S1; reflexivity
                           | rewrite S2; reflexivity |].
      destruct (G (startMonitoring (stopMonitoring w0)))
        as (G1 & G2); [rewrite S1; reflexivity | rewrite S2; reflexivity |].
      split; [exact F1 |]. intros order [= <-]. repeat split; assumption.
    + destruct (F w0) as (F1 & F2 & F3); [reflexivity | reflexivity |].
      destruct (G w0) as (G1 & G2); [reflexivity | reflexivity |].
      split; [exact F1 |]. intros order [= <-]. repeat split; assumption.
Qed.

(** A fourth order added to the README orders and removed. *)
Lemma remove_undoes_add_readme :
  let w := readmeMonitoring 300 in
  let w1 :=
    apply (ClickAdd "d" (Some (290 # 100)) (Some (280 # 100)) (Some 50)) w in
  let w2 := apply (ClickRemove "d") w1 in
  settings w2 = settings w /\
  (forall order,
      snd (addOrderClicked "d" (Some (290 # 100)) (Some (280 # 100))
             (Some 50) (settings w)) = Added order ->
      In order (orders (settings w1)) /\
      In "d"%string (removeButtons w1) /\
      storedSettings w2 = Some (settings w) /\
      removeButtons w2 = renderedRemoveButtons (settings w)).
Proof.
  apply (remove_undoes_add "d" (Some (290 # 100)) (Some (280 # 100))
           (Some 50) (readmeMonitoring 300)).
  simpl. intuition discriminate.
Defined.

(** ** What the popup is told *)



(** In that run the two totals differ: the worker says $200, the page
    $300. *)
Example popup_totals_differ :
  let w :=
    run (ClickStart :: removalDuringPurchase)
        (init true (Some (readmeSettings 300)) None None) in
  Popup.totalSpent (getState w) == 200 /\
  Status.totalSpent (getStatus None w) == 300.
Proof. vm_compute. split; reflexivity. Qed.

(** ** The storage abstraction *)

Lemma write_same {V : Type} (a : Storage.Area V) key value :
  Storage.write a key value key = Some value.
Proof. unfold Storage.write. rewrite String.eqb_refl. reflexivity. Qed.

Lemma write_other {V : Type} (a : Storage.Area V) key value k :
  k <> key -> Storage.write a key value k = a k.
Proof.
  intro H. unfold Storage.write.
  apply String.eqb_neq in H. rewrite H. reflexivity.
Qed.

Lemma session_key_inj k key :
  ("_session_" ++ k)%string = ("_session_" ++ key)%string -> k = key.
Proof. simpl. intro H. injection H. auto. Qed.

(** X11.  What is written through [Storage] is what is read back, with a
    session area and without one; a write leaves the other keys as they
    were, and a session write leaves every local key that does not start
    with the session prefix.  So [getPersistedState()] returns what
    [persistState()] saved, and saving the state touches neither the
    settings nor the logs. *)
Theorem storage_reads_back_what_was_written {V : Type} (st : Storage.t V)
    (key : string) (value : V) (d : option V) :
  Storage.get key d (Storage.set key value st) = Some value /\
  Storage.getSession key d (Storage.setSession key value st) = Some value /\
  (forall k, k <> key ->
     Storage.get k d (Storage.set key value st) = Storage.get k d st /\
     Storage.getSession k d (Storage.setSession key value st)
     = Storage.getSession k d st) /\
  (forall k, (forall r, k <> ("_session_" ++ r)%string) ->
     Storage.get k d (Storage.setSession key value st) = Storage.get k d st) /\
  Storage.getPersistedState (Storage.persistState value st) = Some value /\
  Storage.get "settings" d (Storage.persistState value st)
  = Storage.get "settings" d st /\
  Storage.get "logs" d (Storage.persistState value st)
  = Storage.get "logs" d st.
Proof.
  destruct st as [loc [ses |]];
    unfold Storage.get, Storage.set, Storage.getSession, Storage.setSession,
      Storage.persistState, Storage.getPersistedState, Storage.get,
      Storage.set; simpl.
  - rewrite !write_same. simpl. repeat split; try reflexivity.
    + rewrite write_other by assumption. reflexivity.
    + rewrite write_other by assumption. reflexivity.
  - rewrite !write_same. simpl. repeat split; try reflexivity.
    + rewrite write_other by assumption. reflexivity.
    + rewrite write_other; [reflexivity |].
      intro E. apply H. apply (session_key_inj k key). exact E.
    + intros k H. rewrite write_other; [reflexivity | apply H].
Qed.

(** A page that finds nothing under [runningState] falls back on the
    state written for the background worker, in the session area or,
    without one, under the session prefix of the local area. *)
Example getPersistedState_falls_back_on_session :
  let withSession := Storage.mk nat (fun _ => None) (Some (fun _ => None)) in
  let without := Storage.mk nat (fun _ => None) None in
  Storage.get "runningState" None (Storage.setSession "state" 7%nat withSession)
  = None /\
  Storage.getPersistedState (Storage.setSession "state" 7%nat withSession)
  = Some 7%nat /\
  Storage.getPersistedState (Storage.setSession "state" 7%nat without)
  = Some 7%nat.
Proof. repeat split. Qed.

(** ** The log *)

Lemma sliceLast_suffix {A : Type} n (l : list A) :
  l = firstn (List.length l - n) l ++ sliceLast n l /\
  List.length (sliceLast n l) = Nat.min n (List.length l).
Proof.
  unfold sliceLast. split.
  - symmetry. apply firstn_skipn.
  - rewrite length_skipn. lia.
Qed.

(** X12.  [persistLogs()] stores the entries it keeps, which are the newest
    200 in their order: the entries before are an older part that is
    dropped, and none is dropped from 200 entries or less.  The next
    page that loads the logs has these entries and shows them below what
    it shows already. *)
Theorem persistLogs_keeps_the_newest (ls : Logs) :
  let ls' := persistLogs ls in
  storedLogs ls' = Some (logEntries ls') /\
  logContainer ls' = logContainer ls /\
  (List.length (logEntries ls') <= 200)%nat /\
  (exists older,
      logEntries ls = older ++ logEntries ls' /\
      List.length older = (List.length (logEntries ls) - 200)%nat) /\
  (forall shown,
      let page := loadLogs (mkLogs [] (Some shown) (storedLogs ls')) in
      logEntries page = logEntries ls' /\
      logContainer page = Some (shown ++ logEntries ls')).
Proof.
  unfold persistLogs. cbv zeta.
  destruct (Nat.ltb 200 (List.length (logEntries ls))) eqn:E.
  - apply Nat.ltb_lt in E.
    destruct (sliceLast_suffix 200 (logEntries ls)) as [Hs Hl].
    simpl. repeat split.
    + rewrite Hl. lia.
    + exists (firstn (List.length (logEntries ls) - 200) (logEntries ls)).
      split; [exact Hs |]. rewrite length_firstn. lia.
    + unfold loadLogs. simpl.
      destruct (Nat.ltb 0 (List.length (sliceLast 200 (logEntries ls))))
        eqn:F; [reflexivity |].
      apply Nat.ltb_ge in F. rewrite Hl in F. lia.
    + unfold loadLogs. simpl.
      destruct (Nat.ltb 0 (List.length (sliceLast 200 (logEntries ls))))
        eqn:F; [reflexivity |].
      apply Nat.ltb_ge in F. rewrite Hl in F. lia.
  - apply Nat.ltb_ge in E. simpl. repeat split.
    + exact E.
    + exists []. split; [reflexivity |]. simpl. lia.
    + unfold loadLogs. simpl.
      destruct (logEntries ls) as [| x r]; reflexivity.
    + unfold loadLogs. simpl.
      destruct (logEntries ls) as [| x r]; simpl;
        [rewrite app_nil_r |]; reflexivity.
Qed.

(** The file of [saveLogs()] after [clearLogs()] has the one line that
    says so, and a [persistLogs()] then stores that entry alone. *)
Example clearLogs_leaves_one_entry :
  forall ls,
    saveLogs (clearLogs "Logs cleared" ls) = ["Logs cleared"%string] /\
    storedLogs (persistLogs (clearLogs "Logs cleared" ls))
    = Some [LogEntry.mk "Logs cleared" LogInfo].
Proof. intro ls. split; reflexivity. Qed.

(** ** Fills are at or below the target *)

Lemma fillFirst_cases oid price now vault l o' :
  In o' (fillFirst oid price now vault l) ->
  In o' l \/ exists y, In y l /\ id y = oid /\ o' = fill price now vault y.
Proof.
  induction l as [| a r IH]; simpl; [intros [] |].
  destruct (String.eqb (id a) oid) eqn:E.
  - intros [<- | H].
    + right. exists a. apply String.eqb_eq in E. auto.
    + left. right. exact H.
  - intros [<- | H]; [left; left; reflexivity |].
    destruct (IH H) as [H' | (y & Hy & Hid & ->)].
    + left. right. exact H'.
    + right. exists y. auto.
Qed.

Lemma capOk_sameOrder w e :
  coherent (inFlight w) -> capOk w -> In e (executions w) ->
  sameOrder (toMark e) (settings w).
Proof.
  intros Hc HC He. unfold coherent, inFlight in Hc. unfold capOk in HC.
  destruct (executions w) as [| e0 [| e1 r]]; [destruct He | | contradiction].
  destruct He as [<- | []]. destruct HC as (_ & _ & Hs & _). exact Hs.
Qed.

Lemma filledOk_newOrder newId target amt :
  filledOk (newOrder newId target amt).
Proof. intro H. discriminate. Qed.

(** The orders after a change are filled at or below their targets when
    the former ones are. *)
Lemma Change_filled w w' :
  Change w w' ->
  (forall e, In e (executions w) -> sameOrder (toMark e) (settings w)) ->
  Forall priceOk (executions w) ->
  Forall filledOk (orders (settings w)) ->
  (forall s, storedSettings w = Some s -> Forall filledOk (orders s)) ->
  Forall filledOk (orders (settings w')) /\
  (forall s, storedSettings w' = Some s -> Forall filledOk (orders s)).
Proof.
  intros C Hsame Hprice H Hst.
  assert (G : Forall filledOk (orders (settings w')) ->
              storedSettings w' = Some (settings w') ->
              Forall filledOk (orders (settings w')) /\
              (forall s, storedSettings w' = Some s ->
                         Forall filledOk (orders s))).
  { intros G1 G2. split; [exact G1 |]. intros s E. rewrite G2 in E.
    inversion E; subst. exact G1. }
  destruct C as [H1 H2 | H1 H2 | newId t a Ha Ht Hb H1 H2
                 | l1 x l2 Hs H1 H2 | e o rest n v He Hm H1 H2 | H1 H2].
  - rewrite H1, H2. split; assumption.
  - apply G; [rewrite H1; exact H | exact H2].
  - apply G; [| exact H2]. rewrite H1. simpl.
    apply Forall_app. split; [exact H |]. constructor; [| constructor].
    apply filledOk_newOrder.
  - apply G; [| exact H2]. rewrite H1. simpl. rewrite Hs in H.
    apply Forall_app in H. destruct H as [Ha Hb]. inversion Hb; subst.
    apply Forall_app. split; assumption.
  - apply G; [| exact H2]. rewrite H1. simpl.
    apply Forall_forall. intros o' Ho'.
    apply fillFirst_cases in Ho'.
    destruct Ho' as [Ho' | (y & Hy & Hid & ->)];
      [apply (proj1 (Forall_forall _ _) H), Ho' |].
    assert (Ho : In o (toMark e)) by (rewrite Hm; left; reflexivity).
    assert (Ey : y = o) by (apply (Hsame e He o y); assumption).
    subst y.
    destruct (proj1 (Forall_forall _ _) Hprice e He) as [Hpos Hle].
    intros _. exists (executionPrice e). simpl.
    repeat split; [exact Hpos | apply Hle, Ho].
  - rewrite H1, H2. split; [| exact Hst].
    unfold loadedSettings. destruct (storedSettings w) as [s |].
    + apply Hst. reflexivity.
    + constructor.
Qed.

Lemma Forall_dropAt {A : Type} (P : A -> Prop) i l :
  Forall P l -> Forall P (dropAt i l).
Proof.
  intro H. revert i. induction H as [| x r Hx Hr IH]; intro i.
  - destruct i; constructor.
  - destruct i; simpl; [exact Hr | constructor; [exact Hx | apply IH]].
Qed.

Lemma Forall_putAt {A : Type} (P : A -> Prop) i k l :
  Forall P l -> (forall x, k = Some x -> P x) -> Forall P (putAt i k l).
Proof.
  intros H Hk. revert i. induction H as [| x r Hx Hr IH]; intro i.
  - destruct i; constructor.
  - destruct i; simpl.
    + destruct k as [z |]; [constructor; [apply Hk; reflexivity |] |];
        exact Hr.
    + constructor; [exact Hx | apply IH].
Qed.

Lemma markLoop_priceOk e l now vault w e' :
  0 < executionPrice e ->
  (forall o, In o l -> executionPrice e <= targetPrice o) ->
  snd (markLoop e l now vault w) = Some e' ->
  priceOk e' /\ ticks (fst (markLoop e l now vault w)) = ticks w.
Proof.
  intros Hpos Hle. unfold markLoop, markOrderExecuted_begin.
  destruct l as [| o rest].
  - simpl. intros [= <-]. split; [| reflexivity].
    split; [exact Hpos | intros o []].
  - destruct (existsb _ _); simpl; intros [= <-];
      (split; [| reflexivity]);
      (split; [exact Hpos |]);
      unfold toMark; simpl; intros x Hx; apply Hle; right; exact Hx.
Qed.

Lemma stepSettled_priceOk r now vault e w :
  priceOk e ->
  ticks (fst (stepSettled r now vault e w)) = ticks w /\
  forall e', snd (stepSettled r now vault e w) = Some e' -> priceOk e'.
Proof.
  intros [Hpos Hle]. unfold stepSettled, toMark in *.
  destruct e as [b p c pc]. simpl in *.
  assert (F : ticks (finallyBlock w) = ticks w).
  { unfold finallyBlock, scheduleRefresh. simpl.
    match goal with
    | |- context [if ?c then _ else _] => destruct c
    end; reflexivity. }
  destruct pc, r; simpl;
    try (split; [reflexivity || exact F |];
         intros e' E; inversion E; subst;
         split; first [exact Hpos | exact Hle]).
  split.
  - unfold markLoop, markOrderExecuted_begin.
    destruct b; [reflexivity |]. destruct (existsb _ _); reflexivity.
  - intros e' E.
    refine (proj1 (markLoop_priceOk _ _ _ _ _ _ _ _ E));
      [exact Hpos | exact Hle].
Qed.

Lemma writeSettled_priceOk now vault e w :
  priceOk e ->
  ticks (fst (writeSettled now vault e w)) = ticks w /\
  forall e', snd (writeSettled now vault e w) = Some e' -> priceOk e'.
Proof.
  intros [Hpos Hle]. unfold writeSettled, toMark in *.
  destruct e as [b p c pc]. simpl in *.
  assert (F : ticks (finallyBlock w) = ticks w).
  { unfold finallyBlock, scheduleRefresh. simpl.
    match goal with
    | |- context [if ?c then _ else _] => destruct c
    end; reflexivity. }
  destruct pc; simpl;
    try (split; [reflexivity || exact F |];
         intros e' E; inversion E; subst;
         split; first [exact Hpos | exact Hle]).
  destruct (markOrderExecuted_end_frame saving w)
    as (_ & _ & _ & _ & _ & Et & _).
  split.
  - rewrite <- Et. unfold markLoop, markOrderExecuted_begin.
    destruct rest; [reflexivity |]. destruct (existsb _ _); reflexivity.
  - intros e' E.
    refine (proj1 (markLoop_priceOk _ _ _ _ _ _ _ _ E));
      [exact Hpos | exact Hle].
Qed.

Lemma checkPriceAndBuy_resumed_ticks p w :
  ticks (fst (checkPriceAndBuy_resumed p w)) = ticks w.
Proof.
  unfold checkPriceAndBuy_resumed, executeBatchBuyProcess_entry,
    scheduleRefresh, stopMonitoring.
  branches; reflexivity.
Qed.

Lemma init_prices v stored persisted al :
  ticks (init v stored persisted al) = [] /\
  executions (init v stored persisted al) = [].
Proof.
  unfold init. destruct v; simpl;
    [destruct (wasRunning persisted), (wasBuying persisted) |];
    split; reflexivity.
Qed.

Lemma pricesOk_apply ev w :
  sampled ev ->
  Forall (fun p => 0 < p) (ticks w) -> Forall priceOk (executions w) ->
  Forall (fun p => 0 < p) (ticks (apply ev w)) /\
  Forall priceOk (executions (apply ev w)).
Proof.
  intros Hs Ht He. destruct ev; cbn [apply].
  - unfold startMonitoring. branches; split; assumption.
  - split; assumption.
  - unfold saveClicked, scheduleRefresh. branches; split; assumption.
  - unfold addClicked.
    destruct (addOrderClicked _ _ _ _ _) as [s' [m | o]];
      [split; assumption |].
    unfold startMonitoring. branches; split; assumption.
  - unfold removeClicked. branches; split; assumption.
  - destruct (checks w); [split; assumption |].
    unfold checkPriceAndBuy, stopMonitoring, scheduleRefresh.
    destruct currentPrice as [p |]; branches; simpl;
      split; try assumption.
    apply Forall_app. split; [assumption |]. repeat constructor. exact Hs.
  - destruct (nth_error (ticks w) i) as [p |] eqn:En; [| split; assumption].
    assert (Hp : 0 < p)
      by (apply (proj1 (Forall_forall _ _) Ht), (nth_error_In _ _ En)).
    pose proof (checkPriceAndBuy_resumed_ticks p
                  (setTicks (dropAt i (ticks w)) w)) as Tk.
    destruct (checkPriceAndBuy_resumed_cases p
                (setTicks (dropAt i (ticks w)) w)) as (_ & Hx & _ & Hk).
    destruct (checkPriceAndBuy_resumed p (setTicks (dropAt i (ticks w)) w))
      as [w' [e |]]; simpl in *.
    + rewrite Tk, Hx. split; [apply Forall_dropAt, Ht |].
      apply Forall_app. split; [exact He |]. repeat constructor.
      * destruct (Hk e eq_refl) as (_ & _ & _ & _ & _ & _ & ->). exact Hp.
      * destruct (Hk e eq_refl) as (_ & _ & _ & Hsel & _ & Hsusp & ->).
        intros o Ho. unfold toMark in Ho. rewrite Hsusp, Hsel in Ho.
        apply selected_orders_executable in Ho. tauto.
    + rewrite Tk, Hx. split; [apply Forall_dropAt, Ht | exact He].
  - destruct (nth_error (executions w) i) as [e |] eqn:En;
      [| split; assumption].
    assert (Pe : priceOk e)
      by (apply (proj1 (Forall_forall _ _) He), (nth_error_In _ _ En)).
    destruct (stepSettled_priceOk r now vault e w Pe) as [Tk Hk].
    destruct (stepSettled_ledger r now vault e w) as (Hx & _).
    destruct (stepSettled r now vault e w) as [w' k]. simpl in *.
    rewrite Tk, Hx. split; [exact Ht |].
    apply Forall_putAt; [exact He |]. intros x ->. apply Hk. reflexivity.
  - destruct (nth_error (executions w) i) as [e |] eqn:En;
      [| split; assumption].
    assert (Pe : priceOk e)
      by (apply (proj1 (Forall_forall _ _) He), (nth_error_In _ _ En)).
    destruct (writeSettled_priceOk now vault e w Pe) as [Tk Hk].
    destruct (writeSettled_ledger now vault e w) as (Hx & _).
    destruct (writeSettled now vault e w) as [w' k]. simpl in *.
    rewrite Tk, Hx. split; [exact Ht |].
    apply Forall_putAt; [exact He |]. intros x ->. apply Hk. reflexivity.
  - destruct (init_prices onVaultPage (storedSettings w) (runningState w)
                (alarm w)) as [-> ->].
    split; constructor.
  - unfold alarmFired. destruct (alarm w); [| split; assumption].
    destruct (wasBuying (runningState w)); [split; assumption |].
    destruct (init_prices true (storedSettings w) (runningState w) None)
      as [-> ->].
    split; constructor.
Qed.

Lemma fillsOk_apply ev w :
  wellKept w -> capOk w -> sampled ev -> fillsOk w -> fillsOk (apply ev w).
Proof.
  intros HK HC Hs (Ho & Hst & Ht & He).
  destruct (pricesOk_apply ev w Hs Ht He) as [Ht' He'].
  assert (D : ev = Reload false \/ ev <> Reload false).
  { destruct ev; try (right; discriminate).
    destruct onVaultPage; [right; discriminate | left; reflexivity]. }
  destruct D as [-> | Hv].
  - repeat split; try assumption. simpl. constructor.
  - destruct (Change_filled w (apply ev w) (Change_apply ev w Hv))
      as [Ho' Hst']; try assumption.
    + intros e Hin. apply capOk_sameOrder; [exact (proj1 HK) | exact HC |].
      exact Hin.
    + repeat split; assumption.
Qed.

Lemma fillsOk_init v stored persisted al :
  (forall s, stored = Some s -> Forall filledOk (orders s)) ->
  fillsOk (init v stored persisted al).
Proof.
  intro Hst.
  destruct (init_Forall filledOk v stored persisted al Hst) as [H1 H2].
  destruct (init_prices v stored persisted al) as [Et Ee].
  unfold fillsOk. rewrite Et, Ee. repeat split; try assumption; constructor.
Qed.

Lemma fillsOk_run evs w :
  wellKept w -> Forall admissible (orders (settings w)) ->
  (forall s, storedSettings w = Some s -> Forall admissible (orders s)) ->
  unusedIds evs w -> Forall sampled evs -> capOk w -> fillsOk w ->
  fillsOk (run evs w).
Proof.
  revert w. induction evs as [| ev evs IH]; intros w HK HA HS HU Hsm HC HF.
  - exact HF.
  - rewrite run_cons. destruct HU as [HU1 HU2].
    inversion Hsm as [| ? ? Hs1 Hs2]; subst.
    destruct (apply_Forall admissible ev w admissible_newOrder
                fill_admissible HA HS) as [HA' HS'].
    apply IH; try assumption.
    + apply wellKept_apply; [exact HK | apply unusedId_freshId, HU1].
    + apply capOk_apply; assumption.
    + apply fillsOk_apply; assumption.
Qed.

(** What the Filled Price cell shows for an order filled at or below its
    target. *)
Lemma priceDisplay_filled o p :
  executedPrice o = Some p -> 0 < p -> p <= targetPrice o ->
  fst (priceDisplay o) == p /\ priceForCalc o = p /\
  (snd (priceDisplay o) = None <-> p == targetPrice o).
Proof.
  intros E Hpos Hle. unfold priceDisplay, priceForCalc. rewrite E.
  destruct (Qeq_bool p 0) eqn:Z;
    [apply Qeq_bool_iff in Z; lra |].
  simpl. destruct (JS.lt p (targetPrice o)) eqn:L; simpl.
  - apply JS_lt_spec in L. repeat split; try reflexivity.
    + discriminate.
    + intro H. lra.
  - apply JS_lt_false in L. repeat split; try reflexivity; try lra;
      intros _; lra.
Qed.

(** X13.  Under every interleaving of clicks, price checks, resumptions,
    reloads and alarms, over stored orders with distinct ids, amounts of
    $25 at least, fills at or below target and new ids that are not in
    use, and with sampled prices above 0 as [getCurrentPrice] returns
    them: every executed order of the collection carries a fill price
    that is positive and at most its target.  The Filled Price column
    therefore shows the fill price of every executed order, with the
    target in brackets exactly when the fill was below it, and the XCH
    amount is computed from the fill price. *)
Theorem fills_stay_at_or_below_target (onVaultPage : bool)
    (stored : option Settings) (persisted : option Persisted.t)
    (al : option Z) (evs : list Event) :
  (forall s, stored = Some s ->
             NoDup (map id (orders s)) /\ Forall admissible (orders s) /\
             Forall filledOk (orders s)) ->
  unusedIds evs (init onVaultPage stored persisted al) ->
  Forall sampled evs ->
  let w := run evs (init onVaultPage stored persisted al) in
  forall o,
    In o (orders (settings w)) -> status o = executed ->
    exists p,
      executedPrice o = Some p /\ 0 < p /\ p <= targetPrice o /\
      fst (priceDisplay o) == p /\ priceForCalc o = p /\
      (snd (priceDisplay o) = None <-> p == targetPrice o).
Proof.
  intros Hst HU Hsm w o Ho Hex.
  destruct (init_Forall admissible onVaultPage stored persisted al)
    as [HA HS]; [intros s E; apply Hst, E |].
  assert (HF : fillsOk w).
  { unfold w. apply fillsOk_run; try assumption.
    - apply wellKept_init. intros s E. apply Hst, E.
    - apply capOk_init.
    - apply fillsOk_init. intros s E. apply Hst, E. }
  destruct HF as (Hall & _).
  destruct (proj1 (Forall_forall _ _) Hall o Ho Hex) as (p & Ep & Hpos & Hle).
  exists p. repeat split; try assumption;
    apply (priceDisplay_filled o p Ep Hpos Hle).
Qed.

(** The README orders with $300 to spend, bought at $2.90 while the
    $3.20 order is removed. *)
Lemma fills_stay_at_or_below_target_readme :
  let w :=
    run (ClickStart :: removalDuringPurchase)
        (init true (Some (readmeSettings 300)) None None) in
  let o := fill (290 # 100) 7%Z None order300 in
  exists p,
    executedPrice o = Some p /\ 0 < p /\ p <= targetPrice o /\
    fst (priceDisplay o) == p /\ priceForCalc o = p /\
    (snd (priceDisplay o) = None <-> p == targetPrice o).
Proof.
  apply (fills_stay_at_or_below_target true (Some (readmeSettings 300))
           None None (ClickStart :: removalDuringPurchase)).
  - intros s E. inversion E; subst. split; [| split].
    + simpl. repeat constructor; simpl; intuition discriminate.
    + repeat constructor; simpl; lra.
    + repeat constructor; intro H; discriminate.
  - vm_compute. intuition discriminate.
  - repeat constructor.
  - vm_compute. right. left. reflexivity.
  - reflexivity.
Defined.

(** ** What keeps the monitoring going *)


Lemma lively_stopped w :
  isRunning (STATE w) = false -> alarm w = None -> lively w.
Proof. intros R A. split; [congruence | intros _; exact A]. Qed.

Lemma lively_scheduleRefresh w :
  (isRunning (STATE w) = false -> alarm w = None) ->
  lively (scheduleRefresh w).
Proof.
  intro H. unfold scheduleRefresh.
  destruct (isRunning (STATE w)) eqn:R.
  - split; simpl; [| congruence].
    intros _. right. right. right. discriminate.
  - apply lively_stopped; [exact R | apply H; reflexivity].
Qed.



Lemma lively_finallyBlock w :
  (isRunning (STATE w) = false -> alarm w = None) ->
  lively (finallyBlock w).
Proof. intro H. unfold finallyBlock. apply lively_scheduleRefresh. exact H. Qed.











(** ** A reload while a batch is being marked *)



(** In that run the batch of $300 has been placed; after the reload the
    next price check starts an execution for the two orders that were
    not marked, $200 more, with $300 to spend in all. *)
Example reload_while_marking_buys_again :
  let w :=
    run [ClickStart; CheckPrice (Some (290 # 100)); TickResumes 0;
         StepSettles 0 StepOk 0%Z None; StepSettles 0 StepOk 0%Z None;
         StepSettles 0 StepOk 7%Z None]
        (init true (Some (readmeSettings 300)) None None) in
  let w' :=
    run [Reload true; CheckPrice (Some (290 # 100)); TickResumes 0] w in
  map suspended (executions w) = [Marking true [order310; order320]] /\
  map combinedAmount (executions w) = [sumAmounts [order300; order310; order320]] /\
  map batch (executions w') = [[order310; order320]] /\
  maxBudget (settings w') == 300 /\
  sumAmounts [order300; order310; order320] + sumAmounts [order310; order320]
  == 500.
Proof. cbv zeta. repeat split; vm_compute; reflexivity. Qed.

(** ** Orders are appended, removed or filled, and nothing else *)

Lemma Subseq_drop {A : Type} (l1 l2 : list A) x :
  Subseq (l1 ++ l2) (l1 ++ x :: l2).
Proof.
  induction l1 as [| a r IH]; simpl.
  - apply Subseq_skip, Subseq_refl.
  - apply Subseq_keep, IH.
Qed.

(** X16.  On the vault page no event edits or reorders the orders.  After
    any event the ids of the collection are, in order, ids that were
    there before, followed by the id of the order that the Add Order
    handler let in, if any; and every order other than that one has the
    id, the target and the amount of an order that was there before, and
    is that very order unless it has been filled. *)
Theorem orders_are_never_edited (stored : option Settings)
    (persisted : option Persisted.t) (al : option Z) (evs : list Event)
    (ev : Event) :
  onVault evs -> ev <> Reload false ->
  let w := run evs (init true stored persisted al) in
  let before := orders (settings w) in
  let after := orders (settings (apply ev w)) in
  exists added,
    (added = [] \/
     exists newId target amt,
       25 <= amt /\ 0 < target /\ added = [newOrder newId target amt]) /\
    Subseq (map id after) (map id (before ++ added)) /\
    forall o',
      In o' after ->
      In o' added \/
      exists o,
        In o before /\ id o' = id o /\ targetPrice o' = targetPrice o /\
        amount o' = amount o /\ (o' = o \/ status o' = executed).
Proof.
  intros V Hv w before after.
  assert (L : settings w = loadedSettings (storedSettings w)).
  { unfold w. apply run_loadable; [exact V |].
    destruct (init_vault_settings stored persisted al) as [-> ->].
    reflexivity. }
  assert (Same : forall l : list Order,
             forall o', In o' l ->
               In o' (@nil Order) \/
               exists o,
                 In o l /\ id o' = id o /\ targetPrice o' = targetPrice o /\
                 amount o' = amount o /\ (o' = o \/ status o' = executed)).
  { intros l o' H. right. exists o'. repeat split; auto. }
  assert (Keep : after = before ->
             exists added,
               (added = [] \/
                exists newId target amt,
                  25 <= amt /\ 0 < target /\
                  added = [newOrder newId target amt]) /\
               Subseq (map id after) (map id (before ++ added)) /\
               forall o',
                 In o' after ->
                 In o' added \/
                 exists o,
                   In o before /\ id o' = id o /\
                   targetPrice o' = targetPrice o /\
                   amount o' = amount o /\ (o' = o \/ status o' = executed)).
  { intros ->. exists []. split; [left; reflexivity |].
    rewrite app_nil_r. split; [apply Subseq_refl | apply Same]. }
  destruct (Change_apply ev w Hv)
    as [H1 H2 | H1 H2 | newId t a Ha Ht Hb H1 H2
        | l1 x l2 Hs H1 H2 | e o rest n v He Hm H1 H2 | H1 H2].
  - apply Keep. unfold after, before. rewrite H1. reflexivity.
  - apply Keep. exact H1.
  - exists [newOrder newId t a]. split.
    + right. exists newId, t, a. repeat split; assumption.
    + unfold after. rewrite H1. simpl. fold before.
      split; [apply Subseq_refl |].
      intros o' Ho'. apply in_app_or in Ho'.
      destruct Ho' as [Ho' | Ho']; [| left; exact Ho'].
      right. exists o'. repeat split; auto.
  - exists []. split; [left; reflexivity |].
    unfold after, before. rewrite H1, Hs. simpl. rewrite app_nil_r.
    split.
    + rewrite !map_app. simpl. apply Subseq_drop.
    + intros o' Ho'. right. exists o'. repeat split; auto.
      apply in_app_or in Ho'. apply in_or_app.
      destruct Ho'; [left | right; right]; assumption.
  - exists []. split; [left; reflexivity |].
    unfold after. rewrite H1. simpl. fold before. rewrite app_nil_r.
    rewrite fillFirst_ids. split; [apply Subseq_refl |].
    intros o' Ho'. right. apply fillFirst_cases in Ho'.
    destruct Ho' as [Ho' | (y & Hy & _ & ->)].
    + exists o'. repeat split; auto.
    + exists y. repeat split; auto.
  - apply Keep. unfold after, before. rewrite H1, <- L. reflexivity.
Qed.

(** The README orders: a fourth order is added while the batch of the
    three waits for its second step. *)
Lemma orders_are_never_edited_readme :
  let w :=
    run [ClickStart; CheckPrice (Some (290 # 100)); TickResumes 0;
         StepSettles 0 StepOk 0%Z None]
        (init true (Some (readmeSettings 300)) None None) in
  let ev := ClickAdd "d" (Some (290 # 100)) (Some (280 # 100)) (Some 50) in
  let before := orders (settings w) in
  let after := orders (settings (apply ev w)) in
  exists added,
    (added = [] \/
     exists newId target amt,
       25 <= amt /\ 0 < target /\ added = [newOrder newId target amt]) /\
    Subseq (map id after) (map id (before ++ added)) /\
    forall o',
      In o' after ->
      In o' added \/
      exists o,
        In o before /\ id o' = id o /\ targetPrice o' = targetPrice o /\
        amount o' = amount o /\ (o' = o \/ status o' = executed).
Proof.
  apply (orders_are_never_edited (Some (readmeSettings 300)) None None
           [ClickStart; CheckPrice (Some (290 # 100)); TickResumes 0;
            StepSettles 0 StepOk 0%Z None]
           (ClickAdd "d" (Some (290 # 100)) (Some (280 # 100)) (Some 50))).
  - repeat constructor; discriminate.
  - discriminate.
Defined.
